(** * The emoji cache of [ditto/db/emoji.py]

    A shallow embedding of [EmojiCacheMixin]: the guild selector
    [_find_guild] with its evict-and-retry recursion, [create_emoji],
    [create_user_emoji], [fetch_emoji], [fetch_user_emoji] and
    [delete_emoji], over an explicit world made of the chat platform's emoji
    cache, the two tables [Emoji] and [UserEmoji], the clock, the random
    source and a trace of the calls made to the store and to the platform.

    Every method runs under [MaybeAcquire], which only borrows a connection:
    no transaction is opened, so what a method wrote before it raised stays
    written.  The monad [M] below therefore returns the world together with
    the outcome, for a normal return and for an exception alike.

    The platform is taken to answer at once and without error: an emoji
    created or deleted is in or out of the client's cache, and of
    [guild.emojis], when the call returns.  The library brings the cache up
    to date when the gateway reports a change, which can be after the call
    has returned: the worlds below are those of a client that has heard of
    every change made so far.  One caller runs at a time, except where a
    world is handed from one caller to another.

    [random.sample] is modelled by its code in CPython: the running sums of
    the counts, the test of their total, one selection below the total and
    its bisection in the running sums.  The interpreter's limit on the depth
    of recursion is the parameter of [_find_guild_rec]. *)

From stdpp Require Import gmap strings list fin_maps.

Local Open Scope Z_scope.

(** ** Data *)

(** What the platform knows of a custom emoji, its id apart. *)
Record EmojiInfo := {
  info_name : string;
  info_guild_id : Z;
  info_animated : bool
}.

(** A [discord.Emoji] object. *)
Record discord_Emoji := {
  emoji_id : Z;
  emoji_name : string;
  emoji_guild_id : Z;
  emoji_animated : bool
}.

(** A [discord.Guild] of [CONFIG.EMOJI.GUILDS].  [guild.emojis] is read from
    the world; the guild object carries what does not change here. *)
Record Guild := {
  guild_id : Z;
  emoji_limit : Z
}.

(** A [User]: what [create_user_emoji] reads of it.  [user.name] is a
    [str], a sequence of code points, and is held as the list of them, since
    [user.name[:28]] and the pattern of [re.sub] count and test code points.
    [str(user.discriminator)] is only appended, and is held as text. *)
Record User := {
  user_id : Z;
  user_name : list N;
  user_discriminator : string
}.

(** The image handed to the platform: the avatar of a user as
    [create_user_image] renders it, a PNG, or the bytes of another caller of
    [create_emoji], of which the platform makes an animated emoji when they
    are those of an animated image. *)
Inductive Image :=
| AvatarOf (uid : Z)
| ImageBytes (animated : bool).

Definition image_animated (image : Image) : bool :=
  match image with
  | AvatarOf _ => false
  | ImageBytes animated => animated
  end.

(** A row of table [Emoji], its key [emoji_id] apart. *)
Record EmojiRow := {
  row_guild_id : Z;
  row_last_fetched : Z
}.

(** The record [Emoji.fetch_row] returns. *)
Record EmojiRecord := {
  rec_emoji_id : Z;
  rec_guild_id : Z;
  rec_last_fetched : Z
}.

(** The record [UserEmoji.fetch_row] returns. *)
Record UserEmojiRecord := {
  urec_user_id : Z;
  urec_emoji_id : Z
}.

#[global] Instance Guild_eq_dec : EqDecision Guild.
Proof. solve_decision. Defined.

#[global] Instance EmojiRow_eq_dec : EqDecision EmojiRow.
Proof. solve_decision. Defined.

(** Calls to the store and to the platform, in the order they are made. *)
Inductive Event :=
| EvEmojiFetchRow (eid : Z)
| EvEmojiFetchOldest
| EvEmojiInsert (eid gid : Z)
| EvEmojiUpdate (eid ts : Z)
| EvEmojiDelete (eid : Z)
| EvUserFetchRow (uid : Z)
| EvUserInsert (uid eid : Z)
| EvUserDelete (uid : Z)
| EvGetEmoji (eid : Z)
| EvDiscordDelete (eid : Z)
| EvDiscordCreate (gid : Z) (name : string)
| EvDownloadAvatar (uid : Z).

#[global] Instance Event_eq_dec : EqDecision Event.
Proof. solve_decision. Defined.

(** Modelled from the spec: the table declarations (ditto/db/tables.py) and
    the ORM are not under src/.  Following sections 3 and 6 of the
    specification, [Emoji] holds one row per [emoji_id] and [UserEmoji] one
    row per [user_id], and [fetch_row], [insert], [update_record] and
    [delete_record] act on the row with the record's key.  A row of [Emoji]
    carries a [last_fetched], which [Emoji.insert] is not given: the row
    takes the one the store has for it, [default_last_fetched], about which
    nothing is known and nothing is assumed. *)
Record World := {
  discord_emojis : gmap Z EmojiInfo;
  next_snowflake : Z;
  tbl_Emoji : gmap Z EmojiRow;
  tbl_UserEmoji : gmap Z Z;
  default_last_fetched : Z;
  clock : Z;
  entropy : list nat;
  trace : list Event
}.

Definition set_discord_emojis (f : gmap Z EmojiInfo → gmap Z EmojiInfo) (w : World) : World :=
  {| discord_emojis := f (discord_emojis w); next_snowflake := next_snowflake w;
     tbl_Emoji := tbl_Emoji w; tbl_UserEmoji := tbl_UserEmoji w;
     default_last_fetched := default_last_fetched w;
     clock := clock w; entropy := entropy w; trace := trace w |}.

Definition set_next_snowflake (n : Z) (w : World) : World :=
  {| discord_emojis := discord_emojis w; next_snowflake := n;
     tbl_Emoji := tbl_Emoji w; tbl_UserEmoji := tbl_UserEmoji w;
     default_last_fetched := default_last_fetched w;
     clock := clock w; entropy := entropy w; trace := trace w |}.

Definition set_tbl_Emoji (f : gmap Z EmojiRow → gmap Z EmojiRow) (w : World) : World :=
  {| discord_emojis := discord_emojis w; next_snowflake := next_snowflake w;
     tbl_Emoji := f (tbl_Emoji w); tbl_UserEmoji := tbl_UserEmoji w;
     default_last_fetched := default_last_fetched w;
     clock := clock w; entropy := entropy w; trace := trace w |}.

Definition set_tbl_UserEmoji (f : gmap Z Z → gmap Z Z) (w : World) : World :=
  {| discord_emojis := discord_emojis w; next_snowflake := next_snowflake w;
     tbl_Emoji := tbl_Emoji w; tbl_UserEmoji := f (tbl_UserEmoji w);
     default_last_fetched := default_last_fetched w;
     clock := clock w; entropy := entropy w; trace := trace w |}.

Definition set_entropy (l : list nat) (w : World) : World :=
  {| discord_emojis := discord_emojis w; next_snowflake := next_snowflake w;
     tbl_Emoji := tbl_Emoji w; tbl_UserEmoji := tbl_UserEmoji w;
     default_last_fetched := default_last_fetched w;
     clock := clock w; entropy := l; trace := trace w |}.

Definition log (e : Event) (w : World) : World :=
  {| discord_emojis := discord_emojis w; next_snowflake := next_snowflake w;
     tbl_Emoji := tbl_Emoji w; tbl_UserEmoji := tbl_UserEmoji w;
     default_last_fetched := default_last_fetched w;
     clock := clock w; entropy := entropy w; trace := trace w ++ [e] |}.

(** ** Exceptions and the monad *)

Inductive Exn :=
| ValueError_not_in_cache (eid : Z)
| ValueError_sample
| IndexError_list
| RuntimeError_empty_and_full
| RuntimeError_deleted
| UniqueViolationError
| RecursionError.

(** [except RuntimeError] ([RecursionError] derives from it). *)
Definition is_RuntimeError (e : Exn) : bool :=
  match e with
  | RuntimeError_empty_and_full | RuntimeError_deleted | RecursionError => true
  | _ => false
  end.

Inductive Result (A : Type) :=
| Ok (a : A)
| Raise (e : Exn).
Arguments Ok {A} a.
Arguments Raise {A} e.

Definition M (A : Type) : Type := World → World * Result A.

Definition ret {A} (a : A) : M A := λ w, (w, Ok a).

Definition raise {A} (e : Exn) : M A := λ w, (w, Raise e).

Definition bind {A B} (c : M A) (k : A → M B) : M B :=
  λ w, match c w with
       | (w', Ok a) => k a w'
       | (w', Raise e) => (w', Raise e)
       end.

(** [try: return c] with [except RuntimeError:] followed by [h]. *)
Definition try_except_RuntimeError {A} (c : M A) (h : M A) : M A :=
  λ w, match c w with
       | (w', Ok a) => (w', Ok a)
       | (w', Raise e) => if is_RuntimeError e then h w' else (w', Raise e)
       end.

Definition emit (e : Event) : M unit := λ w, (log e w, Ok tt).

Definition gets {A} (f : World → A) : M A := λ w, (w, Ok (f w)).

Definition modify (f : World → World) : M unit := λ w, (f w, Ok tt).

#[global] Instance M_ret : MRet M := @ret.
#[global] Instance M_bind : MBind M := λ A B k c, bind c k.

(** ** The platform *)

Definition to_discord_Emoji (eid : Z) (i : EmojiInfo) : discord_Emoji :=
  {| emoji_id := eid; emoji_name := info_name i;
     emoji_guild_id := info_guild_id i; emoji_animated := info_animated i |}.

(** [bot.get_emoji(emoji_id)]: a lookup in the client's emoji cache. *)
Definition get_emoji (eid : Z) : M (option discord_Emoji) :=
  emit (EvGetEmoji eid);;
  gets (λ w, to_discord_Emoji eid <$> discord_emojis w !! eid).

(** [emoji.delete()].  The request deletes the emoji on the platform; the
    client is taken to have heard of it when the call returns, so that
    [get_emoji] and [guild.emojis] no longer have the emoji. *)
Definition emoji_delete (e : discord_Emoji) : M unit :=
  emit (EvDiscordDelete (emoji_id e));;
  modify (set_discord_emojis (delete (emoji_id e))).

(** [guild.create_custom_emoji(name=..., image=...)]: the platform gives the
    new emoji its id, and makes it animated when the image is.  The client
    stores the emoji it returns, so that [get_emoji] finds it; it is taken
    to be in [guild.emojis] as well when the call returns. *)
Definition create_custom_emoji (g : Guild) (name : string) (image : Image) : M discord_Emoji :=
  emit (EvDiscordCreate (guild_id g) name);;
  eid ← gets next_snowflake;
  let i := {| info_name := name; info_guild_id := guild_id g;
              info_animated := image_animated image |} in
  modify (set_discord_emojis (insert eid i));;
  modify (set_next_snowflake (eid + 1));;
  mret (to_discord_Emoji eid i).

(** [guild.emojis], in the order of the cache. *)
Definition guild_emojis (w : World) (g : Guild) : list EmojiInfo :=
  filter (λ i, info_guild_id i = guild_id g) (snd <$> map_to_list (discord_emojis w)).

(** [sum(not e.animated for e in emojis)] *)
Definition still_count (emojis : list EmojiInfo) : Z :=
  foldr (λ e acc, Z.b2z (negb (info_animated e)) + acc) 0 emojis.

(** [datetime.datetime.now(datetime.timezone.utc)]. *)
Definition now : M Z := gets clock.

(** One draw of the random source. *)
Definition draw : M nat :=
  r ← gets (λ w, hd 0%nat (entropy w));
  modify (λ w, set_entropy (tail (entropy w)) w);;
  mret r.

(** ** The store *)

Definition to_EmojiRecord (eid : Z) (r : EmojiRow) : EmojiRecord :=
  {| rec_emoji_id := eid; rec_guild_id := row_guild_id r;
     rec_last_fetched := row_last_fetched r |}.

(** The rows of [Emoji] as records, in storage order. *)
Definition Emoji_records (m : gmap Z EmojiRow) : list EmojiRecord :=
  (λ kr, to_EmojiRecord kr.1 kr.2) <$> map_to_list m.

(** [ORDER BY last_fetched ASC LIMIT 1]: the first row, in storage order,
    among those with the least [last_fetched]. *)
Fixpoint first_oldest (l : list EmojiRecord) : option EmojiRecord :=
  match l with
  | [] => None
  | r :: l' =>
      match first_oldest l' with
      | Some r' => if rec_last_fetched r' <? rec_last_fetched r then Some r' else Some r
      | None => Some r
      end
  end.

(** [Emoji.fetch_row(connection, emoji_id=emoji_id)]. *)
Definition Emoji_fetch_row (eid : Z) : M (option EmojiRecord) :=
  emit (EvEmojiFetchRow eid);;
  gets (λ w, to_EmojiRecord eid <$> tbl_Emoji w !! eid).

(** [Emoji.fetch_row(connection, order_by=(Emoji.last_fetched, "ASC"))]. *)
Definition Emoji_fetch_row_oldest : M (option EmojiRecord) :=
  emit EvEmojiFetchOldest;;
  gets (λ w, first_oldest (Emoji_records (tbl_Emoji w))).

(** [Emoji.insert(connection, emoji_id=..., guild_id=...)]; [last_fetched]
    is not among the values given and is the store's to fill. *)
Definition Emoji_insert (eid gid : Z) : M unit :=
  emit (EvEmojiInsert eid gid);;
  old ← gets (λ w, tbl_Emoji w !! eid);
  match old with
  | Some _ => raise UniqueViolationError
  | None =>
      ts ← gets default_last_fetched;
      modify (set_tbl_Emoji (insert eid {| row_guild_id := gid; row_last_fetched := ts |}))
  end.

(** [Emoji.update_record(connection, record, last_fetched=...)]. *)
Definition Emoji_update_record (record : EmojiRecord) (last_fetched : Z) : M unit :=
  emit (EvEmojiUpdate (rec_emoji_id record) last_fetched);;
  modify (set_tbl_Emoji
            (alter (λ r, {| row_guild_id := row_guild_id r;
                            row_last_fetched := last_fetched |})
                   (rec_emoji_id record))).

(** The bindings left once those to emoji [eid] are gone. *)
Definition drop_bindings_to (eid : Z) (m : gmap Z Z) : gmap Z Z :=
  filter (λ kv, kv.2 ≠ eid) m.

(** Modelled from the spec: the declaration of table [UserEmoji] is not
    under src/.  The specification has the binding of an evicted emoji
    deleted with it (sections 3 and 4.1), and [delete_emoji] issues no
    delete on [UserEmoji]: the deletion is then the store's, column
    [UserEmoji.emoji_id] referencing [Emoji.emoji_id] with a cascading
    delete.  [cascade = true] is that store; [cascade = false] is a store
    whose [Emoji.delete_record(connection, record)] deletes the row of the
    record and nothing else. *)
Definition Emoji_delete_record (cascade : bool) (record : EmojiRecord) : M unit :=
  emit (EvEmojiDelete (rec_emoji_id record));;
  modify (set_tbl_Emoji (delete (rec_emoji_id record)));;
  if cascade
  then modify (set_tbl_UserEmoji (drop_bindings_to (rec_emoji_id record)))
  else mret tt.

(** [UserEmoji.fetch_row(connection, user_id=user.id)]. *)
Definition UserEmoji_fetch_row (uid : Z) : M (option UserEmojiRecord) :=
  emit (EvUserFetchRow uid);;
  gets (λ w, (λ e, {| urec_user_id := uid; urec_emoji_id := e |})
               <$> tbl_UserEmoji w !! uid).

(** [UserEmoji.insert(connection, emoji_id=..., user_id=...)]. *)
Definition UserEmoji_insert (eid uid : Z) : M unit :=
  emit (EvUserInsert uid eid);;
  old ← gets (λ w, tbl_UserEmoji w !! uid);
  match old with
  | Some _ => raise UniqueViolationError
  | None => modify (set_tbl_UserEmoji (insert uid eid))
  end.

(** [UserEmoji.delete_record(connection, record)]. *)
Definition UserEmoji_delete_record (record : UserEmojiRecord) : M unit :=
  emit (EvUserDelete (urec_user_id record));;
  modify (set_tbl_UserEmoji (delete (urec_user_id record))).

(** ** [random.sample(population, counts=counts, k=1)] *)

(** [itertools.accumulate(counts)]: the running sums. *)
Fixpoint accumulate_from (acc : Z) (counts : list Z) : list Z :=
  match counts with
  | [] => []
  | c :: counts' => (acc + c) :: accumulate_from (acc + c) counts'
  end.

Definition accumulate (counts : list Z) : list Z := accumulate_from 0 counts.

(** The loop of [bisect.bisect_right(a, x)]; it halves [hi - lo], so
    [length a] rounds are enough. *)
Fixpoint bisect_loop (fuel : nat) (a : list Z) (x : Z) (lo hi : nat) : nat :=
  match fuel with
  | O => lo
  | S fuel' =>
      if decide (lo < hi)%nat then
        let mid := ((lo + hi) `div` 2)%nat in
        match a !! mid with
        | Some a_mid =>
            if x <? a_mid then bisect_loop fuel' a x lo mid
            else bisect_loop fuel' a x (S mid) hi
        | None => lo
        end
      else lo
  end.

Definition bisect (a : list Z) (x : Z) : nat :=
  bisect_loop (length a) a x 0 (length a).

(** [cum_counts.pop()]: the last element and the list without it. *)
Definition pop (l : list Z) : option (Z * list Z) :=
  match reverse l with
  | [] => None
  | x :: rev_init => Some (x, reverse rev_init)
  end.

(** [random.sample(population, counts=counts, k=1)[0]], as
    [random.Random.sample] computes it: the counts are summed up, a total
    that is not positive is refused, one selection is drawn below the total
    and the element is found by bisection in the running sums. *)
Definition random_sample_1 (population : list Guild) (counts : list Z) : M Guild :=
  let cum_counts := accumulate counts in
  if decide (length cum_counts ≠ length population) then raise ValueError_sample
  else
    match pop cum_counts with
    | None => raise IndexError_list
    | Some (total, cum_counts) =>
        if decide (total ≤ 0) then raise ValueError_sample
        else
          r ← draw;
          let selection := Z.of_nat r `mod` total in
          match population !! bisect cum_counts selection with
          | Some g => mret g
          | None => raise IndexError_list
          end
    end.

(** ** A [dict] in insertion order *)

Fixpoint dict_set (d : list (Guild * Z)) (g : Guild) (v : Z) : list (Guild * Z) :=
  match d with
  | [] => [(g, v)]
  | (g', v') :: d' =>
      if decide (g' = g) then (g', v) :: d' else (g', v') :: dict_set d' g v
  end.

(** ** [create_user_image] and the emoji name *)

(** The code points that [[A-Za-z0-9_]] matches. *)
Definition is_name_char (c : N) : bool :=
  ((65 <=? c) && (c <=? 90) || (97 <=? c) && (c <=? 122)
   || (48 <=? c) && (c <=? 57) || (c =? 95))%N.

(** [re.sub(r"[^A-Za-z0-9_]", "", s)]: the code points that the pattern
    does not match are kept, in order. *)
Fixpoint keep_name_chars (s : list N) : list N :=
  match s with
  | [] => []
  | c :: s' => if is_name_char c then c :: keep_name_chars s' else keep_name_chars s'
  end.

(** The text of code points below 256, which those that [keep_name_chars]
    keeps are. *)
Definition text_of (s : list N) : string :=
  String.string_of_list_ascii (Ascii.ascii_of_N <$> s).

(** The code points of a text without a byte above 127. *)
Definition codepoints (s : string) : list N :=
  Ascii.N_of_ascii <$> String.list_ascii_of_string s.

(** [re.sub(r"[^A-Za-z0-9_]", "", user.name[:28]) + str(user.discriminator)] *)
Definition user_emoji_name (user : User) : string :=
  (text_of (keep_name_chars (take 28 (user_name user))) +:+ user_discriminator user)%string.

(** [create_user_image(user)]: the avatar is downloaded and masked. *)
Definition create_user_image (user : User) : M Image :=
  emit (EvDownloadAvatar (user_id user));;
  mret (AvatarOf (user_id user)).

(** ** [EmojiCacheMixin] *)

Section EmojiCacheMixin.

(** [CONFIG.EMOJI.GUILDS], [CONFIG.EMOJI.LEAVE_FREE] and
    [CONFIG.EMOJI.NOT_FOUND]; [cascade] is the store's, see
    [Emoji_delete_record]. *)
Variable GUILDS : list Guild.
Variable LEAVE_FREE : Z.
Variable NOT_FOUND : discord_Emoji.
Variable cascade : bool.

(** [guild.emoji_limit - sum(not e.animated for e in guild.emojis)] *)
Definition total_free (w : World) (guild : Guild) : Z :=
  emoji_limit guild - still_count (guild_emojis w guild).

(** The body of the loop over [CONFIG.EMOJI.GUILDS]. *)
Definition free_spaces_step (w : World) (free_spaces : list (Guild * Z))
    (guild : Guild) : list (Guild * Z) :=
  let total_free := total_free w guild in
  if LEAVE_FREE <? total_free
  then dict_set free_spaces guild total_free
  else free_spaces.

(** The loop itself, which fills [free_spaces]. *)
Definition free_spaces_from (w : World) (guilds : list Guild) : list (Guild * Z) :=
  foldl (free_spaces_step w) [] guilds.

Definition free_spaces (w : World) : list (Guild * Z) := free_spaces_from w GUILDS.

Definition delete_emoji (emoji_id : Z) : M unit :=
  record ← Emoji_fetch_row emoji_id;
  match record with
  | None => raise (ValueError_not_in_cache emoji_id)
  | Some record =>
      emoji ← get_emoji emoji_id;
      match emoji with
      | Some emoji => emoji_delete emoji
      | None => mret tt
      end;;
      Emoji_delete_record cascade record
  end.

(** What [_find_guild] does with the record it has read, from the test of
    the record to the end of the method; [retry] is the call
    [self._find_guild(connection=connection)] at its end.  The method waits
    for the store between the read and this, which is where another caller
    can come in. *)
Definition _find_guild_evict (retry : M Guild) (record : option EmojiRecord) : M Guild :=
  match record with
  | None => raise RuntimeError_empty_and_full
  | Some record =>
      delete_emoji (rec_emoji_id record);;
      retry
  end.

(** One run of the body of [_find_guild]. *)
Definition _find_guild_body (retry : M Guild) : M Guild :=
  free_spaces ← gets free_spaces;
  match free_spaces with
  | _ :: _ => random_sample_1 free_spaces.*1 free_spaces.*2
  | [] =>
      record ← Emoji_fetch_row_oldest;
      _find_guild_evict retry record
  end.

(** [_find_guild] under an interpreter that lets the method call itself
    [limit] times, one call inside the other, and refuses the next call
    with [RecursionError].  The calls that the method makes of the store, of
    the platform and of [random] are taken to fit in the depth that a call
    of the method is allowed, so that it is the retry that is refused. *)
Fixpoint _find_guild_rec (limit : nat) : M Guild :=
  _find_guild_body
    (match limit with
     | O => raise RecursionError
     | S limit' => _find_guild_rec limit'
     end).

(** [_find_guild] when the interpreter's limit is out of reach.  A retry
    follows the deletion of a row of [Emoji], so there are no more retries
    than rows, and any limit that is at least the number of rows gives this
    same run: see [find_guild_rec_enough].  With fewer nested calls allowed
    than there are rows, the run is that of [_find_guild_rec]. *)
Definition _find_guild : M Guild :=
  λ w, _find_guild_rec (size (tbl_Emoji w)) w.

Definition create_emoji (name : string) (image : Image) : M discord_Emoji :=
  guild ← _find_guild;
  emoji ← create_custom_emoji guild name image;
  Emoji_insert (emoji_id emoji) (guild_id guild);;
  mret emoji.

Definition create_user_emoji (user : User) : M discord_Emoji :=
  let name := user_emoji_name user in
  image ← create_user_image user;
  emoji ← create_emoji name image;
  UserEmoji_insert (emoji_id emoji) (user_id user);;
  mret emoji.

Definition fetch_emoji (emoji_id : option Z) : M discord_Emoji :=
  match emoji_id with
  | None => mret NOT_FOUND
  | Some emoji_id =>
      record ← Emoji_fetch_row emoji_id;
      match record with
      | None => raise (ValueError_not_in_cache emoji_id)
      | Some record =>
          ts ← now;
          Emoji_update_record record ts;;
          emoji ← get_emoji emoji_id;
          match emoji with
          | None =>
              Emoji_delete_record cascade record;;
              raise RuntimeError_deleted
          | Some emoji => mret emoji
          end
      end
  end.

Definition fetch_user_emoji (user : option User) : M discord_Emoji :=
  match user with
  | None => fetch_emoji None
  | Some user =>
      record ← UserEmoji_fetch_row (user_id user);
      match record with
      | Some record =>
          try_except_RuntimeError
            (fetch_emoji (Some (urec_emoji_id record)))
            (UserEmoji_delete_record record;;
             create_user_emoji user)
      | None => create_user_emoji user
      end
  end.

End EmojiCacheMixin.

(** ** Reading a run *)

(** The world a computation leaves and what it returns or raises. *)
Definition exec {A} (c : M A) (w : World) : World := (c w).1.
Definition outcome {A} (c : M A) (w : World) : Result A := (c w).2.

(** The emoji whose rows a piece of trace deletes, in order. *)
Definition evicted_ids (t : list Event) : list Z :=
  omap (λ e, match e with EvEmojiDelete eid => Some eid | _ => None end) t.

(** The world in which [_find_guild] retries after it evicted [eid]. *)
Definition evicted (cascade : bool) (eid : Z) (w : World) : World :=
  exec (delete_emoji cascade eid) (log EvEmojiFetchOldest w).

(** What [delete_emoji] asks of the platform: the deletion of the emoji when
    the client still knows it, nothing otherwise. *)
Definition platform_deletion (w : World) (eid : Z) : list Event :=
  match discord_emojis w !! eid with
  | Some _ => [EvDiscordDelete eid]
  | None => []
  end.

(** Row [r] is among the least recently fetched of the table. *)
Definition is_oldest (m : gmap Z EmojiRow) (r : EmojiRecord) : Prop :=
  m !! rec_emoji_id r
    = Some {| row_guild_id := rec_guild_id r; row_last_fetched := rec_last_fetched r |}
  ∧ ∀ eid row, m !! eid = Some row → rec_last_fetched r ≤ row_last_fetched row.

(** No guild of the pool has more than [LEAVE_FREE] free slots. *)
Definition pool_exhausted (GUILDS : list Guild) (LEAVE_FREE : Z) (w : World) : Prop :=
  ∀ g, g ∈ GUILDS → total_free w g ≤ LEAVE_FREE.

(** What [random.sample] refuses: some guild has more than [LEAVE_FREE] free
    slots, and the free slots of these guilds add up to nothing. *)
Definition sample_refused (GUILDS : list Guild) (LEAVE_FREE : Z) (w : World) : Prop :=
  free_spaces GUILDS LEAVE_FREE w ≠ []
  ∧ foldr Z.add 0 (free_spaces GUILDS LEAVE_FREE w).*2 ≤ 0.

(** The sum of the first [k] counts. *)
Definition prefix_sum (counts : list Z) (k : nat) : Z := foldr Z.add 0 (take k counts).

(** How a run of [_find_guild] from [w] ended in [w'] with [res], having
    appended [t] to the trace, when the limit of the interpreter was not
    reached. *)
Definition find_guild_post (GUILDS : list Guild) (LEAVE_FREE : Z)
    (w : World) (t : list Event) (w' : World) (res : Result Guild) : Prop :=
  trace w' = trace w ++ t
  ∧ (size (tbl_Emoji w') + length (evicted_ids t))%nat = size (tbl_Emoji w)
  ∧ ((∃ g, res = Ok g ∧ g ∈ GUILDS ∧ LEAVE_FREE < total_free w' g
           ∧ 0 < total_free w' g)
     ∨ (res = Raise RuntimeError_empty_and_full
        ∧ pool_exhausted GUILDS LEAVE_FREE w
        ∧ pool_exhausted GUILDS LEAVE_FREE w'
        ∧ tbl_Emoji w' = ∅)
     ∨ (res = Raise ValueError_sample ∧ LEAVE_FREE < 0
        ∧ sample_refused GUILDS LEAVE_FREE w')).

(** The same for a run that may reach the limit: [limit] nested calls were
    made, each after an eviction, and the call that the next eviction is
    followed by was refused. *)
Definition find_guild_post_limit (GUILDS : list Guild) (LEAVE_FREE : Z) (limit : nat)
    (w : World) (t : list Event) (w' : World) (res : Result Guild) : Prop :=
  find_guild_post GUILDS LEAVE_FREE w t w' res
  ∨ (trace w' = trace w ++ t
     ∧ res = Raise RecursionError
     ∧ pool_exhausted GUILDS LEAVE_FREE w
     ∧ length (evicted_ids t) = S limit
     ∧ (size (tbl_Emoji w') + S limit)%nat = size (tbl_Emoji w)).

(** ** [ditto/utils/strings.py]: the layout in columns *)

(** What [_items_in_col] and [_transpose] can raise. *)
Inductive LayoutError :=
| ZeroDivisionError
| IndexError
| ValueError_unpack.

(** [_items_in_col(n_items, cols)]; a tuple repeated a negative number of
    times is empty. *)
Definition _items_in_col (n_items cols : Z) : LayoutError + list Z :=
  if decide (cols = 0) then inl ZeroDivisionError
  else
    let at_least_per_col := Z.div n_items cols in
    let num_filled_in_last := Z.modulo n_items cols in
    inr (replicate (Z.to_nat num_filled_in_last) (at_least_per_col + 1)
         ++ replicate (Z.to_nat (cols - num_filled_in_last)) at_least_per_col).

(** [items[i]], a negative [i] counting from the end. *)
Definition getitem {T} (items : list T) (i : Z) : option T :=
  if decide (0 ≤ i) then items !! Z.to_nat i
  else if decide (0 ≤ Z.of_nat (length items) + i)
       then items !! Z.to_nat (Z.of_nat (length items) + i)
       else None.

(** The loop of [_transpose] over [zip(range(len(items)), to_skip)]: [todo]
    rounds are left, [j] values of [cycle(per_col)] have been taken and [i]
    is the index to read. *)
Fixpoint _transpose_loop {T} (items : list T) (per_col : list Z)
    (todo j : nat) (i : Z) : LayoutError + list T :=
  match todo with
  | O => inr []
  | S todo' =>
      match per_col !! (j `mod` length per_col)%nat with
      | None => inr []
      | Some ts =>
          match getitem items i with
          | None => inl IndexError
          | Some item =>
              match _transpose_loop items per_col todo' (S j)
                      (Z.modulo (i + ts) (Z.of_nat (length items))) with
              | inl e => inl e
              | inr result => inr (item :: result)
              end
          end
      end
  end.

(** [_transpose(items, columns)].  [*per_col, _ = ...] needs one value at
    least, and [per_col[0]] one more. *)
Definition _transpose {T} (items : list T) (columns : Z) : LayoutError + list T :=
  match _items_in_col (Z.of_nat (length items)) columns with
  | inl e => inl e
  | inr in_col =>
      match reverse in_col with
      | [] => inl ValueError_unpack
      | _ :: rev_per_col =>
          let per_col := reverse rev_per_col in
          match per_col with
          | [] => inl IndexError
          | first :: _ =>
              let per_col := per_col ++ [first] in
              _transpose_loop items per_col (length items) 0 0
          end
      end
  end.

(** The layout that [_transpose] is after: [n] items fill [c] columns one
    after the other, top to bottom, the first [n mod c] columns taking one
    item more than the others.  [column_size] is the height of column [j],
    [column_start] the index of its first item, and [cell] the index of the
    item found at place [k] when the columns are read row by row. *)
Definition column_size (n c j : Z) : Z :=
  Z.div n c + (if decide (j < Z.modulo n c) then 1 else 0).

Definition column_start (n c j : Z) : Z := j * Z.div n c + Z.min j (Z.modulo n c).

Definition cell (n c k : Z) : Z := column_start n c (Z.modulo k c) + Z.div k c.

(** The value that [to_skip] yields at round [j] of the loop. *)
Definition to_skip (n c j : Z) : Z :=
  if decide (j < c - 1) then column_size n c j else column_size n c 0.

(** Every row of [Emoji] is that of an emoji the platform has. *)
Definition rows_live (w : World) : Prop :=
  ∀ eid, is_Some (tbl_Emoji w !! eid) → is_Some (discord_emojis w !! eid).

(** A computation that keeps [rows_live], however it ends. *)
Definition keeps_rows_live {A} (c : M A) : Prop :=
  ∀ w, rows_live w → rows_live (exec c w).

(** ** Scenarios

    One guild with room for five emoji, two of which [LEAVE_FREE = 2]
    keeps in reserve. *)

Definition guild_A : Guild := {| guild_id := 1; emoji_limit := 5 |}.

(** A second guild, with room for four. *)
Definition guild_B : Guild := {| guild_id := 2; emoji_limit := 4 |}.

Definition not_found : discord_Emoji :=
  {| emoji_id := 0; emoji_name := "not_found"; emoji_guild_id := 9;
     emoji_animated := false |}.

Definition still (gid : Z) : EmojiInfo :=
  {| info_name := "e"; info_guild_id := gid; info_animated := false |}.

Definition row (gid ts : Z) : EmojiRow :=
  {| row_guild_id := gid; row_last_fetched := ts |}.

Definition alice : User :=
  {| user_id := 7; user_name := codepoints "Al ice!"; user_discriminator := "0001" |}.

Definition bob : User :=
  {| user_id := 9; user_name := codepoints "Bob_the-2nd, esquire of somewhere far away";
     user_discriminator := "4821" |}.

(** A name of 27 letters e with an acute accent, code point 233, followed
    by [ab]. *)
Definition renee : User :=
  {| user_id := 11; user_name := replicate 27 233%N ++ codepoints "ab";
     user_discriminator := "0007" |}.

(** A store that gives a new row the time of its insertion, here 50. *)
Definition world_of (emojis : gmap Z EmojiInfo) (rows : gmap Z EmojiRow)
    (bindings : gmap Z Z) : World :=
  {| discord_emojis := emojis; next_snowflake := 100; tbl_Emoji := rows;
     tbl_UserEmoji := bindings; default_last_fetched := 50; clock := 50;
     entropy := []; trace := [] |}.

(** Three emoji in the guild, none of them cached; the only row is that of
    emoji 99, which the platform no longer has. *)
Definition w_stale : World :=
  world_of {[ 10 := still 1; 11 := still 1; 12 := still 1 ]}
           {[ 99 := row 1 5 ]} ∅.

(** As [w_stale], with a second row, that of emoji 98, which the platform
    no longer has either. *)
Definition w_two_stale : World :=
  world_of {[ 10 := still 1; 11 := still 1; 12 := still 1 ]}
           {[ 98 := row 1 5; 99 := row 1 6 ]} ∅.

(** As [w_stale], with emoji 10 cached after emoji 99. *)
Definition w_stale_then_live : World :=
  world_of {[ 10 := still 1; 11 := still 1; 12 := still 1 ]}
           {[ 99 := row 1 5; 10 := row 1 7 ]} {[ 7 := 10 ]}.

(** Three cached emoji in the guild, emoji 10 the oldest and bound to user 7. *)
Definition w_full : World :=
  world_of {[ 10 := still 1; 11 := still 1; 12 := still 1 ]}
           {[ 10 := row 1 7; 11 := row 1 8; 12 := row 1 9 ]} {[ 7 := 10; 8 := 11 ]}.

(** Two emoji in the guild: three free slots. *)
Definition w_room : World :=
  world_of {[ 10 := still 1; 11 := still 1 ]}
           {[ 10 := row 1 7; 11 := row 1 8 ]} {[ 7 := 10 ]}.

(** Emoji 10 is cached and bound to user 7, but gone from the platform. *)
Definition w_desynced : World :=
  world_of {[ 11 := still 1 ]}
           {[ 10 := row 1 7; 11 := row 1 8 ]} {[ 7 := 10 ]}.

#[local] Arguments Nat.modulo : simpl never.

Ltac run :=
  cbv [mbind M_bind bind mret M_ret ret gets modify emit raise now draw
       get_emoji emoji_delete create_custom_emoji create_user_image
       Emoji_fetch_row Emoji_fetch_row_oldest Emoji_update_record
       Emoji_delete_record Emoji_insert
       UserEmoji_fetch_row UserEmoji_insert UserEmoji_delete_record
       try_except_RuntimeError exec outcome];
  simpl.

(** ** The oldest row *)

Lemma first_oldest_None (l : list EmojiRecord) :
  first_oldest l = None → l = [].
Proof.
  destruct l as [|r l]; [done|]. simpl.
  destruct (first_oldest l) as [r'|]; [|done].
  by destruct (rec_last_fetched r' <? rec_last_fetched r).
Qed.

Lemma first_oldest_elem (l : list EmojiRecord) (r : EmojiRecord) :
  first_oldest l = Some r → r ∈ l.
Proof.
  revert r. induction l as [|a l IH]; intros r; simpl; [done|].
  destruct (first_oldest l) as [r'|].
  - destruct (rec_last_fetched r' <? rec_last_fetched a); intros [= <-].
    + right. by apply IH.
    + left.
  - intros [= <-]. left.
Qed.

Lemma first_oldest_least (l : list EmojiRecord) (r : EmojiRecord) :
  first_oldest l = Some r →
  ∀ r', r' ∈ l → rec_last_fetched r ≤ rec_last_fetched r'.
Proof.
  revert r. induction l as [|a l IH]; intros r; simpl; [intros _ r' Hr'; inversion Hr'|].
  destruct (first_oldest l) as [r0|] eqn:E.
  - destruct (Z.ltb_spec (rec_last_fetched r0) (rec_last_fetched a)) as [Hlt|Hge];
      intros [= <-] r' Hr'; apply elem_of_cons in Hr' as [->|Hr'].
    + lia.
    + by apply IH.
    + lia.
    + specialize (IH r0 eq_refl r' Hr'). lia.
  - apply first_oldest_None in E as ->.
    intros [= <-] r' Hr'. apply elem_of_cons in Hr' as [->|Hr']; [lia|inversion Hr'].
Qed.

Lemma elem_of_Emoji_records (m : gmap Z EmojiRow) (r : EmojiRecord) :
  r ∈ Emoji_records m ↔
  m !! rec_emoji_id r
    = Some {| row_guild_id := rec_guild_id r; row_last_fetched := rec_last_fetched r |}.
Proof.
  unfold Emoji_records. rewrite list_elem_of_fmap. split.
  - intros ([k row] & -> & Hin). apply elem_of_map_to_list in Hin.
    simpl. rewrite Hin. by destruct row.
  - intros H. exists (rec_emoji_id r, {| row_guild_id := rec_guild_id r;
                                          row_last_fetched := rec_last_fetched r |}).
    split; [by destruct r|]. by apply elem_of_map_to_list.
Qed.

Lemma Emoji_records_nil (m : gmap Z EmojiRow) :
  Emoji_records m = [] → m = ∅.
Proof.
  unfold Emoji_records. intros H. apply fmap_nil_inv in H.
  by apply map_to_list_empty_iff.
Qed.

Lemma first_oldest_is_oldest (m : gmap Z EmojiRow) (r : EmojiRecord) :
  first_oldest (Emoji_records m) = Some r → is_oldest m r.
Proof.
  intros H. split.
  - apply elem_of_Emoji_records. by apply first_oldest_elem.
  - intros eid row Hrow.
    apply (first_oldest_least _ _ H (to_EmojiRecord eid row)).
    apply elem_of_Emoji_records. simpl. rewrite Hrow. by destruct row.
Qed.

Lemma first_oldest_empty (m : gmap Z EmojiRow) :
  first_oldest (Emoji_records m) = None → m = ∅.
Proof. intros H. by apply Emoji_records_nil, first_oldest_None. Qed.

(** ** [free_spaces] *)

Lemma elem_of_dict_set (d : list (Guild * Z)) (g g' : Guild) (v v' : Z) :
  (g', v') ∈ dict_set d g v → (g', v') ∈ d ∨ (g' = g ∧ v' = v).
Proof.
  induction d as [|[g0 v0] d IH]; simpl.
  - intros H. apply list_elem_of_singleton in H as [= -> ->]. by right.
  - destruct (decide (g0 = g)) as [->|Hne]; intros H;
      apply elem_of_cons in H as [H|H].
    + injection H as -> ->. by right.
    + left. by right.
    + left. rewrite H. left.
    + destruct (IH H) as [?|?]; [left; by right|by right].
Qed.

Lemma dict_set_not_nil (d : list (Guild * Z)) (g : Guild) (v : Z) :
  dict_set d g v ≠ [].
Proof.
  destruct d as [|[g0 v0] d]; simpl; [done|]. by destruct (decide (g0 = g)).
Qed.

Section free_spaces_facts.
Variable GUILDS : list Guild.
Variable LEAVE_FREE : Z.

Abbreviation step := (free_spaces_step LEAVE_FREE).

Lemma foldl_free_spaces_elem (w : World) (gs : list Guild) (d : list (Guild * Z)) g c :
  (g, c) ∈ foldl (step w) d gs →
  (g, c) ∈ d ∨ (g ∈ gs ∧ c = total_free w g ∧ LEAVE_FREE < c).
Proof.
  revert d. induction gs as [|a gs IH]; intros d; simpl; [by left|].
  intros H. destruct (IH _ H) as [Hd|(Hin & Hc & Hlt)].
  - unfold free_spaces_step in Hd. destruct (Z.ltb_spec LEAVE_FREE (total_free w a)).
    + apply elem_of_dict_set in Hd as [?|[-> ->]]; [by left|].
      right. split; [left|done].
    + by left.
  - right. split; [by right|done].
Qed.

Lemma foldl_free_spaces_nil (w : World) (gs : list Guild) (d : list (Guild * Z)) :
  foldl (step w) d gs = [] →
  d = [] ∧ ∀ g, g ∈ gs → total_free w g ≤ LEAVE_FREE.
Proof.
  revert d. induction gs as [|a gs IH]; intros d; simpl.
  - intros ->. split; [done|]. intros g Hg. inversion Hg.
  - intros H. destruct (IH _ H) as [Hd Hall]. unfold free_spaces_step in Hd.
    destruct (Z.ltb_spec LEAVE_FREE (total_free w a)).
    + by apply dict_set_not_nil in Hd.
    + split; [done|]. intros g Hg. apply elem_of_cons in Hg as [->|Hg]; auto.
Qed.

Lemma foldl_free_spaces_exhausted (w : World) (gs : list Guild) :
  (∀ g, g ∈ gs → total_free w g ≤ LEAVE_FREE) → foldl (step w) [] gs = [].
Proof.
  induction gs as [|a gs IH]; intros Hall; simpl; [done|].
  unfold free_spaces_step at 2. destruct (Z.ltb_spec LEAVE_FREE (total_free w a)) as [Hlt|_].
  - specialize (Hall a ltac:(left)). lia.
  - apply IH. intros g Hg. apply Hall. by right.
Qed.

(** An entry of [free_spaces] is a guild of the pool with its free slots,
    more than [LEAVE_FREE] of them. *)
Lemma free_spaces_elem (w : World) g c :
  (g, c) ∈ free_spaces GUILDS LEAVE_FREE w →
  g ∈ GUILDS ∧ c = total_free w g ∧ LEAVE_FREE < c.
Proof.
  intros H. apply foldl_free_spaces_elem in H as [H|H]; [inversion H|done].
Qed.

(** [free_spaces] is empty exactly when the pool is exhausted. *)
Lemma free_spaces_nil (w : World) :
  free_spaces GUILDS LEAVE_FREE w = [] ↔ pool_exhausted GUILDS LEAVE_FREE w.
Proof.
  split.
  - intros H. by apply foldl_free_spaces_nil in H as [_ H].
  - apply foldl_free_spaces_exhausted.
Qed.

(** [free_spaces] reads the platform's emoji cache and nothing else. *)
Lemma free_spaces_ext (w w' : World) :
  discord_emojis w = discord_emojis w' →
  free_spaces GUILDS LEAVE_FREE w = free_spaces GUILDS LEAVE_FREE w'.
Proof.
  intros H. unfold free_spaces, free_spaces_from, free_spaces_step, total_free, guild_emojis.
  by rewrite H.
Qed.

End free_spaces_facts.

(** ** The sample *)

#[local] Arguments Nat.div : simpl never.

(** Where the bisection ends: the value before is at most [x], the value
    there is above [x].  The list need not be sorted for this. *)
Lemma bisect_loop_spec (fuel : nat) (a : list Z) (x : Z) (lo hi : nat) :
  (lo ≤ hi ≤ length a)%nat → (hi - lo ≤ fuel)%nat →
  (lo = 0%nat ∨ ∃ v, a !! pred lo = Some v ∧ v ≤ x) →
  (hi = length a ∨ ∃ v, a !! hi = Some v ∧ x < v) →
  let i := bisect_loop fuel a x lo hi in
  (i ≤ length a)%nat
  ∧ (i = 0%nat ∨ ∃ v, a !! pred i = Some v ∧ v ≤ x)
  ∧ (i = length a ∨ ∃ v, a !! i = Some v ∧ x < v).
Proof.
  revert lo hi. induction fuel as [|fuel IH]; intros lo hi Hb Hf Hlo Hhi; simpl.
  - assert (lo = hi) as -> by lia. split; [lia|done].
  - destruct (decide (lo < hi)%nat) as [Hlt|Hge].
    2:{ assert (lo = hi) as -> by lia. split; [lia|done]. }
    assert (Hmid : (lo ≤ (lo + hi) `div` 2 < hi)%nat).
    { split; [apply Nat.div_le_lower_bound; lia|apply Nat.Div0.div_lt_upper_bound; lia]. }
    destruct (lookup_lt_is_Some_2 a ((lo + hi) `div` 2)%nat) as [v Hv]; [lia|].
    rewrite Hv. destruct (Z.ltb_spec x v).
    + apply IH; [lia|lia|done|]. right. by exists v.
    + apply IH; [lia|lia| |done]. right. by exists v.
Qed.

Lemma bisect_spec (a : list Z) (x : Z) :
  let i := bisect a x in
  (i ≤ length a)%nat
  ∧ (i = 0%nat ∨ ∃ v, a !! pred i = Some v ∧ v ≤ x)
  ∧ (i = length a ∨ ∃ v, a !! i = Some v ∧ x < v).
Proof. apply bisect_loop_spec; [lia|lia|by left|by left]. Qed.

Lemma accumulate_from_length (acc : Z) (counts : list Z) :
  length (accumulate_from acc counts) = length counts.
Proof. revert acc. induction counts as [|c l IH]; intros acc; simpl; [done|]. by rewrite IH. Qed.

Lemma prefix_sum_S (counts : list Z) (k : nat) (c : Z) :
  counts !! k = Some c → prefix_sum counts (S k) = prefix_sum counts k + c.
Proof.
  intros H. unfold prefix_sum. rewrite (take_S_r _ _ _ H).
  generalize (take k counts). intros l. induction l as [|a l IH]; simpl; lia.
Qed.

Lemma prefix_sum_all (counts : list Z) (k : nat) :
  (length counts ≤ k)%nat → prefix_sum counts k = foldr Z.add 0 counts.
Proof. intros H. unfold prefix_sum. by rewrite take_ge. Qed.

Lemma accumulate_from_lookup (acc : Z) (counts : list Z) (k : nat) :
  (k < length counts)%nat →
  accumulate_from acc counts !! k = Some (acc + prefix_sum counts (S k)).
Proof.
  revert acc k. induction counts as [|c l IH]; intros acc k Hk; simpl in *; [lia|].
  destruct k as [|k]; simpl.
  - unfold prefix_sum. simpl. f_equal. lia.
  - rewrite IH by lia. unfold prefix_sum. simpl. f_equal. lia.
Qed.

Lemma pop_snoc (init : list Z) (x : Z) : pop (init ++ [x]) = Some (x, init).
Proof. unfold pop. by rewrite reverse_snoc, reverse_involutive. Qed.

(** The running sums of counts, once the total is popped. *)
Lemma pop_accumulate (counts : list Z) :
  counts ≠ [] →
  ∃ cum_counts,
    pop (accumulate counts) = Some (foldr Z.add 0 counts, cum_counts)
    ∧ S (length cum_counts) = length counts
    ∧ ∀ k, (k < length cum_counts)%nat →
           cum_counts !! k = Some (prefix_sum counts (S k)).
Proof.
  intros Hne.
  assert (Hlen : length (accumulate counts) = length counts)
    by apply accumulate_from_length.
  assert (Hlook : ∀ k, (k < length counts)%nat →
                       accumulate counts !! k = Some (prefix_sum counts (S k))).
  { intros k Hk. unfold accumulate. by rewrite accumulate_from_lookup. }
  destruct (accumulate counts) as [|x init] using rev_ind.
  { by destruct counts. }
  clear IHinit. rewrite length_app in Hlen. simpl in Hlen.
  exists init. rewrite pop_snoc. split; [|split; [lia|]].
  - specialize (Hlook (length init) ltac:(lia)).
    rewrite lookup_app_r, Nat.sub_diag in Hlook by lia. simpl in Hlook.
    injection Hlook as ->. f_equal. f_equal. apply prefix_sum_all. lia.
  - intros k Hk. rewrite <- Hlook by lia. by rewrite lookup_app_l.
Qed.

(** The run of the sample on the keys and values of a dictionary that is
    not empty.  A total that is not positive is refused.  Otherwise the
    selection [s] is the draw reduced below the total, and the guild
    returned is one in whose share of the total, which starts at the sum of
    the counts before it and is as long as its count, the selection falls. *)
Lemma random_sample_1_run (d : list (Guild * Z)) (w : World) :
  d ≠ [] →
  let total := foldr Z.add 0 d.*2 in
  (total ≤ 0 → random_sample_1 d.*1 d.*2 w = (w, Raise ValueError_sample))
  ∧ (0 < total →
     ∃ i g c,
       d !! i = Some (g, c)
       ∧ prefix_sum d.*2 i ≤ Z.of_nat (hd 0%nat (entropy w)) `mod` total
         < prefix_sum d.*2 i + c
       ∧ random_sample_1 d.*1 d.*2 w = (set_entropy (tail (entropy w)) w, Ok g)).
Proof.
  intros Hne total.
  assert (Hcounts : d.*2 ≠ []) by (by destruct d).
  destruct (pop_accumulate d.*2 Hcounts) as (cum & Hpop & Hlen & Hcum).
  fold total in Hpop. rewrite length_fmap in Hlen.
  assert (Hsame : length (accumulate d.*2) = length d.*1).
  { unfold accumulate. by rewrite accumulate_from_length, !length_fmap. }
  unfold random_sample_1. rewrite decide_False by (by intros ?).
  rewrite Hpop. split.
  - intros Hle. by rewrite decide_True.
  - intros Hpos. rewrite decide_False by lia.
    set (s := Z.of_nat (hd 0%nat (entropy w)) `mod` total).
    pose proof (Z.mod_pos_bound (Z.of_nat (hd 0%nat (entropy w))) total Hpos) as Hs.
    fold s in Hs.
    destruct (bisect_spec cum s) as (Hi & Hlo & Hhi).
    set (i := bisect cum s) in *.
    destruct (lookup_lt_is_Some_2 d i) as [[g c] Hgc]; [lia|].
    assert (Hc : d.*2 !! i = Some c) by (by rewrite list_lookup_fmap, Hgc).
    assert (Hg : d.*1 !! i = Some g) by (by rewrite list_lookup_fmap, Hgc).
    exists i, g, c. split; [done|]. split.
    + rewrite <- (prefix_sum_S _ _ _ Hc). split.
      * destruct Hlo as [->|(v & Hv & Hle)]; [unfold prefix_sum; simpl; lia|].
        destruct i as [|i]; [unfold prefix_sum; simpl; lia|]. simpl in Hv.
        rewrite Hcum in Hv by lia. by injection Hv as <-.
      * destruct Hhi as [Hlast|(v & Hv & Hlt)].
        -- rewrite prefix_sum_all by (rewrite length_fmap; lia). apply Hs.
        -- rewrite Hcum in Hv by (by eapply lookup_lt_Some). by injection Hv as <-.
    + run. fold s. fold i. by rewrite Hg.
Qed.

Lemma sum_not_positive (l : list Z) :
  l ≠ [] → foldr Z.add 0 l ≤ 0 → ∃ c, c ∈ l ∧ c ≤ 0.
Proof.
  induction l as [|a l IH]; [done|]. intros _ Hsum. simpl in Hsum.
  destruct (decide (a ≤ 0)) as [Ha|Ha]; [exists a; split; [left|done]|].
  destruct l as [|b l]; [simpl in Hsum; lia|].
  destruct IH as (c & Hc & Hle); [done|lia|]. exists c. split; [by right|done].
Qed.

(** The sample draws once, touches nothing else, and returns a member of
    the population whose count is positive; it raises when the counts add up
    to nothing. *)
Lemma random_sample_1_spec (d : list (Guild * Z)) (w : World) :
  d ≠ [] →
  let w' := exec (random_sample_1 d.*1 d.*2) w in
  discord_emojis w' = discord_emojis w ∧ tbl_Emoji w' = tbl_Emoji w
  ∧ tbl_UserEmoji w' = tbl_UserEmoji w ∧ trace w' = trace w
  ∧ ((∃ g c, outcome (random_sample_1 d.*1 d.*2) w = Ok g ∧ (g, c) ∈ d ∧ 0 < c)
     ∨ (outcome (random_sample_1 d.*1 d.*2) w = Raise ValueError_sample
        ∧ foldr Z.add 0 d.*2 ≤ 0)).
Proof.
  intros Hne. destruct (random_sample_1_run d w Hne) as [Hrefused Hdrawn].
  unfold exec, outcome.
  destruct (decide (foldr Z.add 0 d.*2 ≤ 0)) as [Hle|Hpos].
  - rewrite (Hrefused Hle). repeat split; try done. by right.
  - destruct (Hdrawn ltac:(lia)) as (i & g & c & Hgc & Hs & ->).
    repeat split; try done. left. exists g, c. split; [done|].
    split; [by eapply list_elem_of_lookup_2|lia].
Qed.

(** ** [delete_emoji] *)

Lemma delete_emoji_hit (cascade : bool) (eid : Z) (w : World) (row : EmojiRow) :
  tbl_Emoji w !! eid = Some row →
  let w' := exec (delete_emoji cascade eid) w in
  outcome (delete_emoji cascade eid) w = Ok tt
  ∧ discord_emojis w' = delete eid (discord_emojis w)
  ∧ tbl_Emoji w' = delete eid (tbl_Emoji w)
  ∧ tbl_UserEmoji w'
    = (if cascade then drop_bindings_to eid (tbl_UserEmoji w) else tbl_UserEmoji w)
  ∧ trace w'
    = trace w ++ [EvEmojiFetchRow eid; EvGetEmoji eid]
        ++ platform_deletion w eid ++ [EvEmojiDelete eid].
Proof.
  intros H. unfold delete_emoji, platform_deletion. run. rewrite H. simpl.
  destruct (discord_emojis w !! eid) eqn:E; simpl; destruct cascade; simpl;
    rewrite <- ?app_assoc; simpl; repeat split; try done;
    symmetry; by apply delete_id.
Qed.

Lemma delete_emoji_miss (cascade : bool) (eid : Z) (w : World) :
  tbl_Emoji w !! eid = None →
  delete_emoji cascade eid w
  = (log (EvEmojiFetchRow eid) w, Raise (ValueError_not_in_cache eid)).
Proof. intros H. unfold delete_emoji. run. by rewrite H. Qed.

(** ** One step of [_find_guild] *)

Section find_guild_facts.
Variable GUILDS : list Guild.
Variable LEAVE_FREE : Z.
Variable cascade : bool.

Abbreviation free_spaces := (free_spaces GUILDS LEAVE_FREE).
Abbreviation find_guild_rec := (_find_guild_rec GUILDS LEAVE_FREE cascade).

Lemma find_guild_rec_unfold (fuel : nat) :
  find_guild_rec fuel
  = _find_guild_body GUILDS LEAVE_FREE cascade
      (match fuel with
       | O => raise RecursionError
       | S fuel' => find_guild_rec fuel'
       end).
Proof. by destruct fuel. Qed.

(** Some guild has room: the guild is sampled at once. *)
Lemma find_guild_rec_pick (fuel : nat) (w : World) :
  free_spaces w ≠ [] →
  find_guild_rec fuel w
  = random_sample_1 (free_spaces w).*1 (free_spaces w).*2 w.
Proof.
  intros H. rewrite find_guild_rec_unfold. unfold _find_guild_body. run.
  by destruct (free_spaces w).
Qed.

(** No guild has room and no row is left: the error. *)
Lemma find_guild_rec_fail (fuel : nat) (w : World) :
  free_spaces w = [] →
  first_oldest (Emoji_records (tbl_Emoji w)) = None →
  find_guild_rec fuel w
  = (log EvEmojiFetchOldest w, Raise RuntimeError_empty_and_full).
Proof.
  intros H1 H2. rewrite find_guild_rec_unfold. unfold _find_guild_body, _find_guild_evict.
  run. by rewrite H1, H2.
Qed.

Lemma evicted_facts (w : World) (r : EmojiRecord) :
  first_oldest (Emoji_records (tbl_Emoji w)) = Some r →
  let eid := rec_emoji_id r in
  let w1 := evicted cascade eid w in
  outcome (delete_emoji cascade eid) (log EvEmojiFetchOldest w) = Ok tt
  ∧ discord_emojis w1 = delete eid (discord_emojis w)
  ∧ tbl_Emoji w1 = delete eid (tbl_Emoji w)
  ∧ tbl_UserEmoji w1
    = (if cascade then drop_bindings_to eid (tbl_UserEmoji w) else tbl_UserEmoji w)
  ∧ trace w1
    = trace w ++ [EvEmojiFetchOldest; EvEmojiFetchRow eid; EvGetEmoji eid]
        ++ platform_deletion w eid ++ [EvEmojiDelete eid]
  ∧ S (size (tbl_Emoji w1)) = size (tbl_Emoji w).
Proof.
  intros H eid w1. apply first_oldest_is_oldest in H as [Hrow _].
  destruct (delete_emoji_hit cascade eid (log EvEmojiFetchOldest w) _ Hrow)
    as (Hout & Hd & Ht & Hu & Htr).
  fold (evicted cascade eid w) in Hd, Ht, Hu, Htr. fold w1 in Hd, Ht, Hu, Htr.
  simpl in Hd, Ht, Hu, Htr.
  repeat split; try done.
  - rewrite Htr, <- app_assoc. done.
  - rewrite Ht. rewrite map_size_delete_Some by eauto.
    assert (size (tbl_Emoji w) ≠ 0%nat); [|lia].
    intros Hz. apply map_size_empty_inv in Hz. by rewrite Hz in Hrow.
Qed.

(** No guild has room and [r] is the oldest row: [r] is evicted and
    [_find_guild] is called again in the world this leaves. *)
Lemma find_guild_rec_retry (fuel : nat) (w : World) (r : EmojiRecord) :
  free_spaces w = [] →
  first_oldest (Emoji_records (tbl_Emoji w)) = Some r →
  find_guild_rec (S fuel) w
  = find_guild_rec fuel (evicted cascade (rec_emoji_id r) w).
Proof.
  intros H1 H2. rewrite (find_guild_rec_unfold (S fuel)).
  unfold _find_guild_body at 1. unfold _find_guild_evict.
  destruct (evicted_facts w r H2) as (Hout & _).
  unfold evicted, exec. unfold outcome in Hout.
  destruct (delete_emoji cascade (rec_emoji_id r) (log EvEmojiFetchOldest w))
    as [w1 res] eqn:E.
  simpl in Hout. subst res.
  cbv [mbind M_bind bind gets Emoji_fetch_row_oldest emit]. simpl.
  rewrite H1, H2. simpl. by rewrite E.
Qed.

End find_guild_facts.

(** With no nested call left, the body still runs once: the row is evicted
    and the call that follows is refused. *)
Lemma find_guild_rec_out_of_fuel (GUILDS : list Guild) (LEAVE_FREE : Z) (cascade : bool)
    (w : World) (r : EmojiRecord) :
  free_spaces GUILDS LEAVE_FREE w = [] →
  first_oldest (Emoji_records (tbl_Emoji w)) = Some r →
  _find_guild_rec GUILDS LEAVE_FREE cascade 0 w
  = (evicted cascade (rec_emoji_id r) w, Raise RecursionError).
Proof.
  intros H1 H2. rewrite find_guild_rec_unfold. unfold _find_guild_body at 1.
  unfold _find_guild_evict.
  destruct (evicted_facts cascade w r H2) as (Hout & _).
  unfold evicted, exec. unfold outcome in Hout.
  destruct (delete_emoji cascade (rec_emoji_id r) (log EvEmojiFetchOldest w))
    as [w1 res] eqn:E.
  simpl in Hout. subst res.
  cbv [mbind M_bind bind gets Emoji_fetch_row_oldest emit raise]. simpl.
  rewrite H1, H2. simpl. by rewrite E.
Qed.

(** ** The whole run of [_find_guild] *)

Lemma total_free_ext (w w' : World) (g : Guild) :
  discord_emojis w = discord_emojis w' → total_free w g = total_free w' g.
Proof. intros H. unfold total_free, guild_emojis. by rewrite H. Qed.

Lemma pool_exhausted_ext (GUILDS : list Guild) (LEAVE_FREE : Z) (w w' : World) :
  discord_emojis w = discord_emojis w' →
  pool_exhausted GUILDS LEAVE_FREE w → pool_exhausted GUILDS LEAVE_FREE w'.
Proof.
  intros H Hw g Hg. rewrite <- (total_free_ext w w' g H). by apply Hw.
Qed.

Lemma evicted_ids_app (t1 t2 : list Event) :
  evicted_ids (t1 ++ t2) = evicted_ids t1 ++ evicted_ids t2.
Proof. apply omap_app. Qed.

Lemma evicted_ids_eviction (w : World) (eid : Z) :
  evicted_ids ([EvEmojiFetchOldest; EvEmojiFetchRow eid; EvGetEmoji eid]
                 ++ platform_deletion w eid ++ [EvEmojiDelete eid]) = [eid].
Proof. unfold platform_deletion. by destruct (discord_emojis w !! eid). Qed.

Section find_guild_spec.
Variable GUILDS : list Guild.
Variable LEAVE_FREE : Z.
Variable cascade : bool.

Abbreviation free_spaces := (free_spaces GUILDS LEAVE_FREE).
Abbreviation find_guild_rec := (_find_guild_rec GUILDS LEAVE_FREE cascade).

Lemma find_guild_post_pick (fuel : nat) (w : World) :
  free_spaces w ≠ [] →
  find_guild_post GUILDS LEAVE_FREE w [] (exec (find_guild_rec fuel) w)
    (outcome (find_guild_rec fuel) w).
Proof.
  intros Hfs. unfold exec, outcome. rewrite find_guild_rec_pick by done.
  destruct (random_sample_1_spec (free_spaces w) w Hfs)
    as (Hd & Ht & _ & Htr & Hres).
  unfold exec, outcome in Hd, Ht, Htr, Hres.
  split; [by rewrite app_nil_r|]. split; [simpl; by rewrite Ht, Nat.add_0_r|].
  destruct Hres as [(g & c & -> & Hin & Hpos)|[-> Hsum]].
  - left. exists g. apply free_spaces_elem in Hin as (Hg & -> & Hlt).
    rewrite (total_free_ext _ w g Hd). done.
  - right; right. split; [done|]. split.
    + destruct (sum_not_positive (free_spaces w).*2) as (c & Hc & Hle);
        [by destruct (free_spaces w)|done|].
      apply list_elem_of_fmap in Hc as ([g c'] & -> & Hin).
      apply free_spaces_elem in Hin as (_ & _ & Hlt). simpl in Hle. lia.
    + unfold sample_refused. by rewrite (free_spaces_ext GUILDS LEAVE_FREE _ w Hd).
Qed.

Lemma find_guild_post_fail (fuel : nat) (w : World) :
  free_spaces w = [] →
  first_oldest (Emoji_records (tbl_Emoji w)) = None →
  find_guild_post GUILDS LEAVE_FREE w [EvEmojiFetchOldest] (exec (find_guild_rec fuel) w)
    (outcome (find_guild_rec fuel) w).
Proof.
  intros Hfs Hold. unfold exec, outcome.
  rewrite find_guild_rec_fail by done. simpl.
  pose proof (first_oldest_empty _ Hold) as He.
  apply free_spaces_nil in Hfs.
  split; [done|]. split; [simpl; lia|]. right; left. done.
Qed.

(** A run under any limit. *)
Lemma find_guild_rec_post_limit (fuel : nat) (w : World) :
  ∃ t, find_guild_post_limit GUILDS LEAVE_FREE fuel w t (exec (find_guild_rec fuel) w)
         (outcome (find_guild_rec fuel) w).
Proof.
  revert w. induction fuel as [|fuel IH]; intros w.
  all: destruct (free_spaces w) as [|[g0 c0] fs] eqn:Hfs;
    [|eexists; left; apply find_guild_post_pick; by rewrite Hfs].
  all: destruct (first_oldest (Emoji_records (tbl_Emoji w))) as [r|] eqn:Hold;
    [|eexists; left; by apply find_guild_post_fail].
  all: destruct (evicted_facts cascade w r Hold) as (_ & Hd & Ht & _ & Htr & Hs).
  - unfold exec, outcome. rewrite (find_guild_rec_out_of_fuel _ _ _ _ r) by done.
    eexists. right. split; [exact Htr|]. split; [done|].
    split; [by apply free_spaces_nil|].
    split; [by rewrite evicted_ids_eviction|]. cbn [fst]. lia.
  - unfold exec, outcome. rewrite (find_guild_rec_retry _ _ _ _ _ r) by done.
    destruct (IH (evicted cascade (rec_emoji_id r) w))
      as (t & [(Htr' & Hsz' & Hres)|(Htr' & Hres & _ & Hlen & Hsz')]);
      unfold exec, outcome in *.
    + eexists. left. split; [|split].
      * rewrite Htr', Htr, <- app_assoc. reflexivity.
      * rewrite evicted_ids_app, evicted_ids_eviction, length_app. simpl. lia.
      * destruct Hres as [?|[(-> & _ & ? & ?)|?]]; [by left| |by right; right].
        right; left. split; [done|]. split; [by apply free_spaces_nil|done].
    + eexists. right. split; [rewrite Htr', Htr, <- app_assoc; reflexivity|].
      split; [done|]. split; [by apply free_spaces_nil|].
      split; [|lia].
      rewrite evicted_ids_app, evicted_ids_eviction, length_app. simpl. lia.
Qed.

(** A run under a limit that the rows cannot reach. *)
Lemma find_guild_rec_post (fuel : nat) (w : World) :
  (size (tbl_Emoji w) ≤ fuel)%nat →
  ∃ t, find_guild_post GUILDS LEAVE_FREE w t (exec (find_guild_rec fuel) w)
         (outcome (find_guild_rec fuel) w).
Proof.
  intros Hsz.
  destruct (find_guild_rec_post_limit fuel w) as (t & [H|(_ & _ & _ & _ & Hs)]);
    [by exists t|lia].
Qed.

End find_guild_spec.

(** ** Enough fuel *)

Lemma find_guild_rec_enough (GUILDS : list Guild) (LEAVE_FREE : Z) (cascade : bool)
    (fuel1 fuel2 : nat) (w : World) :
  (size (tbl_Emoji w) ≤ fuel1)%nat → (size (tbl_Emoji w) ≤ fuel2)%nat →
  _find_guild_rec GUILDS LEAVE_FREE cascade fuel1 w
  = _find_guild_rec GUILDS LEAVE_FREE cascade fuel2 w.
Proof.
  revert fuel2 w. induction fuel1 as [|fuel1 IH]; intros fuel2 w H1 H2.
  all: destruct (free_spaces GUILDS LEAVE_FREE w) as [|[g0 c0] fs] eqn:Hfs;
    [|rewrite !find_guild_rec_pick by (by rewrite Hfs); done].
  all: destruct (first_oldest (Emoji_records (tbl_Emoji w))) as [r|] eqn:Hold;
    [|rewrite !find_guild_rec_fail by done; done].
  all: destruct (evicted_facts cascade w r Hold) as (_ & _ & _ & _ & _ & Hs).
  - lia.
  - destruct fuel2 as [|fuel2]; [lia|].
    rewrite !(find_guild_rec_retry _ _ _ _ _ r) by done.
    apply IH; lia.
Qed.

Lemma find_guild_eq_rec (GUILDS : list Guild) (LEAVE_FREE : Z) (cascade : bool)
    (fuel : nat) (w : World) :
  (size (tbl_Emoji w) ≤ fuel)%nat →
  _find_guild_rec GUILDS LEAVE_FREE cascade fuel w
  = _find_guild GUILDS LEAVE_FREE cascade w.
Proof. intros H. unfold _find_guild. by apply find_guild_rec_enough. Qed.

Lemma find_guild_retry (GUILDS : list Guild) (LEAVE_FREE : Z) (cascade : bool)
    (w : World) (r : EmojiRecord) :
  free_spaces GUILDS LEAVE_FREE w = [] →
  first_oldest (Emoji_records (tbl_Emoji w)) = Some r →
  _find_guild GUILDS LEAVE_FREE cascade w
  = _find_guild GUILDS LEAVE_FREE cascade (evicted cascade (rec_emoji_id r) w).
Proof.
  intros Hfs Hold.
  destruct (evicted_facts cascade w r Hold) as (_ & _ & _ & _ & _ & Hs).
  unfold _find_guild at 1. rewrite <- Hs.
  rewrite (find_guild_rec_retry _ _ _ _ _ r) by done.
  by apply find_guild_eq_rec.
Qed.

Lemma find_guild_post_holds (GUILDS : list Guild) (LEAVE_FREE : Z) (cascade : bool)
    (w : World) :
  ∃ t, find_guild_post GUILDS LEAVE_FREE w t
         (exec (_find_guild GUILDS LEAVE_FREE cascade) w)
         (outcome (_find_guild GUILDS LEAVE_FREE cascade) w).
Proof.
  destruct (find_guild_rec_post GUILDS LEAVE_FREE cascade (size (tbl_Emoji w)) w)
    as [t Ht]; [done|].
  by exists t.
Qed.

(** ** What the selector leaves alone *)

Lemma lookup_weaken_None' {A} (m1 m2 : gmap Z A) (k : Z) :
  m1 ⊆ m2 → m2 !! k = None → m1 !! k = None.
Proof.
  intros Hsub H. destruct (m1 !! k) as [x|] eqn:E; [|done].
  by rewrite (lookup_weaken _ _ _ _ E Hsub) in H.
Qed.

Lemma delete_emoji_frame (cascade : bool) (eid : Z) (w : World) :
  let w' := exec (delete_emoji cascade eid) w in
  clock w' = clock w ∧ next_snowflake w' = next_snowflake w ∧ entropy w' = entropy w
  ∧ discord_emojis w' ⊆ discord_emojis w
  ∧ tbl_Emoji w' ⊆ tbl_Emoji w
  ∧ tbl_UserEmoji w' ⊆ tbl_UserEmoji w
  ∧ (cascade = false → tbl_UserEmoji w' = tbl_UserEmoji w).
Proof.
  unfold delete_emoji. run.
  destruct (tbl_Emoji w !! eid) as [row|] eqn:Hrow; simpl; [|done].
  destruct (discord_emojis w !! eid) as [info|] eqn:Hlive; simpl;
    destruct cascade; simpl; repeat split; try done;
    try apply delete_subseteq; apply map_filter_subseteq.
Qed.

Lemma random_sample_1_frame (population : list Guild) (counts : list Z) (w : World) :
  let w' := exec (random_sample_1 population counts) w in
  clock w' = clock w ∧ next_snowflake w' = next_snowflake w
  ∧ discord_emojis w' = discord_emojis w ∧ tbl_Emoji w' = tbl_Emoji w
  ∧ tbl_UserEmoji w' = tbl_UserEmoji w ∧ trace w' = trace w.
Proof.
  unfold random_sample_1.
  destruct (decide (length (accumulate counts) ≠ length population)); [done|].
  destruct (pop (accumulate counts)) as [[total cum_counts]|]; [|done].
  destruct (decide (total ≤ 0)); [done|]. run.
  by destruct (population !! _).
Qed.

Lemma find_guild_rec_frame (GUILDS : list Guild) (LEAVE_FREE : Z) (cascade : bool)
    (fuel : nat) (w : World) :
  let w' := exec (_find_guild_rec GUILDS LEAVE_FREE cascade fuel) w in
  clock w' = clock w ∧ next_snowflake w' = next_snowflake w
  ∧ discord_emojis w' ⊆ discord_emojis w
  ∧ tbl_Emoji w' ⊆ tbl_Emoji w
  ∧ tbl_UserEmoji w' ⊆ tbl_UserEmoji w
  ∧ (cascade = false → tbl_UserEmoji w' = tbl_UserEmoji w).
Proof.
  revert w. induction fuel as [|fuel IH]; intros w.
  all: destruct (free_spaces GUILDS LEAVE_FREE w) as [|[g0 c0] fs] eqn:Hfs;
    [|unfold exec; rewrite find_guild_rec_pick by (by rewrite Hfs);
      destruct (random_sample_1_frame (free_spaces GUILDS LEAVE_FREE w).*1
                  (free_spaces GUILDS LEAVE_FREE w).*2 w)
        as (? & ? & Hd & Ht & Hu & _);
      unfold exec in *; rewrite Hd, Ht, Hu; done].
  all: destruct (first_oldest (Emoji_records (tbl_Emoji w))) as [r|] eqn:Hold;
    [|unfold exec; rewrite find_guild_rec_fail by done; done].
  all: destruct (delete_emoji_frame cascade (rec_emoji_id r) (log EvEmojiFetchOldest w))
    as (Hc & Hn & _ & Hd & Ht & Hu & Hu').
  all: fold (evicted cascade (rec_emoji_id r) w) in Hc, Hn, Hd, Ht, Hu, Hu'.
  all: simpl in Hc, Hn, Hd, Ht, Hu, Hu'.
  - unfold exec. rewrite (find_guild_rec_out_of_fuel _ _ _ _ r) by done. done.
  - unfold exec. rewrite (find_guild_rec_retry _ _ _ _ _ r) by done.
    destruct (IH (evicted cascade (rec_emoji_id r) w)) as (Hc1 & Hn1 & Hd1 & Ht1 & Hu1 & Hu1').
    unfold exec in *.
    split; [congruence|]. split; [congruence|].
    split; [by etrans|]. split; [by etrans|]. split; [by etrans|].
    intros Hcas. rewrite Hu1', Hu' by done. done.
Qed.

(** ** Bindings under a cascading delete *)

Lemma lookup_drop_bindings_to (eid uid e : Z) (m : gmap Z Z) :
  drop_bindings_to eid m !! uid = Some e ↔ m !! uid = Some e ∧ e ≠ eid.
Proof. unfold drop_bindings_to. by rewrite map_lookup_filter_Some. Qed.

(** * The properties of the specification *)

(** ** C1: when the selector fails *)

(** C1, as the code has it.  Whatever the number [limit] of nested calls
    that the interpreter allows, a call of [_find_guild] ends in one of four
    ways.  It returns a guild of the pool that has more than [LEAVE_FREE]
    free slots.  Or it raises the error of the empty and full cache: then no
    guild of the pool had more than [LEAVE_FREE] free slots at the call, none
    has at the end, and every row of [Emoji] has been evicted on the way, so
    the table is empty.  Or [random.sample] raises its [ValueError]: then
    [LEAVE_FREE] is negative and the free slots of the guilds that have more
    than [LEAVE_FREE] of them add up to zero or less.  Or the interpreter
    raises [RecursionError]: then no guild of the pool had more than
    [LEAVE_FREE] free slots at the call and [Emoji] had more rows than
    nested calls are allowed. *)
Theorem C1_find_guild_outcomes (GUILDS : list Guild) (LEAVE_FREE : Z)
    (cascade : bool) (limit : nat) (w : World) :
  let w' := exec (_find_guild_rec GUILDS LEAVE_FREE cascade limit) w in
  let res := outcome (_find_guild_rec GUILDS LEAVE_FREE cascade limit) w in
  (∃ g, res = Ok g ∧ g ∈ GUILDS ∧ LEAVE_FREE < total_free w' g)
  ∨ (res = Raise RuntimeError_empty_and_full
     ∧ pool_exhausted GUILDS LEAVE_FREE w
     ∧ pool_exhausted GUILDS LEAVE_FREE w'
     ∧ tbl_Emoji w' = ∅)
  ∨ (res = Raise ValueError_sample
     ∧ LEAVE_FREE < 0
     ∧ sample_refused GUILDS LEAVE_FREE w')
  ∨ (res = Raise RecursionError
     ∧ pool_exhausted GUILDS LEAVE_FREE w
     ∧ (limit < size (tbl_Emoji w))%nat).
Proof.
  destruct (find_guild_rec_post_limit GUILDS LEAVE_FREE cascade limit w)
    as (t & [(_ & _ & [(g & ? & ? & ? & _)|[?|?]])|(_ & ? & ? & _ & ?)]).
  - left. by exists g.
  - by right; left.
  - by right; right; left.
  - right; right; right. split; [done|]. split; [done|lia].
Qed.

(** C1 fails as stated: in [w_stale] the guild uses three of its five slots
    and a row exists, yet the call raises, under any limit that allows the
    one retry.  The row is evicted, which frees nothing since its emoji is
    gone from the platform, and the retry finds the guild no better off and
    the table empty. *)
Lemma C1_counterexample :
  outcome (_find_guild [guild_A] 2 true) w_stale = Raise RuntimeError_empty_and_full
  ∧ (∀ limit, outcome (_find_guild_rec [guild_A] 2 true (S limit)) w_stale
              = Raise RuntimeError_empty_and_full)
  ∧ total_free w_stale guild_A = 2
  ∧ emoji_limit guild_A = 5
  ∧ tbl_Emoji w_stale !! 99 = Some (row 1 5).
Proof.
  split; [vm_compute; reflexivity|]. split; [|repeat split; vm_compute; reflexivity].
  intros limit. unfold outcome. rewrite (find_guild_eq_rec _ _ _ (S limit)).
  - vm_compute; reflexivity.
  - replace (size (tbl_Emoji w_stale)) with 1%nat by (vm_compute; reflexivity). lia.
Qed.

(** The other two endings.  A guild that holds one emoji more than its
    limit, which a [LEAVE_FREE] of -2 lets into [free_spaces] beside a guild
    with one free slot: the counts add up to zero and the sample is refused.  And
    two rows whose eviction frees nothing, under a limit of no nested call:
    the retry after the first eviction is refused and one row is left,
    where two nested calls would have ended in the error of the empty and
    full cache. *)
Example the_sample_is_refused :
  let over := {| guild_id := 1; emoji_limit := 1 |} in
  let spare := {| guild_id := 3; emoji_limit := 1 |} in
  free_spaces [spare; over] (-2) w_room = [(spare, 1); (over, -1)]
  ∧ _find_guild [spare; over] (-2) true w_room = (w_room, Raise ValueError_sample).
Proof. split; vm_compute; reflexivity. Qed.

Example the_limit_is_reached :
  let w' := exec (_find_guild_rec [guild_A] 2 true 0) w_two_stale in
  outcome (_find_guild_rec [guild_A] 2 true 0) w_two_stale = Raise RecursionError
  ∧ evicted_ids (trace w') = [98]
  ∧ tbl_Emoji w' !! 99 = Some (row 1 6)
  ∧ outcome (_find_guild_rec [guild_A] 2 true 2) w_two_stale
    = Raise RuntimeError_empty_and_full.
Proof. repeat split; vm_compute; reflexivity. Qed.

(** ** C2: what an eviction deletes *)

(** Without the cascading delete the bindings stay as they are: the code of
    [delete_emoji] does not touch [UserEmoji] itself. *)
Lemma eviction_without_cascade (w : World) (r : EmojiRecord) :
  first_oldest (Emoji_records (tbl_Emoji w)) = Some r →
  tbl_UserEmoji (evicted false (rec_emoji_id r) w) = tbl_UserEmoji w.
Proof. intros H. by destruct (evicted_facts false w r H) as (_ & _ & _ & -> & _). Qed.

(** C2.  When no guild has room and [r] is the first of the oldest rows, the
    selector evicts [r] and goes on from the world [w1] this leaves.  There
    the platform no longer has the emoji, [Emoji] no longer has its row and,
    the delete cascading to [UserEmoji], no binding holds it.  The emoji,
    rows and bindings of other ids are as before. *)
Theorem C2_eviction_deletes (GUILDS : list Guild) (LEAVE_FREE : Z)
    (w : World) (r : EmojiRecord) :
  free_spaces GUILDS LEAVE_FREE w = [] →
  first_oldest (Emoji_records (tbl_Emoji w)) = Some r →
  let eid := rec_emoji_id r in
  let w1 := evicted true eid w in
  is_oldest (tbl_Emoji w) r
  ∧ _find_guild GUILDS LEAVE_FREE true w = _find_guild GUILDS LEAVE_FREE true w1
  ∧ discord_emojis w1 !! eid = None
  ∧ tbl_Emoji w1 !! eid = None
  ∧ (∀ uid, tbl_UserEmoji w1 !! uid ≠ Some eid)
  ∧ (∀ k, k ≠ eid → discord_emojis w1 !! k = discord_emojis w !! k
                    ∧ tbl_Emoji w1 !! k = tbl_Emoji w !! k)
  ∧ (∀ uid k, k ≠ eid → tbl_UserEmoji w !! uid = Some k →
              tbl_UserEmoji w1 !! uid = Some k).
Proof.
  intros Hfs Hold eid w1.
  destruct (evicted_facts true w r Hold) as (_ & Hd & Ht & Hu & _).
  fold eid in Hd, Ht, Hu. fold w1 in Hd, Ht, Hu.
  split; [by apply first_oldest_is_oldest|].
  split; [by apply find_guild_retry|].
  rewrite Hd, Ht, Hu. repeat split.
  - apply lookup_delete_eq.
  - apply lookup_delete_eq.
  - intros uid H. apply lookup_drop_bindings_to in H as [_ H]. done.
  - by apply lookup_delete_ne.
  - by apply lookup_delete_ne.
  - intros uid k Hk H. by apply lookup_drop_bindings_to.
Qed.

Lemma C2_eviction_deletes_witness :
  let w1 := evicted true 10 w_full in
  free_spaces [guild_A] 2 w_full = []
  ∧ first_oldest (Emoji_records (tbl_Emoji w_full)) = Some (to_EmojiRecord 10 (row 1 7))
  ∧ discord_emojis w1 !! 10 = None
  ∧ tbl_Emoji w1 !! 10 = None
  ∧ (∀ uid, tbl_UserEmoji w1 !! uid ≠ Some 10)
  ∧ tbl_UserEmoji w1 !! 8 = Some 11.
Proof.
  assert (H1 : free_spaces [guild_A] 2 w_full = []) by (vm_compute; reflexivity).
  assert (H2 : first_oldest (Emoji_records (tbl_Emoji w_full))
               = Some (to_EmojiRecord 10 (row 1 7))) by (vm_compute; reflexivity).
  destruct (C2_eviction_deletes [guild_A] 2 w_full _ H1 H2)
    as (_ & _ & Hd & Ht & Hu & _ & Hk).
  split; [exact H1|]. split; [exact H2|].
  split; [exact Hd|]. split; [exact Ht|]. split; [exact Hu|].
  apply (Hk 8 11); [discriminate|vm_compute; reflexivity].
Defined.

(** ** C3: how many evictions *)

Lemma find_guild_trace_pick (GUILDS : list Guild) (LEAVE_FREE : Z) (cascade : bool)
    (w : World) :
  free_spaces GUILDS LEAVE_FREE w ≠ [] →
  trace (exec (_find_guild GUILDS LEAVE_FREE cascade) w) = trace w.
Proof.
  intros H.
  destruct (find_guild_post_pick GUILDS LEAVE_FREE cascade (size (tbl_Emoji w)) w H)
    as (Htr & _).
  by rewrite app_nil_r in Htr.
Qed.

(** A call that evicts adds to the trace the calls of the eviction and then
    those of the retry, when the limit allows one. *)
Lemma find_guild_rec_evicts_first (GUILDS : list Guild) (LEAVE_FREE : Z) (cascade : bool)
    (limit : nat) (w : World) (r : EmojiRecord) :
  free_spaces GUILDS LEAVE_FREE w = [] →
  first_oldest (Emoji_records (tbl_Emoji w)) = Some r →
  let w1 := evicted cascade (rec_emoji_id r) w in
  ∃ t t1,
    trace (exec (_find_guild_rec GUILDS LEAVE_FREE cascade limit) w) = trace w ++ t
    ∧ evicted_ids t = rec_emoji_id r :: evicted_ids t1
    ∧ match limit with
      | O => t1 = []
      | S limit' =>
          trace (exec (_find_guild_rec GUILDS LEAVE_FREE cascade limit') w1)
          = trace w1 ++ t1
      end.
Proof.
  intros Hfs Hold w1.
  destruct (evicted_facts cascade w r Hold) as (_ & _ & _ & _ & Htr & _).
  fold w1 in Htr. destruct limit as [|limit'].
  - eexists _, []. unfold exec.
    rewrite (find_guild_rec_out_of_fuel _ _ _ _ r) by done.
    split; [exact Htr|]. split; [|done]. apply evicted_ids_eviction.
  - destruct (find_guild_rec_post_limit GUILDS LEAVE_FREE cascade limit' w1)
      as (t1 & Ht1).
    assert (Htr1 : trace (exec (_find_guild_rec GUILDS LEAVE_FREE cascade limit') w1)
                   = trace w1 ++ t1).
    { by destruct Ht1 as [(? & _)|(? & _)]. }
    eexists _, t1. unfold exec in *.
    rewrite (find_guild_rec_retry _ _ _ _ _ r) by done. fold w1.
    split; [|split; [|done]].
    + rewrite Htr1, Htr, <- app_assoc. reflexivity.
    + by rewrite evicted_ids_app, evicted_ids_eviction.
Qed.

(** C3, as the code has it.  When no guild of the pool has more than
    [LEAVE_FREE] free slots and [Emoji] has a row, the call evicts at least
    once, and the first row it evicts has the least [last_fetched] of the
    table.  This is the only eviction when the retry finds some guild with
    more than [LEAVE_FREE] free slots; when it finds none and rows remain,
    the call evicts again, provided the interpreter allows the retry. *)
Theorem C3_evictions_of_a_call (GUILDS : list Guild) (LEAVE_FREE : Z)
    (cascade : bool) (limit : nat) (w : World) :
  pool_exhausted GUILDS LEAVE_FREE w →
  tbl_Emoji w ≠ ∅ →
  ∃ r t rest,
    is_oldest (tbl_Emoji w) r
    ∧ trace (exec (_find_guild_rec GUILDS LEAVE_FREE cascade limit) w) = trace w ++ t
    ∧ evicted_ids t = rec_emoji_id r :: rest
    ∧ let w1 := evicted cascade (rec_emoji_id r) w in
      (¬ pool_exhausted GUILDS LEAVE_FREE w1 → rest = [])
      ∧ (limit ≠ 0%nat → pool_exhausted GUILDS LEAVE_FREE w1 → tbl_Emoji w1 ≠ ∅ →
         rest ≠ []).
Proof.
  intros Hex Hne. apply free_spaces_nil in Hex as Hfs.
  destruct (first_oldest (Emoji_records (tbl_Emoji w))) as [r|] eqn:Hold;
    [|by apply first_oldest_empty in Hold].
  destruct (find_guild_rec_evicts_first GUILDS LEAVE_FREE cascade limit w r Hfs Hold)
    as (t & t1 & Ht & Hids & Ht1).
  exists r, t, (evicted_ids t1).
  split; [by apply first_oldest_is_oldest|]. split; [done|]. split; [done|].
  intros w1. fold w1 in Ht1. split.
  - intros Hroom. rewrite <- free_spaces_nil in Hroom.
    destruct limit as [|limit']; [by subst t1|].
    destruct (find_guild_post_pick GUILDS LEAVE_FREE cascade limit' w1 Hroom) as (Htr & _).
    rewrite Htr in Ht1. apply app_inv_head in Ht1. by subst t1.
  - intros Hlimit Hex1 Hne1. destruct limit as [|limit']; [done|].
    apply free_spaces_nil in Hex1.
    destruct (first_oldest (Emoji_records (tbl_Emoji w1))) as [r1|] eqn:Hold1;
      [|by apply first_oldest_empty in Hold1].
    destruct (find_guild_rec_evicts_first GUILDS LEAVE_FREE cascade limit' w1 r1 Hex1 Hold1)
      as (t' & t2 & Ht' & Hids' & _).
    rewrite Ht' in Ht1. apply app_inv_head in Ht1. subst t1. by rewrite Hids'.
Qed.

Lemma C3_evictions_of_a_call_witness :
  pool_exhausted [guild_A] 2 w_full
  ∧ tbl_Emoji w_full ≠ ∅
  ∧ ∃ r t rest,
      is_oldest (tbl_Emoji w_full) r
      ∧ trace (exec (_find_guild_rec [guild_A] 2 true 3) w_full) = trace w_full ++ t
      ∧ evicted_ids t = rec_emoji_id r :: rest
      ∧ let w1 := evicted true (rec_emoji_id r) w_full in
        (¬ pool_exhausted [guild_A] 2 w1 → rest = [])
        ∧ (3%nat ≠ 0%nat → pool_exhausted [guild_A] 2 w1 → tbl_Emoji w1 ≠ ∅ → rest ≠ []).
Proof.
  assert (H1 : pool_exhausted [guild_A] 2 w_full).
  { apply free_spaces_nil. vm_compute; reflexivity. }
  assert (H2 : tbl_Emoji w_full ≠ ∅).
  { intros H. apply (f_equal (λ m, m !! 10)) in H. revert H. vm_compute. discriminate. }
  split; [exact H1|]. split; [exact H2|].
  exact (C3_evictions_of_a_call [guild_A] 2 true 3 w_full H1 H2).
Defined.

(** C3 fails as stated: in [w_stale_then_live] the guild is at the threshold
    and rows exist, and the one call evicts twice.  The oldest row is that
    of emoji 99, which the platform no longer has, so evicting it frees no
    slot and the retry evicts emoji 10 as well. *)
Lemma C3_counterexample :
  pool_exhausted [guild_A] 2 w_stale_then_live
  ∧ tbl_Emoji w_stale_then_live !! 99 = Some (row 1 5)
  ∧ trace w_stale_then_live = []
  ∧ evicted_ids (trace (exec (_find_guild [guild_A] 2 true) w_stale_then_live))
    = [99; 10]
  ∧ outcome (_find_guild [guild_A] 2 true) w_stale_then_live = Ok guild_A.
Proof.
  split; [apply free_spaces_nil|repeat split]; vm_compute; reflexivity.
Qed.

(** In [w_full] the oldest row is that of a still emoji of the guild, which
    sits at the threshold: one eviction and the guild is returned. *)
Example one_eviction_in_w_full :
  evicted_ids (trace (exec (_find_guild [guild_A] 2 true) w_full)) = [10]
  ∧ outcome (_find_guild [guild_A] 2 true) w_full = Ok guild_A.
Proof. split; vm_compute; reflexivity. Qed.

(** ** C4: deleting twice *)

Lemma delete_emoji_Ok_inv (cascade : bool) (eid : Z) (w : World) :
  outcome (delete_emoji cascade eid) w = Ok tt → is_Some (tbl_Emoji w !! eid).
Proof.
  intros H. destruct (tbl_Emoji w !! eid) as [row|] eqn:E; [by eexists|].
  unfold outcome in H. by rewrite delete_emoji_miss in H.
Qed.

(** The row that a call of the selector evicts first is not in the table
    the call leaves. *)
Lemma find_guild_rec_evicted_gone (GUILDS : list Guild) (LEAVE_FREE : Z) (cascade : bool)
    (limit : nat) (w : World) (r : EmojiRecord) :
  free_spaces GUILDS LEAVE_FREE w = [] →
  first_oldest (Emoji_records (tbl_Emoji w)) = Some r →
  tbl_Emoji (exec (_find_guild_rec GUILDS LEAVE_FREE cascade limit) w) !! rec_emoji_id r
  = None.
Proof.
  intros Hfs Hold.
  destruct (evicted_facts cascade w r Hold) as (_ & _ & Ht & _).
  assert (Hgone : tbl_Emoji (evicted cascade (rec_emoji_id r) w) !! rec_emoji_id r = None)
    by (rewrite Ht; apply lookup_delete_eq).
  destruct limit as [|limit']; unfold exec.
  - by rewrite (find_guild_rec_out_of_fuel _ _ _ _ r).
  - rewrite (find_guild_rec_retry _ _ _ _ _ r) by done.
    destruct (find_guild_rec_frame GUILDS LEAVE_FREE cascade limit'
                (evicted cascade (rec_emoji_id r) w)) as (_ & _ & _ & Hsub & _).
    by eapply lookup_weaken_None'.
Qed.

(** C4, as the code has it.  A second [delete_emoji] of the same id raises
    the [ValueError] of an emoji not in the cache, having done no more than
    look the row up.  The selector has no delete of its own.  With no guild
    above [LEAVE_FREE] it reads the oldest record and goes on, in
    [_find_guild_evict], by handing the id of the record to this same
    [delete_emoji], with no handler around the call.  So when the row of
    the record is gone by then, the selector raises that [ValueError] too,
    having done no more than look the row up: it does not retry and returns
    no guild.  This is what happens to the record that another call of the
    selector, which read the same oldest record, has evicted in between.
    What [delete_emoji] tolerates is an emoji that the platform no longer
    has: the platform is then left alone and the row is deleted all the
    same. *)
Theorem C4_delete_emoji_twice (cascade : bool) (eid : Z) (w : World) :
  (outcome (delete_emoji cascade eid) w = Ok tt →
   let w1 := exec (delete_emoji cascade eid) w in
   delete_emoji cascade eid w1
   = (log (EvEmojiFetchRow eid) w1, Raise (ValueError_not_in_cache eid)))
  ∧ (∀ GUILDS LEAVE_FREE retry,
       free_spaces GUILDS LEAVE_FREE w = [] →
       _find_guild_body GUILDS LEAVE_FREE cascade retry w
       = _find_guild_evict cascade retry (first_oldest (Emoji_records (tbl_Emoji w)))
           (log EvEmojiFetchOldest w))
  ∧ (∀ retry r,
       rec_emoji_id r = eid →
       tbl_Emoji w !! eid = None →
       _find_guild_evict cascade retry (Some r) w
       = (log (EvEmojiFetchRow eid) w, Raise (ValueError_not_in_cache eid)))
  ∧ (∀ GUILDS LEAVE_FREE limit retry r,
       rec_emoji_id r = eid →
       free_spaces GUILDS LEAVE_FREE w = [] →
       first_oldest (Emoji_records (tbl_Emoji w)) = Some r →
       let w1 := exec (_find_guild_rec GUILDS LEAVE_FREE cascade limit) w in
       _find_guild_evict cascade retry (Some r) w1
       = (log (EvEmojiFetchRow eid) w1, Raise (ValueError_not_in_cache eid)))
  ∧ (is_Some (tbl_Emoji w !! eid) → discord_emojis w !! eid = None →
     let w1 := exec (delete_emoji cascade eid) w in
     outcome (delete_emoji cascade eid) w = Ok tt
     ∧ discord_emojis w1 = discord_emojis w
     ∧ tbl_Emoji w1 !! eid = None
     ∧ trace w1 = trace w ++ [EvEmojiFetchRow eid; EvGetEmoji eid; EvEmojiDelete eid]).
Proof.
  assert (Hgone : ∀ retry r w1,
            rec_emoji_id r = eid → tbl_Emoji w1 !! eid = None →
            _find_guild_evict cascade retry (Some r) w1
            = (log (EvEmojiFetchRow eid) w1, Raise (ValueError_not_in_cache eid))).
  { intros retry r w1 <- Hrow. unfold _find_guild_evict.
    cbv [mbind M_bind bind]. by rewrite delete_emoji_miss. }
  split; [|split; [|split; [|split]]].
  - intros Hok w1. apply delete_emoji_Ok_inv in Hok as [row Hrow].
    destruct (delete_emoji_hit cascade eid w row Hrow) as (_ & _ & Ht & _).
    apply delete_emoji_miss. fold w1 in Ht. rewrite Ht. apply lookup_delete_eq.
  - intros GUILDS LEAVE_FREE retry Hfs. unfold _find_guild_body. run. by rewrite Hfs.
  - intros retry r. apply Hgone.
  - intros GUILDS LEAVE_FREE limit retry r Hr Hfs Hold w1. apply Hgone; [done|].
    rewrite <- Hr. by apply find_guild_rec_evicted_gone.
  - intros [row Hrow] Hgone' w1.
    destruct (delete_emoji_hit cascade eid w row Hrow) as (Hout & Hd & Ht & _ & Htr).
    fold w1 in Hd, Ht, Htr. unfold platform_deletion in Htr. rewrite Hgone' in Htr.
    split; [done|]. split; [|split].
    + rewrite Hd. by apply delete_id.
    + rewrite Ht. apply lookup_delete_eq.
    + done.
Qed.

Lemma C4_delete_emoji_twice_witness :
  let r := to_EmojiRecord 10 (row 1 7) in
  let w1 := exec (_find_guild_rec [guild_A] 2 true 3) w_full in
  outcome (delete_emoji true 10) w_full = Ok tt
  ∧ outcome (delete_emoji true 10) (exec (delete_emoji true 10) w_full)
    = Raise (ValueError_not_in_cache 10)
  ∧ free_spaces [guild_A] 2 w_full = []
  ∧ first_oldest (Emoji_records (tbl_Emoji w_full)) = Some r
  ∧ _find_guild_evict true (_find_guild_rec [guild_A] 2 true 3) (Some r) w1
    = (log (EvEmojiFetchRow 10) w1, Raise (ValueError_not_in_cache 10))
  ∧ outcome (delete_emoji true 10) w_desynced = Ok tt.
Proof.
  intros r w1.
  assert (H1 : outcome (delete_emoji true 10) w_full = Ok tt) by (vm_compute; reflexivity).
  assert (H2 : free_spaces [guild_A] 2 w_full = []) by (vm_compute; reflexivity).
  assert (H3 : first_oldest (Emoji_records (tbl_Emoji w_full)) = Some r)
    by (vm_compute; reflexivity).
  split; [exact H1|]. split; [|split; [exact H2|split; [exact H3|split]]].
  - destruct (C4_delete_emoji_twice true 10 w_full) as (Htwice & _).
    unfold outcome. by rewrite (Htwice H1).
  - destruct (C4_delete_emoji_twice true 10 w_full) as (_ & _ & _ & Hrace & _).
    exact (Hrace [guild_A] 2 3%nat (_find_guild_rec [guild_A] 2 true 3) r eq_refl H2 H3).
  - destruct (C4_delete_emoji_twice true 10 w_desynced) as (_ & _ & _ & _ & Hgone).
    apply Hgone; [by eexists; vm_compute|vm_compute; reflexivity].
Defined.

(** C4 fails as stated for the eviction path.  In [w_full] no guild is above
    [LEAVE_FREE] and the oldest record is that of emoji 10.  Two calls of
    the selector have read this record.  One of them evicts emoji 10; the
    other then goes on with the record it read, and its delete raises, be
    it right after the eviction or after the first call has run to its end:
    the second application of the eviction is an error, not a no-op, and the
    selector neither retries nor returns a guild. *)
Lemma C4_counterexample :
  let r := to_EmojiRecord 10 (row 1 7) in
  let w_read := log EvEmojiFetchOldest w_full in
  let w_evicted := exec (delete_emoji true 10) w_read in
  let w_done := exec (_find_guild [guild_A] 2 true) w_read in
  free_spaces [guild_A] 2 w_full = []
  ∧ first_oldest (Emoji_records (tbl_Emoji w_full)) = Some r
  ∧ _find_guild_evict true (_find_guild [guild_A] 2 true) (Some r) w_read
    = _find_guild [guild_A] 2 true w_evicted
  ∧ _find_guild_evict true (_find_guild [guild_A] 2 true) (Some r) w_evicted
    = (log (EvEmojiFetchRow 10) w_evicted, Raise (ValueError_not_in_cache 10))
  ∧ _find_guild_evict true (_find_guild [guild_A] 2 true) (Some r) w_done
    = (log (EvEmojiFetchRow 10) w_done, Raise (ValueError_not_in_cache 10)).
Proof.
  intros r w_read w_evicted w_done. split_and!; vm_compute; reflexivity.
Qed.

(** ** [fetch_emoji] *)

(** A hit on an emoji the platform still has. *)
Lemma fetch_emoji_live (NOT_FOUND : discord_Emoji) (cascade : bool) (eid : Z)
    (w : World) (row : EmojiRow) (info : EmojiInfo) :
  tbl_Emoji w !! eid = Some row →
  discord_emojis w !! eid = Some info →
  let w' := exec (fetch_emoji NOT_FOUND cascade (Some eid)) w in
  outcome (fetch_emoji NOT_FOUND cascade (Some eid)) w = Ok (to_discord_Emoji eid info)
  ∧ discord_emojis w' = discord_emojis w
  ∧ tbl_Emoji w' !! eid
    = Some {| row_guild_id := row_guild_id row; row_last_fetched := clock w |}
  ∧ (∀ k, k ≠ eid → tbl_Emoji w' !! k = tbl_Emoji w !! k)
  ∧ tbl_UserEmoji w' = tbl_UserEmoji w
  ∧ trace w'
    = trace w ++ [EvEmojiFetchRow eid; EvEmojiUpdate eid (clock w); EvGetEmoji eid].
Proof.
  intros Hrow Hlive. unfold fetch_emoji. run. rewrite Hrow. simpl.
  rewrite Hlive. simpl. rewrite <- !app_assoc. simpl.
  repeat split; try done.
  - by rewrite lookup_alter_eq, Hrow.
  - intros k Hk. by rewrite lookup_alter_ne.
Qed.

(** A hit on an emoji the platform no longer has. *)
Lemma fetch_emoji_gone (NOT_FOUND : discord_Emoji) (cascade : bool) (eid : Z)
    (w : World) (row : EmojiRow) :
  tbl_Emoji w !! eid = Some row →
  discord_emojis w !! eid = None →
  let w' := exec (fetch_emoji NOT_FOUND cascade (Some eid)) w in
  outcome (fetch_emoji NOT_FOUND cascade (Some eid)) w = Raise RuntimeError_deleted
  ∧ discord_emojis w' = discord_emojis w
  ∧ tbl_Emoji w' = delete eid (tbl_Emoji w)
  ∧ tbl_UserEmoji w'
    = (if cascade then drop_bindings_to eid (tbl_UserEmoji w) else tbl_UserEmoji w)
  ∧ trace w'
    = trace w ++ [EvEmojiFetchRow eid; EvEmojiUpdate eid (clock w); EvGetEmoji eid;
                  EvEmojiDelete eid].
Proof.
  intros Hrow Hgone. unfold fetch_emoji. run. rewrite Hrow. simpl.
  rewrite Hgone. simpl.
  destruct cascade; simpl; rewrite <- !app_assoc; simpl; repeat split; try done.
  all: apply map_eq; intros k; destruct (decide (k = eid)) as [->|Hk];
    by rewrite ?lookup_delete_eq, ?lookup_delete_ne, ?lookup_alter_ne.
Qed.

(** A miss. *)
Lemma fetch_emoji_miss (NOT_FOUND : discord_Emoji) (cascade : bool) (eid : Z)
    (w : World) :
  tbl_Emoji w !! eid = None →
  fetch_emoji NOT_FOUND cascade (Some eid) w
  = (log (EvEmojiFetchRow eid) w, Raise (ValueError_not_in_cache eid)).
Proof. intros H. unfold fetch_emoji. run. by rewrite H. Qed.

(** ** C5: a cached emoji that the platform lost *)

(** C5.  When [Emoji] has a row for [eid] and the platform no longer has the
    emoji, [fetch_emoji] deletes the row and raises the [RuntimeError] of a
    deleted emoji; fetched again, the same id raises the [ValueError] of an
    emoji not in the cache. *)
Theorem C5_fetch_emoji_desynced (NOT_FOUND : discord_Emoji) (cascade : bool)
    (eid : Z) (w : World) :
  is_Some (tbl_Emoji w !! eid) →
  discord_emojis w !! eid = None →
  let w1 := exec (fetch_emoji NOT_FOUND cascade (Some eid)) w in
  outcome (fetch_emoji NOT_FOUND cascade (Some eid)) w = Raise RuntimeError_deleted
  ∧ tbl_Emoji w1 !! eid = None
  ∧ (∀ k, k ≠ eid → tbl_Emoji w1 !! k = tbl_Emoji w !! k)
  ∧ outcome (fetch_emoji NOT_FOUND cascade (Some eid)) w1
    = Raise (ValueError_not_in_cache eid).
Proof.
  intros [row Hrow] Hgone w1.
  destruct (fetch_emoji_gone NOT_FOUND cascade eid w row Hrow Hgone)
    as (Hout & _ & Ht & _).
  fold w1 in Ht.
  assert (Hnone : tbl_Emoji w1 !! eid = None) by (rewrite Ht; apply lookup_delete_eq).
  split; [done|]. split; [done|]. split.
  - intros k Hk. rewrite Ht. by apply lookup_delete_ne.
  - unfold outcome. by rewrite fetch_emoji_miss.
Qed.

Lemma C5_fetch_emoji_desynced_witness :
  let w1 := exec (fetch_emoji not_found true (Some 10)) w_desynced in
  tbl_Emoji w_desynced !! 10 = Some (row 1 7)
  ∧ discord_emojis w_desynced !! 10 = None
  ∧ outcome (fetch_emoji not_found true (Some 10)) w_desynced
    = Raise RuntimeError_deleted
  ∧ tbl_Emoji w1 !! 10 = None
  ∧ outcome (fetch_emoji not_found true (Some 10)) w1
    = Raise (ValueError_not_in_cache 10).
Proof.
  assert (H1 : tbl_Emoji w_desynced !! 10 = Some (row 1 7)) by (vm_compute; reflexivity).
  assert (H2 : discord_emojis w_desynced !! 10 = None) by (vm_compute; reflexivity).
  destruct (C5_fetch_emoji_desynced not_found true 10 w_desynced
              (ex_intro _ _ H1) H2) as (Ha & Hb & _ & Hc).
  split; [exact H1|]. split; [exact H2|]. split; [exact Ha|]. split; [exact Hb|exact Hc].
Defined.

(** ** C6: the guild returned has room *)

(** C6.  A guild that [_find_guild] returns is one of the pool and has, in
    the world the call leaves, at least one free slot, and indeed more than
    [LEAVE_FREE] of them. *)
Theorem C6_returned_guild_has_room (GUILDS : list Guild) (LEAVE_FREE : Z)
    (cascade : bool) (w : World) (g : Guild) :
  outcome (_find_guild GUILDS LEAVE_FREE cascade) w = Ok g →
  let w' := exec (_find_guild GUILDS LEAVE_FREE cascade) w in
  g ∈ GUILDS ∧ 0 < total_free w' g ∧ LEAVE_FREE < total_free w' g.
Proof.
  intros Hok w'.
  destruct (find_guild_post_holds GUILDS LEAVE_FREE cascade w)
    as (t & _ & _ & [(g' & Hg' & ? & ? & ?)|[[Hg' _]|[Hg' _]]]);
    rewrite Hok in Hg'; [|done..].
  injection Hg' as ->. done.
Qed.

Lemma C6_returned_guild_has_room_witness :
  outcome (_find_guild [guild_A] 2 true) w_room = Ok guild_A
  ∧ guild_A ∈ [guild_A]
  ∧ 0 < total_free (exec (_find_guild [guild_A] 2 true) w_room) guild_A
  ∧ 2 < total_free (exec (_find_guild [guild_A] 2 true) w_room) guild_A.
Proof.
  assert (H : outcome (_find_guild [guild_A] 2 true) w_room = Ok guild_A)
    by (vm_compute; reflexivity).
  split; [exact H|].
  exact (C6_returned_guild_has_room [guild_A] 2 true w_room guild_A H).
Defined.

(** With a negative [LEAVE_FREE] a full guild enters [free_spaces], with a
    count that is not positive, and the sample never draws it. *)
Example full_guild_is_not_drawn :
  free_spaces [{| guild_id := 2; emoji_limit := 0 |}; guild_A] (-1) w_room
  = [({| guild_id := 2; emoji_limit := 0 |}, 0); (guild_A, 3)]
  ∧ outcome (_find_guild [{| guild_id := 2; emoji_limit := 0 |}; guild_A] (-1) true)
      w_room = Ok guild_A.
Proof. split; vm_compute; reflexivity. Qed.

(** When the only guild of [free_spaces] is full, the sample has nothing to
    draw from and raises; nothing is evicted. *)
Example sample_without_positive_count :
  _find_guild [{| guild_id := 2; emoji_limit := 0 |}] (-1) true w_room
  = (w_room, Raise ValueError_sample).
Proof. vm_compute; reflexivity. Qed.

(** ** C8: the time of the fetch is written before the emoji is looked up *)

(** C8.  On a hit, [fetch_emoji] reads the row, then sets its
    [last_fetched] to the time of the call, and only then asks the client
    for the emoji.  When the client has it, the row is left with the new
    time; when it has not, the update has been made all the same and the
    deletion of the row and the [RuntimeError] follow it. *)
Theorem C8_update_before_validation (NOT_FOUND : discord_Emoji) (cascade : bool)
    (eid : Z) (w : World) (row : EmojiRow) :
  tbl_Emoji w !! eid = Some row →
  let w' := exec (fetch_emoji NOT_FOUND cascade (Some eid)) w in
  let res := outcome (fetch_emoji NOT_FOUND cascade (Some eid)) w in
  ∃ t, trace w'
       = trace w ++ [EvEmojiFetchRow eid; EvEmojiUpdate eid (clock w); EvGetEmoji eid] ++ t
     ∧ match discord_emojis w !! eid with
       | Some info =>
           res = Ok (to_discord_Emoji eid info) ∧ t = []
           ∧ tbl_Emoji w' !! eid
             = Some {| row_guild_id := row_guild_id row; row_last_fetched := clock w |}
       | None =>
           res = Raise RuntimeError_deleted ∧ t = [EvEmojiDelete eid]
       end.
Proof.
  intros Hrow w' res. destruct (discord_emojis w !! eid) as [info|] eqn:E.
  - destruct (fetch_emoji_live NOT_FOUND cascade eid w row info Hrow E)
      as (Hout & _ & Ht & _ & _ & Htr).
    exists []. by rewrite app_nil_r.
  - destruct (fetch_emoji_gone NOT_FOUND cascade eid w row Hrow E)
      as (Hout & _ & _ & _ & Htr).
    by exists [EvEmojiDelete eid].
Qed.

Lemma C8_update_before_validation_witness :
  tbl_Emoji w_desynced !! 10 = Some (row 1 7)
  ∧ trace (exec (fetch_emoji not_found true (Some 10)) w_desynced)
    = [EvEmojiFetchRow 10; EvEmojiUpdate 10 50; EvGetEmoji 10; EvEmojiDelete 10]
  ∧ outcome (fetch_emoji not_found true (Some 10)) w_desynced
    = Raise RuntimeError_deleted.
Proof.
  assert (H : tbl_Emoji w_desynced !! 10 = Some (row 1 7)) by (vm_compute; reflexivity).
  destruct (C8_update_before_validation not_found true 10 w_desynced _ H)
    as (t & Htr & Hres).
  change (discord_emojis w_desynced !! 10) with (@None EmojiInfo) in Hres.
  destruct Hres as [Hres ->].
  split; [exact H|]. split; [exact Htr|exact Hres].
Defined.

(** ** C9: no id, no store *)

(** C9.  With no id, [fetch_emoji] returns [CONFIG.EMOJI.NOT_FOUND] and
    leaves the world as it found it: the two tables are as before and the
    trace has no new call, to the store or to the platform. *)
Theorem C9_fetch_emoji_None (NOT_FOUND : discord_Emoji) (cascade : bool) (w : World) :
  outcome (fetch_emoji NOT_FOUND cascade None) w = Ok NOT_FOUND
  ∧ exec (fetch_emoji NOT_FOUND cascade None) w = w
  ∧ tbl_Emoji (exec (fetch_emoji NOT_FOUND cascade None) w) = tbl_Emoji w
  ∧ tbl_UserEmoji (exec (fetch_emoji NOT_FOUND cascade None) w) = tbl_UserEmoji w
  ∧ trace (exec (fetch_emoji NOT_FOUND cascade None) w) = trace w.
Proof. by repeat split. Qed.

(** ** C7: [fetch_user_emoji] *)

#[local] Arguments fetch_emoji : simpl never.
#[local] Arguments create_user_emoji : simpl never.

(** A binding to an emoji that [Emoji] has no row for: the [ValueError] is
    not a [RuntimeError], so it leaves [fetch_user_emoji] and the binding
    stays. *)
Lemma fetch_user_emoji_not_cached (GUILDS : list Guild) (LEAVE_FREE : Z)
    (NOT_FOUND : discord_Emoji) (cascade : bool) (user : User) (eid : Z) (w : World) :
  tbl_UserEmoji w !! user_id user = Some eid →
  tbl_Emoji w !! eid = None →
  fetch_user_emoji GUILDS LEAVE_FREE NOT_FOUND cascade (Some user) w
  = (log (EvEmojiFetchRow eid) (log (EvUserFetchRow (user_id user)) w),
     Raise (ValueError_not_in_cache eid)).
Proof.
  intros Hb Hrow. unfold fetch_user_emoji. run. rewrite Hb. simpl.
  by rewrite fetch_emoji_miss.
Qed.

(** C7.  Without a user, [fetch_user_emoji] is [fetch_emoji] without an id.
    With a user it looks the binding up in [UserEmoji].  With no binding it
    calls [create_user_emoji].  With a binding it fetches the emoji bound:
    when [fetch_emoji] returns an emoji, that emoji is returned; when it
    raises the [RuntimeError] of a deleted emoji, the binding is deleted and
    [create_user_emoji] is called in the world this leaves, where the user
    has no binding. *)
Theorem C7_fetch_user_emoji_flow (GUILDS : list Guild) (LEAVE_FREE : Z)
    (NOT_FOUND : discord_Emoji) (cascade : bool) (w : World) :
  fetch_user_emoji GUILDS LEAVE_FREE NOT_FOUND cascade None w
  = fetch_emoji NOT_FOUND cascade None w
  ∧ ∀ user,
      let uid := user_id user in
      let w0 := log (EvUserFetchRow uid) w in
      (tbl_UserEmoji w !! uid = None →
       fetch_user_emoji GUILDS LEAVE_FREE NOT_FOUND cascade (Some user) w
       = create_user_emoji GUILDS LEAVE_FREE cascade user w0)
      ∧ ∀ eid,
          tbl_UserEmoji w !! uid = Some eid →
          let w1 := exec (fetch_emoji NOT_FOUND cascade (Some eid)) w0 in
          let res := outcome (fetch_emoji NOT_FOUND cascade (Some eid)) w0 in
          (∀ emoji, res = Ok emoji →
             fetch_user_emoji GUILDS LEAVE_FREE NOT_FOUND cascade (Some user) w
             = (w1, Ok emoji))
          ∧ (res = Raise RuntimeError_deleted →
             let w2 := exec (UserEmoji_delete_record
                               {| urec_user_id := uid; urec_emoji_id := eid |}) w1 in
             trace w2 = trace w1 ++ [EvUserDelete uid]
             ∧ tbl_UserEmoji w2 !! uid = None
             ∧ fetch_user_emoji GUILDS LEAVE_FREE NOT_FOUND cascade (Some user) w
               = create_user_emoji GUILDS LEAVE_FREE cascade user w2).
Proof.
  split; [done|]. intros user uid w0. split.
  - intros Hb. unfold fetch_user_emoji. run. fold uid. by rewrite Hb.
  - intros eid Hb w1 res. split.
    + intros emoji Hres. unfold fetch_user_emoji. run. fold uid. rewrite Hb. simpl.
      fold w0. subst w1 res. unfold exec, outcome in *.
      destruct (fetch_emoji NOT_FOUND cascade (Some eid) w0) as [w1 r]. simpl in *.
      by subst r.
    + intros Hres w2. split; [done|]. split; [apply lookup_delete_eq|].
      unfold fetch_user_emoji. run. fold uid. rewrite Hb. simpl.
      fold w0. subst w2 w1 res. unfold exec, outcome in *. run.
      destruct (fetch_emoji NOT_FOUND cascade (Some eid) w0) as [w1 r]. simpl in *.
      by subst r.
Qed.

(** The scenario of an owner whose emoji was deleted on the platform: the
    row and the binding are replaced by those of a fresh emoji. *)
Example fetch_user_emoji_recreates :
  let w' := exec (fetch_user_emoji [guild_A] 2 not_found true (Some alice)) w_desynced in
  outcome (fetch_user_emoji [guild_A] 2 not_found true (Some alice)) w_desynced
  = Ok {| emoji_id := 100; emoji_name := "Alice0001"; emoji_guild_id := 1;
          emoji_animated := false |}
  ∧ tbl_UserEmoji w' !! 7 = Some 100
  ∧ tbl_Emoji w' !! 10 = None
  ∧ tbl_Emoji w' !! 100 = Some (row 1 50)
  ∧ trace w'
    = [EvUserFetchRow 7; EvEmojiFetchRow 10; EvEmojiUpdate 10 50; EvGetEmoji 10;
       EvEmojiDelete 10; EvUserDelete 7; EvDownloadAvatar 7;
       EvDiscordCreate 1 "Alice0001"; EvEmojiInsert 100 1; EvUserInsert 7 100].
Proof. repeat split; vm_compute; reflexivity. Qed.

Lemma C7_fetch_user_emoji_flow_witness :
  (tbl_UserEmoji w_stale !! 7 = None
   ∧ fetch_user_emoji [guild_A] 2 not_found true (Some alice) w_stale
     = create_user_emoji [guild_A] 2 true alice (log (EvUserFetchRow 7) w_stale))
  ∧ (tbl_UserEmoji w_room !! 7 = Some 10
     ∧ outcome (fetch_user_emoji [guild_A] 2 not_found true (Some alice)) w_room
       = Ok (to_discord_Emoji 10 (still 1)))
  ∧ (tbl_UserEmoji w_desynced !! 7 = Some 10
     ∧ outcome (fetch_emoji not_found true (Some 10)) (log (EvUserFetchRow 7) w_desynced)
       = Raise RuntimeError_deleted
     ∧ fetch_user_emoji [guild_A] 2 not_found true (Some alice) w_desynced
       = create_user_emoji [guild_A] 2 true alice
           (exec (UserEmoji_delete_record {| urec_user_id := 7; urec_emoji_id := 10 |})
              (exec (fetch_emoji not_found true (Some 10))
                 (log (EvUserFetchRow 7) w_desynced)))).
Proof.
  split; [|split].
  - assert (H : tbl_UserEmoji w_stale !! 7 = None) by (vm_compute; reflexivity).
    split; [exact H|].
    destruct (C7_fetch_user_emoji_flow [guild_A] 2 not_found true w_stale) as [_ Hu].
    destruct (Hu alice) as [Hnone _]. exact (Hnone H).
  - assert (H : tbl_UserEmoji w_room !! 7 = Some 10) by (vm_compute; reflexivity).
    split; [exact H|].
    destruct (C7_fetch_user_emoji_flow [guild_A] 2 not_found true w_room) as [_ Hu].
    destruct (Hu alice) as [_ Hsome]. destruct (Hsome 10 H) as [Hok _].
    unfold outcome at 1.
    rewrite (Hok (to_discord_Emoji 10 (still 1))); [done|vm_compute; reflexivity].
  - assert (H : tbl_UserEmoji w_desynced !! 7 = Some 10) by (vm_compute; reflexivity).
    assert (H' : outcome (fetch_emoji not_found true (Some 10))
                   (log (EvUserFetchRow 7) w_desynced) = Raise RuntimeError_deleted)
      by (vm_compute; reflexivity).
    split; [exact H|]. split; [exact H'|].
    destruct (C7_fetch_user_emoji_flow [guild_A] 2 not_found true w_desynced) as [_ Hu].
    destruct (Hu alice) as [_ Hsome]. destruct (Hsome 10 H) as [_ Hraise].
    destruct (Hraise H') as (_ & _ & Hflow). exact Hflow.
Defined.

(** ** C10: the recursion ends *)

(** C10, as the code has it.  A retry of [_find_guild] comes after the
    eviction of a row that was in [Emoji]: the table has exactly one row
    fewer, the evicted id is no longer in it, and the call goes on as a call
    from that world with one nested call fewer to spend.  So the rows left
    and the rows evicted add up to the rows of the start, and a limit of as
    many nested calls as there are rows, or more, is never reached and
    gives the run of [_find_guild].  Whatever the limit, the call ends: with
    a guild of the pool; with the error of the empty and full cache, once no
    row remains; with the [ValueError] of the sample, which takes a negative
    [LEAVE_FREE]; or with [RecursionError], which takes more rows than
    nested calls are allowed.  When [LEAVE_FREE] is not negative and the
    limit is at least the number of rows, the first two endings are the only
    ones. *)
Theorem C10_find_guild_terminates (GUILDS : list Guild) (LEAVE_FREE : Z)
    (cascade : bool) (w : World) :
  (∀ r, free_spaces GUILDS LEAVE_FREE w = [] →
        first_oldest (Emoji_records (tbl_Emoji w)) = Some r →
        let w1 := evicted cascade (rec_emoji_id r) w in
        is_Some (tbl_Emoji w !! rec_emoji_id r)
        ∧ tbl_Emoji w1 !! rec_emoji_id r = None
        ∧ S (size (tbl_Emoji w1)) = size (tbl_Emoji w)
        ∧ ∀ limit, _find_guild_rec GUILDS LEAVE_FREE cascade (S limit) w
                   = _find_guild_rec GUILDS LEAVE_FREE cascade limit w1)
  ∧ (∀ limit, (size (tbl_Emoji w) ≤ limit)%nat →
              _find_guild_rec GUILDS LEAVE_FREE cascade limit w
              = _find_guild GUILDS LEAVE_FREE cascade w
              ∧ outcome (_find_guild_rec GUILDS LEAVE_FREE cascade limit) w
                ≠ Raise RecursionError)
  ∧ (∀ limit,
       let w' := exec (_find_guild_rec GUILDS LEAVE_FREE cascade limit) w in
       let res := outcome (_find_guild_rec GUILDS LEAVE_FREE cascade limit) w in
       ∃ t,
         trace w' = trace w ++ t
         ∧ (size (tbl_Emoji w') + length (evicted_ids t))%nat = size (tbl_Emoji w)
         ∧ ((∃ g, res = Ok g ∧ g ∈ GUILDS)
            ∨ (res = Raise RuntimeError_empty_and_full ∧ tbl_Emoji w' = ∅)
            ∨ (res = Raise ValueError_sample ∧ LEAVE_FREE < 0)
            ∨ (res = Raise RecursionError ∧ (limit < size (tbl_Emoji w))%nat))
         ∧ (0 ≤ LEAVE_FREE → (size (tbl_Emoji w) ≤ limit)%nat →
            (∃ g, res = Ok g ∧ g ∈ GUILDS)
            ∨ (res = Raise RuntimeError_empty_and_full ∧ tbl_Emoji w' = ∅))).
Proof.
  split; [|split].
  - intros r Hfs Hold w1.
    destruct (evicted_facts cascade w r Hold) as (_ & _ & Ht & _ & _ & Hs).
    fold w1 in Ht, Hs.
    pose proof (first_oldest_is_oldest _ _ Hold) as [Hrow _].
    split; [by eexists|]. split; [rewrite Ht; apply lookup_delete_eq|].
    split; [done|]. intros limit. by apply find_guild_rec_retry.
  - intros limit Hlimit. split; [by apply find_guild_eq_rec|].
    destruct (find_guild_rec_post GUILDS LEAVE_FREE cascade limit w Hlimit)
      as (t & _ & _ & [(g & -> & _)|[(-> & _)|(-> & _)]]); done.
  - intros limit w' res.
    destruct (find_guild_rec_post_limit GUILDS LEAVE_FREE cascade limit w)
      as (t & [(Htr & Hsz & Hres)|(Htr & Hres & _ & Hlen & Hsz)]);
      fold w' in Htr, Hsz; fold res in Hres; exists t.
    + split; [done|]. split; [done|].
      destruct Hres as [(g & Hg & ? & _)|[(Hg & _ & _ & ?)|(Hg & ? & _)]].
      * split; [left; by exists g|]. intros _ _. left. by exists g.
      * split; [by right; left|]. intros _ _. by right.
      * split; [by right; right; left|]. intros Hpos _. lia.
    + split; [done|]. split; [lia|].
      split; [right; right; right; split; [done|lia]|].
      intros _ Hlimit. lia.
Qed.

Lemma C10_find_guild_terminates_witness :
  free_spaces [guild_A] 2 w_full = []
  ∧ first_oldest (Emoji_records (tbl_Emoji w_full)) = Some (to_EmojiRecord 10 (row 1 7))
  ∧ S (size (tbl_Emoji (evicted true 10 w_full))) = size (tbl_Emoji w_full)
  ∧ _find_guild_rec [guild_A] 2 true 1 w_full
    = _find_guild_rec [guild_A] 2 true 0 (evicted true 10 w_full)
  ∧ (size (tbl_Emoji w_full) ≤ 7)%nat
  ∧ _find_guild_rec [guild_A] 2 true 7 w_full = _find_guild [guild_A] 2 true w_full
  ∧ outcome (_find_guild_rec [guild_A] 2 true 7) w_full ≠ Raise RecursionError.
Proof.
  assert (H1 : free_spaces [guild_A] 2 w_full = []) by (vm_compute; reflexivity).
  assert (H2 : first_oldest (Emoji_records (tbl_Emoji w_full))
               = Some (to_EmojiRecord 10 (row 1 7))) by (vm_compute; reflexivity).
  assert (H3 : (size (tbl_Emoji w_full) ≤ 7)%nat) by (vm_compute; lia).
  destruct (C10_find_guild_terminates [guild_A] 2 true w_full) as (Hstep & Hfuel & _).
  destruct (Hstep _ H1 H2) as (_ & _ & Hs & Hretry).
  destruct (Hfuel 7%nat H3) as (Hsame & Hnot).
  split; [exact H1|]. split; [exact H2|]. split; [exact Hs|].
  split; [exact (Hretry 0%nat)|]. split; [exact H3|]. split; [exact Hsame|exact Hnot].
Defined.

(** C10 fails as stated: a call can end with neither a guild nor the error
    of the empty and full cache, and with rows left.  The one guild of the
    pool holds the two emoji it has room for, and a [LEAVE_FREE] of -1 lets
    it into [free_spaces] with a count of zero: the sample raises its
    [ValueError], whatever the limit on the depth of recursion, and nothing
    has been evicted. *)
Lemma C10_counterexample :
  let full := {| guild_id := 1; emoji_limit := 2 |} in
  free_spaces [full] (-1) w_room = [(full, 0)]
  ∧ _find_guild [full] (-1) true w_room = (w_room, Raise ValueError_sample)
  ∧ (∀ limit, _find_guild_rec [full] (-1) true limit w_room
              = (w_room, Raise ValueError_sample))
  ∧ tbl_Emoji w_room !! 10 = Some (row 1 7).
Proof.
  intros full.
  assert (H : free_spaces [full] (-1) w_room = [(full, 0)]) by (vm_compute; reflexivity).
  split; [exact H|]. split; [vm_compute; reflexivity|]. split; [|vm_compute; reflexivity].
  intros limit. rewrite find_guild_rec_pick by (by rewrite H).
  vm_compute; reflexivity.
Qed.

(** * Further properties of the cache *)

(** X2.  The selector creates nothing and rewrites nothing.  Whatever a call of
    [_find_guild] does, the emoji the platform has afterwards, the rows of
    [Emoji] and the bindings of [UserEmoji] were all there before the call,
    unchanged; the clock and the next id of the platform are as before.
    Without a cascading delete the bindings are exactly those of before. *)
Theorem X2_find_guild_only_removes (GUILDS : list Guild) (LEAVE_FREE : Z)
    (cascade : bool) (w : World) :
  let w' := exec (_find_guild GUILDS LEAVE_FREE cascade) w in
  (∀ eid info, discord_emojis w' !! eid = Some info → discord_emojis w !! eid = Some info)
  ∧ (∀ eid row, tbl_Emoji w' !! eid = Some row → tbl_Emoji w !! eid = Some row)
  ∧ (∀ uid eid, tbl_UserEmoji w' !! uid = Some eid → tbl_UserEmoji w !! uid = Some eid)
  ∧ (cascade = false → tbl_UserEmoji w' = tbl_UserEmoji w)
  ∧ clock w' = clock w
  ∧ next_snowflake w' = next_snowflake w.
Proof.
  destruct (find_guild_rec_frame GUILDS LEAVE_FREE cascade (size (tbl_Emoji w)) w)
    as (Hc & Hn & Hd & Ht & Hu & Hu').
  intros w'. repeat split; try done.
  - intros eid info H. by eapply lookup_weaken.
  - intros eid row H. by eapply lookup_weaken.
  - intros uid eid H. by eapply lookup_weaken.
Qed.

Lemma X2_find_guild_only_removes_witness :
  tbl_UserEmoji (exec (_find_guild [guild_A] 2 false) w_full) = tbl_UserEmoji w_full
  ∧ (∀ eid row, tbl_Emoji (exec (_find_guild [guild_A] 2 false) w_full) !! eid = Some row →
                tbl_Emoji w_full !! eid = Some row).
Proof.
  destruct (X2_find_guild_only_removes [guild_A] 2 false w_full)
    as (_ & Hrows & _ & Hsame & _).
  split; [exact (Hsame eq_refl)|exact Hrows].
Defined.

(** X1.  When some guild of the pool has more than [LEAVE_FREE] free slots, and
    [LEAVE_FREE] is not negative, [_find_guild] returns such a guild at once:
    it calls neither the store nor the platform, and the platform's emoji
    and the two tables are as before. *)
Theorem X1_find_guild_with_room (GUILDS : list Guild) (LEAVE_FREE : Z)
    (cascade : bool) (w : World) :
  0 ≤ LEAVE_FREE →
  ¬ pool_exhausted GUILDS LEAVE_FREE w →
  let w' := exec (_find_guild GUILDS LEAVE_FREE cascade) w in
  (∃ g, outcome (_find_guild GUILDS LEAVE_FREE cascade) w = Ok g
        ∧ g ∈ GUILDS ∧ LEAVE_FREE < total_free w g)
  ∧ trace w' = trace w
  ∧ discord_emojis w' = discord_emojis w
  ∧ tbl_Emoji w' = tbl_Emoji w
  ∧ tbl_UserEmoji w' = tbl_UserEmoji w.
Proof.
  intros Hpos Hroom w'. rewrite <- free_spaces_nil in Hroom.
  assert (Hrun : _find_guild GUILDS LEAVE_FREE cascade w
                 = random_sample_1 (free_spaces GUILDS LEAVE_FREE w).*1
                     (free_spaces GUILDS LEAVE_FREE w).*2 w).
  { unfold _find_guild. by apply find_guild_rec_pick. }
  destruct (random_sample_1_spec (free_spaces GUILDS LEAVE_FREE w) w Hroom)
    as (Hd & Ht & Hu & Htr & Hres).
  subst w'. unfold exec, outcome in *. rewrite Hrun.
  split; [|done].
  destruct Hres as [(g & c & Hg & Hin & Hc)|[_ Hsum]].
  - exists g. apply free_spaces_elem in Hin as (? & -> & ?). done.
  - exfalso.
    destruct (sum_not_positive (free_spaces GUILDS LEAVE_FREE w).*2) as (c & Hc & Hle);
      [by destruct (free_spaces GUILDS LEAVE_FREE w)|done|].
    apply list_elem_of_fmap in Hc as ([g c'] & -> & Hin).
    apply free_spaces_elem in Hin as (_ & _ & Hlt). simpl in Hle. lia.
Qed.

Lemma X1_find_guild_with_room_witness :
  0 ≤ 2
  ∧ ¬ pool_exhausted [guild_A] 2 w_room
  ∧ (∃ g, outcome (_find_guild [guild_A] 2 true) w_room = Ok g
          ∧ g ∈ [guild_A] ∧ 2 < total_free w_room g)
  ∧ trace (exec (_find_guild [guild_A] 2 true) w_room) = trace w_room.
Proof.
  assert (H1 : 0 ≤ 2) by lia.
  assert (H2 : ¬ pool_exhausted [guild_A] 2 w_room).
  { intros H. specialize (H guild_A ltac:(left)). revert H. vm_compute. by intros []. }
  destruct (X1_find_guild_with_room [guild_A] 2 true w_room H1 H2) as (Hg & Htr & _).
  split; [exact H1|]. split; [exact H2|]. split; [exact Hg|exact Htr].
Defined.

(** ** Induction along a run of the selector *)

(** A property of the calls of [_find_guild] holds of every call when it
    holds of the calls that sample at once, of those that find the table
    empty, and of a call that evicts as soon as it holds of the retry. *)
Lemma find_guild_ind (GUILDS : list Guild) (LEAVE_FREE : Z) (cascade : bool)
    (P : World → World → Result Guild → Prop) :
  (∀ w, free_spaces GUILDS LEAVE_FREE w ≠ [] →
        P w (exec (_find_guild GUILDS LEAVE_FREE cascade) w)
          (outcome (_find_guild GUILDS LEAVE_FREE cascade) w)) →
  (∀ w, free_spaces GUILDS LEAVE_FREE w = [] → tbl_Emoji w = ∅ →
        P w (log EvEmojiFetchOldest w) (Raise RuntimeError_empty_and_full)) →
  (∀ w r, free_spaces GUILDS LEAVE_FREE w = [] →
          first_oldest (Emoji_records (tbl_Emoji w)) = Some r →
          let w1 := evicted cascade (rec_emoji_id r) w in
          P w1 (exec (_find_guild GUILDS LEAVE_FREE cascade) w1)
            (outcome (_find_guild GUILDS LEAVE_FREE cascade) w1) →
          P w (exec (_find_guild GUILDS LEAVE_FREE cascade) w1)
            (outcome (_find_guild GUILDS LEAVE_FREE cascade) w1)) →
  ∀ w, P w (exec (_find_guild GUILDS LEAVE_FREE cascade) w)
         (outcome (_find_guild GUILDS LEAVE_FREE cascade) w).
Proof.
  intros Hpick Hfail Hstep.
  assert (H : ∀ n w, size (tbl_Emoji w) = n →
                     P w (exec (_find_guild GUILDS LEAVE_FREE cascade) w)
                       (outcome (_find_guild GUILDS LEAVE_FREE cascade) w));
    [|by eauto].
  induction n as [|n IH]; intros w Hn.
  all: destruct (free_spaces GUILDS LEAVE_FREE w) as [|[g0 c0] fs] eqn:Hfs;
    [|apply Hpick; by rewrite Hfs].
  all: destruct (first_oldest (Emoji_records (tbl_Emoji w))) as [r|] eqn:Hold.
  - destruct (evicted_facts cascade w r Hold) as (_ & _ & _ & _ & _ & Hs). lia.
  - unfold exec, outcome, _find_guild. rewrite find_guild_rec_fail by done.
    apply Hfail; [done|]. by apply first_oldest_empty.
  - destruct (evicted_facts cascade w r Hold) as (_ & _ & _ & _ & _ & Hs).
    unfold exec, outcome. rewrite (find_guild_retry _ _ _ _ r) by done.
    apply Hstep; [done..|]. apply IH. lia.
  - unfold exec, outcome, _find_guild. rewrite find_guild_rec_fail by done.
    apply Hfail; [done|]. by apply first_oldest_empty.
Qed.

(** ** Evictions free slots, oldest rows first *)

Lemma still_count_cons (e : EmojiInfo) (l : list EmojiInfo) :
  still_count (e :: l) = Z.b2z (negb (info_animated e)) + still_count l.
Proof. done. Qed.

Lemma still_count_Permutation (l1 l2 : list EmojiInfo) :
  l1 ≡ₚ l2 → still_count l1 = still_count l2.
Proof. induction 1; rewrite ?still_count_cons in *; simpl in *; lia. Qed.

Lemma total_free_delete_le (w w1 : World) (eid : Z) (g : Guild) :
  discord_emojis w1 = delete eid (discord_emojis w) →
  total_free w g ≤ total_free w1 g.
Proof.
  intros H1. destruct (discord_emojis w !! eid) as [info|] eqn:Hlive.
  - unfold total_free, guild_emojis. rewrite H1.
    rewrite (still_count_Permutation
               (filter _ (map_to_list (discord_emojis w)).*2)
               (filter (λ i, info_guild_id i = guild_id g)
                  ((eid, info) :: map_to_list (delete eid (discord_emojis w))).*2)).
    + rewrite fmap_cons. cbn [snd].
      destruct (decide (info_guild_id info = guild_id g)) as [Hg|Hg].
      * rewrite filter_cons_True by done. rewrite still_count_cons.
        destruct (info_animated info); cbn [negb Z.b2z]; lia.
      * rewrite filter_cons_False by done. lia.
    + apply filter_Permutation, fmap_Permutation. symmetry. by apply map_to_list_delete.
  - rewrite delete_id in H1 by done. rewrite (total_free_ext w w1 g); [lia|done].
Qed.

(** X4.  The selector never costs a guild a free slot: every guild has, after a
    call of [_find_guild], at least the free slots it had before. *)
Theorem X4_find_guild_never_reduces_free (GUILDS : list Guild) (LEAVE_FREE : Z)
    (cascade : bool) (w : World) (g : Guild) :
  total_free w g ≤ total_free (exec (_find_guild GUILDS LEAVE_FREE cascade) w) g.
Proof.
  revert g.
  apply (find_guild_ind GUILDS LEAVE_FREE cascade
           (λ w w' _, ∀ g, total_free w g ≤ total_free w' g)); clear w.
  - intros w Hfs g.
    assert (Hrun : _find_guild GUILDS LEAVE_FREE cascade w
                   = random_sample_1 (free_spaces GUILDS LEAVE_FREE w).*1
                       (free_spaces GUILDS LEAVE_FREE w).*2 w).
    { unfold _find_guild. by apply find_guild_rec_pick. }
    destruct (random_sample_1_spec (free_spaces GUILDS LEAVE_FREE w) w Hfs) as (Hd & _).
    unfold exec in *. rewrite Hrun. rewrite (total_free_ext _ w g Hd). lia.
  - intros w _ _ g. rewrite (total_free_ext (log EvEmojiFetchOldest w) w g); [lia|done].
  - intros w r Hfs Hold w1 IH g.
    destruct (evicted_facts cascade w r Hold) as (_ & Hd & _).
    pose proof (total_free_delete_le w w1 _ g Hd). specialize (IH g). lia.
Qed.

(** X3.  The selector evicts the least recently fetched rows: no row it evicts
    was fetched later than a row it keeps. *)
Theorem X3_find_guild_evicts_oldest (GUILDS : list Guild) (LEAVE_FREE : Z)
    (cascade : bool) (w : World) (t : list Event) (e k : Z) (row_e row_k : EmojiRow) :
  let w' := exec (_find_guild GUILDS LEAVE_FREE cascade) w in
  trace w' = trace w ++ t →
  e ∈ evicted_ids t →
  tbl_Emoji w !! e = Some row_e →
  tbl_Emoji w' !! k = Some row_k →
  row_last_fetched row_e ≤ row_last_fetched row_k.
Proof.
  revert t e k row_e row_k.
  apply (find_guild_ind GUILDS LEAVE_FREE cascade
           (λ w w' _, ∀ t e k row_e row_k,
              trace w' = trace w ++ t → e ∈ evicted_ids t →
              tbl_Emoji w !! e = Some row_e → tbl_Emoji w' !! k = Some row_k →
              row_last_fetched row_e ≤ row_last_fetched row_k)); clear w.
  - intros w Hfs t e k row_e row_k Ht He.
    rewrite find_guild_trace_pick in Ht by done.
    rewrite <- (app_nil_r (trace w)) in Ht at 1. apply app_inv_head in Ht. subst t.
    inversion He.
  - intros w _ _ t e k row_e row_k Ht He. simpl in Ht.
    apply app_inv_head in Ht. subst t. inversion He.
  - intros w r Hfs Hold w1 IH t e k row_e row_k Ht He Hrow_e Hrow_k.
    destruct (evicted_facts cascade w r Hold) as (_ & _ & Htbl & _ & Htr & _).
    fold w1 in Htbl, Htr.
    destruct (find_guild_post_holds GUILDS LEAVE_FREE cascade w1) as (t1 & Ht1 & _).
    rewrite Ht1, Htr, <- app_assoc in Ht. apply app_inv_head in Ht. subst t.
    rewrite evicted_ids_app, evicted_ids_eviction in He.
    destruct (find_guild_rec_frame GUILDS LEAVE_FREE cascade (size (tbl_Emoji w1)) w1)
      as (_ & _ & _ & Hsub & _).
    pose proof (lookup_weaken _ _ _ _ Hrow_k Hsub) as Hk1. rewrite Htbl in Hk1.
    destruct (decide (e = rec_emoji_id r)) as [->|Hne].
    + apply first_oldest_is_oldest in Hold as [Hr Hleast].
      rewrite Hr in Hrow_e. injection Hrow_e as <-. simpl.
      apply lookup_delete_Some in Hk1 as [_ Hk1]. by apply (Hleast k).
    + apply elem_of_cons in He as [->|He]; [done|].
      apply (IH t1 e k row_e row_k Ht1 He); [|done].
      rewrite Htbl. by rewrite lookup_delete_ne.
Qed.

Lemma X3_find_guild_evicts_oldest_witness :
  trace (exec (_find_guild [guild_A] 2 true) w_full)
  = trace w_full ++ trace (exec (_find_guild [guild_A] 2 true) w_full)
  ∧ 10 ∈ evicted_ids (trace (exec (_find_guild [guild_A] 2 true) w_full))
  ∧ tbl_Emoji w_full !! 10 = Some (row 1 7)
  ∧ tbl_Emoji (exec (_find_guild [guild_A] 2 true) w_full) !! 11 = Some (row 1 8)
  ∧ row_last_fetched (row 1 7) ≤ row_last_fetched (row 1 8).
Proof.
  assert (H1 : trace (exec (_find_guild [guild_A] 2 true) w_full)
               = trace w_full ++ trace (exec (_find_guild [guild_A] 2 true) w_full))
    by reflexivity.
  assert (H2 : 10 ∈ evicted_ids (trace (exec (_find_guild [guild_A] 2 true) w_full))).
  { replace (evicted_ids _) with [10] by (vm_compute; reflexivity). left. }
  assert (H3 : tbl_Emoji w_full !! 10 = Some (row 1 7)) by (vm_compute; reflexivity).
  assert (H4 : tbl_Emoji (exec (_find_guild [guild_A] 2 true) w_full) !! 11
               = Some (row 1 8)) by (vm_compute; reflexivity).
  split; [exact H1|]. split; [exact H2|]. split; [exact H3|]. split; [exact H4|].
  exact (X3_find_guild_evicts_oldest [guild_A] 2 true w_full _ 10 11 _ _ H1 H2 H3 H4).
Defined.

(** ** The weights of the sample *)

Lemma dict_set_keys (d : list (Guild * Z)) (g : Guild) (v : Z) :
  (dict_set d g v).*1 = if decide (g ∈ d.*1) then d.*1 else d.*1 ++ [g].
Proof.
  induction d as [|[g0 v0] d IH].
  - cbn [dict_set fmap list_fmap fst]. case_decide as H; [inversion H|done].
  - cbn [dict_set]. destruct (decide (g0 = g)) as [->|Hne].
    + rewrite !fmap_cons. cbn [fst].
      destruct (decide (g ∈ g :: d.*1)) as [_|H]; [done|]. exfalso. apply H. left.
    + rewrite !fmap_cons, IH. cbn [fst].
      destruct (decide (g ∈ d.*1)) as [Hin|Hnin];
        destruct (decide (g ∈ g0 :: d.*1)) as [H|H]; try done.
      * exfalso. apply H. by right.
      * apply elem_of_cons in H as [->|H]; done.
Qed.

Lemma dict_set_NoDup (d : list (Guild * Z)) (g : Guild) (v : Z) :
  NoDup d.*1 → NoDup (dict_set d g v).*1.
Proof.
  intros H. rewrite dict_set_keys. destruct (decide (g ∈ d.*1)); [done|].
  apply NoDup_app. split; [done|]. split; [|apply NoDup_singleton].
  intros x Hx Hx'. apply list_elem_of_singleton in Hx'. by subst.
Qed.

(** A guild is entered once in [free_spaces], however often the pool
    names it. *)
Lemma free_spaces_NoDup (GUILDS : list Guild) (LEAVE_FREE : Z) (w : World) :
  NoDup (free_spaces GUILDS LEAVE_FREE w).*1.
Proof.
  unfold free_spaces, free_spaces_from.
  assert (H : ∀ gs d, NoDup d.*1 → NoDup (foldl (free_spaces_step LEAVE_FREE w) d gs).*1);
    [|apply H; constructor].
  induction gs as [|a gs IH]; intros d Hd; simpl; [done|].
  apply IH. unfold free_spaces_step.
  destruct (LEAVE_FREE <? total_free w a); [by apply dict_set_NoDup|done].
Qed.

Lemma prefix_sum_mono (l : list Z) (i j : nat) :
  (∀ c, c ∈ l → 0 ≤ c) → (i ≤ j)%nat → prefix_sum l i ≤ prefix_sum l j.
Proof.
  intros Hpos Hij. induction Hij as [|j Hij IH]; [lia|].
  destruct (l !! j) as [c|] eqn:E.
  - rewrite (prefix_sum_S _ _ _ E).
    pose proof (Hpos c (list_elem_of_lookup_2 _ _ _ E)). lia.
  - apply lookup_ge_None in E.
    rewrite (prefix_sum_all l (S j)) by lia. rewrite <- (prefix_sum_all l j) by lia. done.
Qed.

(** The shares of two entries with positive counts do not overlap. *)
Lemma shares_apart (l : list Z) (i j : nat) (c c' s : Z) :
  (∀ c, c ∈ l → 0 ≤ c) →
  l !! i = Some c → l !! j = Some c' →
  prefix_sum l i ≤ s < prefix_sum l i + c →
  prefix_sum l j ≤ s < prefix_sum l j + c' →
  i = j.
Proof.
  intros Hpos Hi Hj Hsi Hsj.
  destruct (Nat.lt_trichotomy i j) as [Hlt|[Heq|Hgt]]; [exfalso|done|exfalso].
  - pose proof (prefix_sum_mono l (S i) j Hpos ltac:(lia)) as H.
    rewrite (prefix_sum_S _ _ _ Hi) in H. lia.
  - pose proof (prefix_sum_mono l (S j) i Hpos ltac:(lia)) as H.
    rewrite (prefix_sum_S _ _ _ Hj) in H. lia.
Qed.

(** X5.  The guild is drawn with its free slots as weight.  With a
    [LEAVE_FREE] that is not negative, every guild of [free_spaces] is
    entered once, with its free slots, which are positive, as count.  The
    counts, in the order of [free_spaces], cut the numbers below their total
    into shares, that of a guild being as long as its count.
    [_find_guild] reduces the draw below the total, and returns a guild
    exactly when this number falls in the share of the guild. *)
Theorem X5_sample_weights (GUILDS : list Guild) (LEAVE_FREE : Z) (cascade : bool)
    (w : World) (i : nat) (g : Guild) (c : Z) :
  0 ≤ LEAVE_FREE →
  free_spaces GUILDS LEAVE_FREE w !! i = Some (g, c) →
  let fs := free_spaces GUILDS LEAVE_FREE w in
  let total := foldr Z.add 0 fs.*2 in
  let start := prefix_sum fs.*2 i in
  let selection := Z.of_nat (hd 0%nat (entropy w)) `mod` total in
  c = total_free w g
  ∧ 0 < c
  ∧ NoDup fs.*1
  ∧ 0 ≤ start ∧ start + c ≤ total
  ∧ 0 ≤ selection < total
  ∧ (outcome (_find_guild GUILDS LEAVE_FREE cascade) w = Ok g
     ↔ start ≤ selection < start + c).
Proof.
  intros Hleave Hi fs total start selection. fold fs in Hi.
  assert (Hne : fs ≠ []) by (intros E; by rewrite E in Hi).
  assert (Hall : ∀ c', c' ∈ fs.*2 → 0 < c').
  { intros c' Hc'. apply list_elem_of_fmap in Hc' as ([g' c''] & -> & Hin).
    apply free_spaces_elem in Hin as (_ & _ & Hlt). simpl. lia. }
  assert (Hpos : ∀ c', c' ∈ fs.*2 → 0 ≤ c') by (intros c' Hc'; specialize (Hall c' Hc'); lia).
  assert (Htotal : 0 < total).
  { destruct (decide (0 < total)) as [|Hle]; [done|].
    destruct (sum_not_positive fs.*2) as (c' & Hc' & Hle'); [by destruct fs|lia|].
    specialize (Hall c' Hc'). lia. }
  assert (Hc : fs.*2 !! i = Some c) by (by rewrite list_lookup_fmap, Hi).
  assert (Hg : fs.*1 !! i = Some g) by (by rewrite list_lookup_fmap, Hi).
  pose proof (free_spaces_NoDup GUILDS LEAVE_FREE w) as Hnd. fold fs in Hnd.
  split; [by apply list_elem_of_lookup_2, free_spaces_elem in Hi as (_ & -> & _)|].
  split; [apply Hall; by eapply list_elem_of_lookup_2|].
  split; [done|].
  split; [apply (prefix_sum_mono fs.*2 0 i Hpos); lia|].
  split.
  { subst start total. rewrite <- (prefix_sum_S _ _ _ Hc).
    rewrite <- (prefix_sum_all fs.*2 (length fs.*2)) by done.
    apply prefix_sum_mono; [done|]. apply lookup_lt_Some in Hc. lia. }
  split; [by apply Z.mod_pos_bound|].
  destruct (random_sample_1_run fs w Hne) as [_ Hdrawn].
  destruct (Hdrawn Htotal) as (j & g' & c' & Hj & Hs & Hrun).
  fold total selection in Hs.
  assert (Hc' : fs.*2 !! j = Some c') by (by rewrite list_lookup_fmap, Hj).
  assert (Hg' : fs.*1 !! j = Some g') by (by rewrite list_lookup_fmap, Hj).
  unfold outcome, _find_guild. rewrite find_guild_rec_pick by done. fold fs.
  rewrite Hrun. cbn [snd]. split.
  - intros [= <-]. assert (i = j) as Hij by (by eapply (NoDup_lookup fs.*1)).
    subst start. rewrite Hij in *. assert (c = c') as -> by congruence. exact Hs.
  - intros Hshare. assert (i = j) as Hij by (by eapply shares_apart).
    rewrite Hij in *. congruence.
Qed.

Lemma X5_sample_weights_witness :
  let w := set_entropy [5%nat] w_room in
  0 ≤ 2
  ∧ free_spaces [guild_A; guild_B] 2 w = [(guild_A, 3); (guild_B, 4)]
  ∧ 3 ≤ 5 `mod` 7 < 3 + 4
  ∧ outcome (_find_guild [guild_A; guild_B] 2 true) w = Ok guild_B.
Proof.
  intros w.
  assert (H1 : 0 ≤ 2) by lia.
  assert (H2 : free_spaces [guild_A; guild_B] 2 w = [(guild_A, 3); (guild_B, 4)])
    by (vm_compute; reflexivity).
  assert (H3 : free_spaces [guild_A; guild_B] 2 w !! 1%nat = Some (guild_B, 4))
    by (vm_compute; reflexivity).
  assert (H4 : 3 ≤ 5 `mod` 7 < 3 + 4) by (vm_compute; split; [discriminate|reflexivity]).
  destruct (X5_sample_weights [guild_A; guild_B] 2 true w 1 guild_B 4 H1 H3)
    as (_ & _ & _ & _ & _ & _ & Hiff).
  split; [exact H1|]. split; [exact H2|]. split; [exact H4|].
  apply Hiff. rewrite H2. exact H4.
Defined.

(** ** [create_emoji] and [create_user_emoji] *)

Lemma find_guild_frame (GUILDS : list Guild) (LEAVE_FREE : Z) (cascade : bool) (w : World) :
  let w1 := exec (_find_guild GUILDS LEAVE_FREE cascade) w in
  clock w1 = clock w ∧ next_snowflake w1 = next_snowflake w
  ∧ discord_emojis w1 ⊆ discord_emojis w
  ∧ tbl_Emoji w1 ⊆ tbl_Emoji w
  ∧ tbl_UserEmoji w1 ⊆ tbl_UserEmoji w.
Proof.
  destruct (find_guild_rec_frame GUILDS LEAVE_FREE cascade (size (tbl_Emoji w)) w)
    as (? & ? & ? & ? & ? & _).
  done.
Qed.

(** The run of [create_emoji] when the selector returns [g] and the id the
    platform gives has no row yet. *)
Lemma create_emoji_run (GUILDS : list Guild) (LEAVE_FREE : Z) (cascade : bool)
    (name : string) (image : Image) (w : World) (g : Guild) :
  outcome (_find_guild GUILDS LEAVE_FREE cascade) w = Ok g →
  tbl_Emoji w !! next_snowflake w = None →
  let w1 := exec (_find_guild GUILDS LEAVE_FREE cascade) w in
  let w' := exec (create_emoji GUILDS LEAVE_FREE cascade name image) w in
  let eid := next_snowflake w in
  let info := {| info_name := name; info_guild_id := guild_id g;
                 info_animated := image_animated image |} in
  outcome (create_emoji GUILDS LEAVE_FREE cascade name image) w
  = Ok (to_discord_Emoji eid info)
  ∧ discord_emojis w' = <[eid := info]> (discord_emojis w1)
  ∧ tbl_Emoji w'
    = <[eid := {| row_guild_id := guild_id g;
                  row_last_fetched := default_last_fetched w1 |}]> (tbl_Emoji w1)
  ∧ tbl_UserEmoji w' = tbl_UserEmoji w1
  ∧ trace w' = trace w1 ++ [EvDiscordCreate (guild_id g) name; EvEmojiInsert eid (guild_id g)]
  ∧ next_snowflake w' = eid + 1
  ∧ clock w' = clock w.
Proof.
  intros Hok Hfresh w1 w' eid info.
  destruct (find_guild_frame GUILDS LEAVE_FREE cascade w) as (Hc & Hn & _ & Ht & _).
  fold w1 in Hc, Hn, Ht.
  assert (Hfresh1 : tbl_Emoji w1 !! next_snowflake w1 = None).
  { rewrite Hn. by eapply lookup_weaken_None'. }
  subst w' w1 eid. unfold exec, outcome, create_emoji in *. run.
  destruct (_find_guild GUILDS LEAVE_FREE cascade w) as [w1 res]. simpl in *.
  subst res. simpl. rewrite Hfresh1. simpl. rewrite <- Hn, Hc, <- app_assoc.
  done.
Qed.

(** X6.  [create_emoji], when the selector returns a guild and the id the
    platform gives is new to [Emoji], returns the emoji that the platform
    made in that guild, with the name asked, animated if the image is.  The
    client has it under its id, and [Emoji] has a row for the id with the
    guild.  Nothing else is created: the other emoji and rows are those the
    selector left, and no binding is touched. *)
Theorem X6_create_emoji_creates (GUILDS : list Guild) (LEAVE_FREE : Z) (cascade : bool)
    (name : string) (image : Image) (w : World) (g : Guild) :
  outcome (_find_guild GUILDS LEAVE_FREE cascade) w = Ok g →
  tbl_Emoji w !! next_snowflake w = None →
  let w1 := exec (_find_guild GUILDS LEAVE_FREE cascade) w in
  let w' := exec (create_emoji GUILDS LEAVE_FREE cascade name image) w in
  let eid := next_snowflake w in
  let emoji := {| emoji_id := eid; emoji_name := name; emoji_guild_id := guild_id g;
                  emoji_animated := image_animated image |} in
  outcome (create_emoji GUILDS LEAVE_FREE cascade name image) w = Ok emoji
  ∧ g ∈ GUILDS
  ∧ outcome (get_emoji eid) w' = Ok (Some emoji)
  ∧ row_guild_id <$> tbl_Emoji w' !! eid = Some (guild_id g)
  ∧ (∀ k, k ≠ eid → discord_emojis w' !! k = discord_emojis w1 !! k
                    ∧ tbl_Emoji w' !! k = tbl_Emoji w1 !! k)
  ∧ tbl_UserEmoji w' = tbl_UserEmoji w1
  ∧ trace w' = trace w1 ++ [EvDiscordCreate (guild_id g) name; EvEmojiInsert eid (guild_id g)].
Proof.
  intros Hok Hfresh w1 w' eid emoji.
  destruct (create_emoji_run GUILDS LEAVE_FREE cascade name image w g Hok Hfresh)
    as (Hout & Hd & Ht & Hu & Htr & _).
  fold w1 w' eid in Hout, Hd, Ht, Hu, Htr.
  split; [done|]. split.
  { destruct (find_guild_post_holds GUILDS LEAVE_FREE cascade w)
      as (t & _ & _ & [(g' & Hg' & ? & _)|[[Hg' _]|[Hg' _]]]);
      rewrite Hok in Hg'; [|done..].
    by injection Hg' as ->. }
  split; [unfold outcome; run; by rewrite Hd, lookup_insert_eq|].
  rewrite Hd, Ht. split; [by rewrite lookup_insert_eq|].
  split; [|done]. intros k Hk. by rewrite !lookup_insert_ne.
Qed.

Lemma X6_create_emoji_creates_witness :
  outcome (_find_guild [guild_A] 2 true) w_full = Ok guild_A
  ∧ tbl_Emoji w_full !! next_snowflake w_full = None
  ∧ outcome (create_emoji [guild_A] 2 true "new" (ImageBytes true)) w_full
    = Ok {| emoji_id := 100; emoji_name := "new"; emoji_guild_id := 1;
            emoji_animated := true |}
  ∧ row_guild_id
      <$> tbl_Emoji (exec (create_emoji [guild_A] 2 true "new" (ImageBytes true)) w_full) !! 100
    = Some 1.
Proof.
  assert (H1 : outcome (_find_guild [guild_A] 2 true) w_full = Ok guild_A)
    by (vm_compute; reflexivity).
  assert (H2 : tbl_Emoji w_full !! next_snowflake w_full = None)
    by (vm_compute; reflexivity).
  destruct (X6_create_emoji_creates [guild_A] 2 true "new" (ImageBytes true) w_full
              guild_A H1 H2) as (Hout & _ & _ & Hrow & _).
  split; [exact H1|]. split; [exact H2|]. split; [exact Hout|exact Hrow].
Defined.

(** The run of [create_user_emoji] for a user without a binding. *)
Lemma create_user_emoji_run (GUILDS : list Guild) (LEAVE_FREE : Z) (cascade : bool)
    (user : User) (w : World) (g : Guild) :
  let w0 := log (EvDownloadAvatar (user_id user)) w in
  outcome (_find_guild GUILDS LEAVE_FREE cascade) w0 = Ok g →
  tbl_Emoji w !! next_snowflake w = None →
  tbl_UserEmoji w !! user_id user = None →
  let w1 := exec (_find_guild GUILDS LEAVE_FREE cascade) w0 in
  let w' := exec (create_user_emoji GUILDS LEAVE_FREE cascade user) w in
  let eid := next_snowflake w in
  let info := {| info_name := user_emoji_name user; info_guild_id := guild_id g;
                 info_animated := false |} in
  outcome (create_user_emoji GUILDS LEAVE_FREE cascade user) w
  = Ok (to_discord_Emoji eid info)
  ∧ discord_emojis w' = <[eid := info]> (discord_emojis w1)
  ∧ tbl_Emoji w'
    = <[eid := {| row_guild_id := guild_id g;
                  row_last_fetched := default_last_fetched w1 |}]> (tbl_Emoji w1)
  ∧ tbl_UserEmoji w' = <[user_id user := eid]> (tbl_UserEmoji w1)
  ∧ trace w'
    = trace w1 ++ [EvDiscordCreate (guild_id g) (user_emoji_name user);
                   EvEmojiInsert eid (guild_id g); EvUserInsert (user_id user) eid]
  ∧ clock w' = clock w.
Proof.
  intros w0 Hok Hfresh Hnone w1 w' eid info.
  destruct (create_emoji_run GUILDS LEAVE_FREE cascade (user_emoji_name user)
              (AvatarOf (user_id user)) w0 g Hok Hfresh)
    as (Hout & Hd & Ht & Hu & Htr & _ & Hc).
  fold w1 in Hd, Ht, Hu, Htr.
  destruct (find_guild_frame GUILDS LEAVE_FREE cascade w0) as (_ & _ & _ & _ & Hsub).
  fold w1 in Hsub.
  pose proof (lookup_weaken_None' _ _ _ Hsub Hnone) as Hnone1.
  subst w'. unfold exec, outcome, create_user_emoji in *. run. fold w0.
  destruct (create_emoji GUILDS LEAVE_FREE cascade (user_emoji_name user)
              (AvatarOf (user_id user)) w0) as [w2 res]. simpl in *.
  subst res. simpl. rewrite Hu, Hnone1. simpl. rewrite Htr, <- app_assoc.
  by rewrite Hd, Ht, Hu, Hc.
Qed.

(** X8.  [create_user_emoji], for a user who has no binding, when the selector
    returns a guild and the id the platform gives is new to [Emoji], returns
    the emoji that the platform made in that guild of the user's avatar, a
    still image, under the name that [user_emoji_name] makes of the user's
    name and discriminator.  [Emoji] has a row for it with the guild, and
    the user is bound to it; the other bindings are those the selector
    left. *)
Theorem X8_create_user_emoji_binds (GUILDS : list Guild) (LEAVE_FREE : Z) (cascade : bool)
    (user : User) (w : World) (g : Guild) :
  let w0 := log (EvDownloadAvatar (user_id user)) w in
  outcome (_find_guild GUILDS LEAVE_FREE cascade) w0 = Ok g →
  tbl_Emoji w !! next_snowflake w = None →
  tbl_UserEmoji w !! user_id user = None →
  let w1 := exec (_find_guild GUILDS LEAVE_FREE cascade) w0 in
  let w' := exec (create_user_emoji GUILDS LEAVE_FREE cascade user) w in
  let eid := next_snowflake w in
  let emoji := {| emoji_id := eid; emoji_name := user_emoji_name user;
                  emoji_guild_id := guild_id g; emoji_animated := false |} in
  outcome (create_user_emoji GUILDS LEAVE_FREE cascade user) w = Ok emoji
  ∧ tbl_UserEmoji w' !! user_id user = Some eid
  ∧ (∀ uid, uid ≠ user_id user → tbl_UserEmoji w' !! uid = tbl_UserEmoji w1 !! uid)
  ∧ row_guild_id <$> tbl_Emoji w' !! eid = Some (guild_id g)
  ∧ outcome (get_emoji eid) w' = Ok (Some emoji)
  ∧ ∃ t, trace w' = trace w ++ [EvDownloadAvatar (user_id user)] ++ t
         ++ [EvDiscordCreate (guild_id g) (user_emoji_name user);
             EvEmojiInsert eid (guild_id g); EvUserInsert (user_id user) eid].
Proof.
  intros w0 Hok Hfresh Hnone w1 w' eid emoji.
  destruct (create_user_emoji_run GUILDS LEAVE_FREE cascade user w g Hok Hfresh Hnone)
    as (Hout & Hd & Ht & Hu & Htr & _).
  fold w0 w1 w' eid in Hout, Hd, Ht, Hu, Htr.
  split; [done|]. rewrite Ht, Hu.
  split; [apply lookup_insert_eq|]. split; [intros uid Hne; by rewrite lookup_insert_ne|].
  split; [by rewrite lookup_insert_eq|].
  split; [unfold outcome; run; by rewrite Hd, lookup_insert_eq|].
  destruct (find_guild_post_holds GUILDS LEAVE_FREE cascade w0) as (t & Ht0 & _).
  fold w1 in Ht0. exists t. rewrite Htr, Ht0. simpl. by rewrite <- !app_assoc.
Qed.

Lemma X8_create_user_emoji_binds_witness :
  outcome (_find_guild [guild_A] 2 true) (log (EvDownloadAvatar (user_id bob)) w_room)
  = Ok guild_A
  ∧ tbl_Emoji w_room !! next_snowflake w_room = None
  ∧ tbl_UserEmoji w_room !! user_id bob = None
  ∧ outcome (create_user_emoji [guild_A] 2 true bob) w_room
    = Ok {| emoji_id := 100; emoji_name := "Bob_the2ndesquireofsome4821";
            emoji_guild_id := 1; emoji_animated := false |}
  ∧ tbl_UserEmoji (exec (create_user_emoji [guild_A] 2 true bob) w_room) !! 9 = Some 100.
Proof.
  assert (H1 : outcome (_find_guild [guild_A] 2 true)
                 (log (EvDownloadAvatar (user_id bob)) w_room) = Ok guild_A)
    by (vm_compute; reflexivity).
  assert (H2 : tbl_Emoji w_room !! next_snowflake w_room = None)
    by (vm_compute; reflexivity).
  assert (H3 : tbl_UserEmoji w_room !! user_id bob = None) by (vm_compute; reflexivity).
  destruct (X8_create_user_emoji_binds [guild_A] 2 true bob w_room guild_A H1 H2 H3)
    as (Hout & Hb & _).
  split; [exact H1|]. split; [exact H2|]. split; [exact H3|]. split; [exact Hout|exact Hb].
Defined.

(** ** Fetching what was created *)

(** [fetch_user_emoji] for a user bound to a cached emoji that the platform
    has. *)
Lemma fetch_user_emoji_bound_live (GUILDS : list Guild) (LEAVE_FREE : Z)
    (NOT_FOUND : discord_Emoji) (cascade : bool) (user : User) (eid : Z)
    (row : EmojiRow) (info : EmojiInfo) (w : World) :
  tbl_UserEmoji w !! user_id user = Some eid →
  tbl_Emoji w !! eid = Some row →
  discord_emojis w !! eid = Some info →
  let w' := exec (fetch_user_emoji GUILDS LEAVE_FREE NOT_FOUND cascade (Some user)) w in
  outcome (fetch_user_emoji GUILDS LEAVE_FREE NOT_FOUND cascade (Some user)) w
  = Ok (to_discord_Emoji eid info)
  ∧ discord_emojis w' = discord_emojis w
  ∧ tbl_UserEmoji w' = tbl_UserEmoji w
  ∧ tbl_Emoji w' !! eid
    = Some {| row_guild_id := row_guild_id row; row_last_fetched := clock w |}
  ∧ (∀ k, k ≠ eid → tbl_Emoji w' !! k = tbl_Emoji w !! k)
  ∧ trace w'
    = trace w ++ [EvUserFetchRow (user_id user); EvEmojiFetchRow eid;
                  EvEmojiUpdate eid (clock w); EvGetEmoji eid].
Proof.
  intros Hb Hrow Hlive w'.
  destruct (fetch_emoji_live NOT_FOUND cascade eid (log (EvUserFetchRow (user_id user)) w)
              row info Hrow Hlive) as (Hout & Hd & Ht & Hk & Hu & Htr).
  subst w'. unfold exec, outcome, fetch_user_emoji in *. run. rewrite Hb. simpl.
  destruct (fetch_emoji NOT_FOUND cascade (Some eid) (log (EvUserFetchRow (user_id user)) w))
    as [w1 res]. simpl in *. subst res. simpl.
  rewrite <- app_assoc in Htr. done.
Qed.

(** X10.  What [create_user_emoji] made, [fetch_user_emoji] finds.  After
    [create_user_emoji] has made an emoji for a user who had no binding,
    [fetch_user_emoji] for the same user
    returns that emoji, and it creates nothing: it reads the binding and the
    row, writes the time of the fetch to the row and asks the client for the
    emoji, no more. *)
Theorem X10_create_then_fetch (GUILDS : list Guild) (LEAVE_FREE : Z)
    (NOT_FOUND : discord_Emoji) (cascade : bool) (user : User) (w : World) (g : Guild)
    (emoji : discord_Emoji) :
  outcome (_find_guild GUILDS LEAVE_FREE cascade) (log (EvDownloadAvatar (user_id user)) w)
  = Ok g →
  tbl_Emoji w !! next_snowflake w = None →
  tbl_UserEmoji w !! user_id user = None →
  outcome (create_user_emoji GUILDS LEAVE_FREE cascade user) w = Ok emoji →
  let w' := exec (create_user_emoji GUILDS LEAVE_FREE cascade user) w in
  let w'' := exec (fetch_user_emoji GUILDS LEAVE_FREE NOT_FOUND cascade (Some user)) w' in
  outcome (fetch_user_emoji GUILDS LEAVE_FREE NOT_FOUND cascade (Some user)) w' = Ok emoji
  ∧ discord_emojis w'' = discord_emojis w'
  ∧ tbl_UserEmoji w'' = tbl_UserEmoji w'
  ∧ trace w''
    = trace w' ++ [EvUserFetchRow (user_id user); EvEmojiFetchRow (emoji_id emoji);
                   EvEmojiUpdate (emoji_id emoji) (clock w); EvGetEmoji (emoji_id emoji)].
Proof.
  intros Hok Hfresh Hnone Hemoji w' w''.
  destruct (create_user_emoji_run GUILDS LEAVE_FREE cascade user w g Hok Hfresh Hnone)
    as (Hout & Hd & Ht & Hu & _ & Hc).
  fold w' in Hd, Ht, Hu, Hc.
  rewrite Hemoji in Hout. injection Hout as ->.
  assert (Hb : tbl_UserEmoji w' !! user_id user = Some (next_snowflake w))
    by (rewrite Hu; apply lookup_insert_eq).
  assert (Hrow : ∃ row, tbl_Emoji w' !! next_snowflake w = Some row)
    by (rewrite Ht; eexists; apply lookup_insert_eq).
  destruct Hrow as [row Hrow].
  assert (Hlive : discord_emojis w' !! next_snowflake w
                  = Some {| info_name := user_emoji_name user;
                            info_guild_id := guild_id g; info_animated := false |})
    by (rewrite Hd; apply lookup_insert_eq).
  destruct (fetch_user_emoji_bound_live GUILDS LEAVE_FREE NOT_FOUND cascade user _ _ _ w'
              Hb Hrow Hlive) as (Hout' & Hd' & Hu' & _ & _ & Htr').
  fold w'' in Hd', Hu', Htr'. rewrite Hc in Htr'. done.
Qed.

Lemma X10_create_then_fetch_witness :
  let created := {| emoji_id := 100; emoji_name := "Bob_the2ndesquireofsome4821";
                    emoji_guild_id := 1; emoji_animated := false |} in
  outcome (_find_guild [guild_A] 2 true) (log (EvDownloadAvatar (user_id bob)) w_room)
  = Ok guild_A
  ∧ tbl_Emoji w_room !! next_snowflake w_room = None
  ∧ tbl_UserEmoji w_room !! user_id bob = None
  ∧ outcome (create_user_emoji [guild_A] 2 true bob) w_room = Ok created
  ∧ outcome (fetch_user_emoji [guild_A] 2 not_found true (Some bob))
      (exec (create_user_emoji [guild_A] 2 true bob) w_room) = Ok created.
Proof.
  intros created.
  assert (H1 : outcome (_find_guild [guild_A] 2 true)
                 (log (EvDownloadAvatar (user_id bob)) w_room) = Ok guild_A)
    by (vm_compute; reflexivity).
  assert (H2 : tbl_Emoji w_room !! next_snowflake w_room = None)
    by (vm_compute; reflexivity).
  assert (H3 : tbl_UserEmoji w_room !! user_id bob = None) by (vm_compute; reflexivity).
  assert (H4 : outcome (create_user_emoji [guild_A] 2 true bob) w_room = Ok created)
    by (vm_compute; reflexivity).
  destruct (X10_create_then_fetch [guild_A] 2 not_found true bob w_room guild_A created
              H1 H2 H3 H4) as (Hout & _).
  split; [exact H1|]. split; [exact H2|]. split; [exact H3|]. split; [exact H4|exact Hout].
Defined.

(** ** [fetch_emoji] and the order of eviction *)

(** X11.  A fetch that succeeds changes one thing: the [last_fetched] of the row
    fetched, which takes the time of the call.  The emoji returned is the
    one the platform holds under the id asked; the guild of the row, the
    other rows, the bindings and the platform are as before. *)
Theorem X11_fetch_emoji_refreshes_one_row (NOT_FOUND : discord_Emoji) (cascade : bool)
    (eid : Z) (w : World) (emoji : discord_Emoji) :
  outcome (fetch_emoji NOT_FOUND cascade (Some eid)) w = Ok emoji →
  let w' := exec (fetch_emoji NOT_FOUND cascade (Some eid)) w in
  emoji_id emoji = eid
  ∧ discord_emojis w !! eid
    = Some {| info_name := emoji_name emoji; info_guild_id := emoji_guild_id emoji;
              info_animated := emoji_animated emoji |}
  ∧ (∃ row, tbl_Emoji w !! eid = Some row
            ∧ tbl_Emoji w' !! eid
              = Some {| row_guild_id := row_guild_id row; row_last_fetched := clock w |})
  ∧ (∀ k, k ≠ eid → tbl_Emoji w' !! k = tbl_Emoji w !! k)
  ∧ tbl_UserEmoji w' = tbl_UserEmoji w
  ∧ discord_emojis w' = discord_emojis w.
Proof.
  intros Hok w'.
  destruct (tbl_Emoji w !! eid) as [row|] eqn:Hrow.
  2:{ unfold outcome in Hok. by rewrite fetch_emoji_miss in Hok. }
  destruct (discord_emojis w !! eid) as [info|] eqn:Hlive.
  2:{ destruct (fetch_emoji_gone NOT_FOUND cascade eid w row Hrow Hlive) as (Hout & _).
      by rewrite Hout in Hok. }
  destruct (fetch_emoji_live NOT_FOUND cascade eid w row info Hrow Hlive)
    as (Hout & Hd & Ht & Hk & Hu & _).
  fold w' in Hd, Ht, Hk, Hu. rewrite Hout in Hok. injection Hok as <-. simpl.
  split; [done|]. split; [by destruct info|]. split; [by exists row|]. done.
Qed.

Lemma X11_fetch_emoji_refreshes_one_row_witness :
  outcome (fetch_emoji not_found true (Some 10)) w_full = Ok (to_discord_Emoji 10 (still 1))
  ∧ tbl_Emoji (exec (fetch_emoji not_found true (Some 10)) w_full) !! 11
    = tbl_Emoji w_full !! 11.
Proof.
  assert (H : outcome (fetch_emoji not_found true (Some 10)) w_full
              = Ok (to_discord_Emoji 10 (still 1))) by (vm_compute; reflexivity).
  destruct (X11_fetch_emoji_refreshes_one_row not_found true 10 w_full _ H)
    as (_ & _ & _ & Hk & _).
  split; [exact H|]. apply Hk. discriminate.
Defined.

(** X12.  An emoji just fetched is not the next to go.  After a fetch of [eid]
    that succeeds, as long as some other row was last fetched before the
    time of this fetch, the row the selector would evict first is not that
    of [eid]. *)
Theorem X12_fetched_is_not_evicted_next (NOT_FOUND : discord_Emoji) (cascade : bool)
    (eid k : Z) (w : World) (emoji : discord_Emoji) (row_k : EmojiRow) (r : EmojiRecord) :
  outcome (fetch_emoji NOT_FOUND cascade (Some eid)) w = Ok emoji →
  k ≠ eid →
  tbl_Emoji w !! k = Some row_k →
  row_last_fetched row_k < clock w →
  first_oldest (Emoji_records (tbl_Emoji (exec (fetch_emoji NOT_FOUND cascade (Some eid)) w)))
  = Some r →
  rec_emoji_id r ≠ eid.
Proof.
  intros Hok Hne Hk Hlt Hold Heq.
  destruct (tbl_Emoji w !! eid) as [row|] eqn:Hrow.
  2:{ unfold outcome in Hok. by rewrite fetch_emoji_miss in Hok. }
  destruct (discord_emojis w !! eid) as [info|] eqn:Hlive.
  2:{ destruct (fetch_emoji_gone NOT_FOUND cascade eid w row Hrow Hlive) as (Hout & _).
      by rewrite Hout in Hok. }
  destruct (fetch_emoji_live NOT_FOUND cascade eid w row info Hrow Hlive)
    as (_ & _ & Ht & Hothers & _).
  apply first_oldest_is_oldest in Hold as [Hr Hleast].
  rewrite Heq, Ht in Hr. injection Hr as _ Hts.
  specialize (Hleast k row_k). rewrite (Hothers k Hne) in Hleast.
  specialize (Hleast Hk). lia.
Qed.

Lemma X12_fetched_is_not_evicted_next_witness :
  outcome (fetch_emoji not_found true (Some 10)) w_full = Ok (to_discord_Emoji 10 (still 1))
  ∧ tbl_Emoji w_full !! 11 = Some (row 1 8)
  ∧ row_last_fetched (row 1 8) < clock w_full
  ∧ first_oldest (Emoji_records (tbl_Emoji w_full)) = Some (to_EmojiRecord 10 (row 1 7))
  ∧ first_oldest (Emoji_records (tbl_Emoji (exec (fetch_emoji not_found true (Some 10)) w_full)))
    = Some (to_EmojiRecord 11 (row 1 8))
  ∧ rec_emoji_id (to_EmojiRecord 11 (row 1 8)) ≠ 10.
Proof.
  assert (H1 : outcome (fetch_emoji not_found true (Some 10)) w_full
               = Ok (to_discord_Emoji 10 (still 1))) by (vm_compute; reflexivity).
  assert (H2 : tbl_Emoji w_full !! 11 = Some (row 1 8)) by (vm_compute; reflexivity).
  assert (H3 : row_last_fetched (row 1 8) < clock w_full) by (vm_compute; reflexivity).
  assert (H4 : first_oldest (Emoji_records
                 (tbl_Emoji (exec (fetch_emoji not_found true (Some 10)) w_full)))
               = Some (to_EmojiRecord 11 (row 1 8))) by (vm_compute; reflexivity).
  split; [exact H1|]. split; [exact H2|]. split; [exact H3|].
  split; [vm_compute; reflexivity|]. split; [exact H4|].
  exact (X12_fetched_is_not_evicted_next not_found true 10 11 w_full _ _ _
           H1 ltac:(discriminate) H2 H3 H4).
Defined.

(** X13.  A binding to an emoji without a row is not repaired.  The [ValueError]
    that [fetch_emoji] raises for it is not a [RuntimeError]: it leaves
    [fetch_user_emoji], which has neither deleted the binding nor created an
    emoji.  The tables being as before, the next call ends the same way. *)
Theorem X13_binding_without_row (GUILDS : list Guild) (LEAVE_FREE : Z)
    (NOT_FOUND : discord_Emoji) (cascade : bool) (user : User) (eid : Z) (w : World) :
  tbl_UserEmoji w !! user_id user = Some eid →
  tbl_Emoji w !! eid = None →
  let w' := exec (fetch_user_emoji GUILDS LEAVE_FREE NOT_FOUND cascade (Some user)) w in
  outcome (fetch_user_emoji GUILDS LEAVE_FREE NOT_FOUND cascade (Some user)) w
  = Raise (ValueError_not_in_cache eid)
  ∧ tbl_UserEmoji w' = tbl_UserEmoji w
  ∧ tbl_Emoji w' = tbl_Emoji w
  ∧ discord_emojis w' = discord_emojis w
  ∧ trace w' = trace w ++ [EvUserFetchRow (user_id user); EvEmojiFetchRow eid]
  ∧ outcome (fetch_user_emoji GUILDS LEAVE_FREE NOT_FOUND cascade (Some user)) w'
    = Raise (ValueError_not_in_cache eid).
Proof.
  intros Hb Hrow w'. subst w'. unfold exec, outcome.
  rewrite (fetch_user_emoji_not_cached _ _ _ _ _ _ _ Hb Hrow).
  cbn [fst snd].
  rewrite (fetch_user_emoji_not_cached GUILDS LEAVE_FREE NOT_FOUND cascade user eid
             (log (EvEmojiFetchRow eid) (log (EvUserFetchRow (user_id user)) w)) Hb Hrow).
  simpl. rewrite <- app_assoc. done.
Qed.

Lemma X13_binding_without_row_witness :
  let w := evicted false 10 w_full in
  tbl_UserEmoji w !! user_id alice = Some 10
  ∧ tbl_Emoji w !! 10 = None
  ∧ outcome (fetch_user_emoji [guild_A] 2 not_found false (Some alice)) w
    = Raise (ValueError_not_in_cache 10).
Proof.
  intros w.
  assert (H1 : tbl_UserEmoji w !! user_id alice = Some 10) by (vm_compute; reflexivity).
  assert (H2 : tbl_Emoji w !! 10 = None) by (vm_compute; reflexivity).
  destruct (X13_binding_without_row [guild_A] 2 not_found false alice 10 w H1 H2)
    as (Hout & _).
  split; [exact H1|]. split; [exact H2|exact Hout].
Defined.

(** ** Rows and the platform *)

Lemma keeps_rows_live_bind {A B} (c : M A) (k : A → M B) :
  keeps_rows_live c → (∀ a, keeps_rows_live (k a)) → keeps_rows_live (c ≫= k).
Proof.
  intros Hc Hk w Hw. specialize (Hc w Hw). unfold exec in *.
  cbv [mbind M_bind bind]. destruct (c w) as [w1 [a|e]]; simpl in *; [|done].
  by apply Hk.
Qed.

Lemma keeps_rows_live_same {A} (c : M A) :
  (∀ w, discord_emojis (exec c w) = discord_emojis w
        ∧ tbl_Emoji (exec c w) = tbl_Emoji w) →
  keeps_rows_live c.
Proof.
  intros H w Hw eid. destruct (H w) as [-> ->]. apply Hw.
Qed.

Lemma delete_emoji_keeps_rows_live (cascade : bool) (eid : Z) :
  keeps_rows_live (delete_emoji cascade eid).
Proof.
  intros w Hw k. destruct (tbl_Emoji w !! eid) as [row|] eqn:Hrow.
  - destruct (delete_emoji_hit cascade eid w row Hrow) as (_ & -> & -> & _).
    intros [x Hx]. apply lookup_delete_Some in Hx as [Hne Hx].
    rewrite lookup_delete_ne by done. apply Hw. by eexists.
  - unfold exec. rewrite delete_emoji_miss by done. apply Hw.
Qed.

Lemma fetch_emoji_keeps_rows_live (NOT_FOUND : discord_Emoji) (cascade : bool)
    (emoji_id : option Z) :
  keeps_rows_live (fetch_emoji NOT_FOUND cascade emoji_id).
Proof.
  intros w Hw k. destruct emoji_id as [eid|]; [|apply Hw].
  destruct (tbl_Emoji w !! eid) as [row|] eqn:Hrow.
  2:{ unfold exec. rewrite fetch_emoji_miss by done. apply Hw. }
  destruct (discord_emojis w !! eid) as [info|] eqn:Hlive.
  - destruct (fetch_emoji_live NOT_FOUND cascade eid w row info Hrow Hlive)
      as (_ & -> & Ht & Hk & _).
    destruct (decide (k = eid)) as [->|Hne]; [by rewrite Hlive|].
    rewrite (Hk k Hne). apply Hw.
  - destruct (fetch_emoji_gone NOT_FOUND cascade eid w row Hrow Hlive)
      as (_ & -> & -> & _).
    intros [x Hx]. apply lookup_delete_Some in Hx as [Hne Hx]. apply Hw. by eexists.
Qed.

Lemma find_guild_keeps_rows_live (GUILDS : list Guild) (LEAVE_FREE : Z) (cascade : bool) :
  keeps_rows_live (_find_guild GUILDS LEAVE_FREE cascade).
Proof.
  intros w.
  apply (find_guild_ind GUILDS LEAVE_FREE cascade
           (λ w w' _, rows_live w → rows_live w')); clear w.
  - intros w Hfs Hw k.
    assert (Hrun : _find_guild GUILDS LEAVE_FREE cascade w
                   = random_sample_1 (free_spaces GUILDS LEAVE_FREE w).*1
                       (free_spaces GUILDS LEAVE_FREE w).*2 w).
    { unfold _find_guild. by apply find_guild_rec_pick. }
    destruct (random_sample_1_spec (free_spaces GUILDS LEAVE_FREE w) w Hfs) as (Hd & Ht & _).
    unfold exec in *. rewrite Hrun, Hd, Ht. apply Hw.
  - intros w _ _ Hw. apply Hw.
  - intros w r Hfs Hold w1 IH Hw. apply IH.
    apply (delete_emoji_keeps_rows_live cascade (rec_emoji_id r) (log EvEmojiFetchOldest w)).
    apply Hw.
Qed.

Lemma create_emoji_keeps_rows_live (GUILDS : list Guild) (LEAVE_FREE : Z) (cascade : bool)
    (name : string) (image : Image) :
  keeps_rows_live (create_emoji GUILDS LEAVE_FREE cascade name image).
Proof.
  intros w Hw. pose proof (find_guild_keeps_rows_live GUILDS LEAVE_FREE cascade w Hw) as H1.
  unfold exec, create_emoji in *. run.
  destruct (_find_guild GUILDS LEAVE_FREE cascade w) as [w1 [g|e]]; simpl in *; [|done].
  destruct (tbl_Emoji w1 !! next_snowflake w1) as [row|] eqn:Hrow; simpl.
  - intros k Hk. simpl in *. destruct (decide (k = next_snowflake w1)) as [->|Hne].
    + rewrite lookup_insert_eq. by eexists.
    + rewrite lookup_insert_ne by done. by apply H1.
  - intros k Hk. simpl in *. destruct (decide (k = next_snowflake w1)) as [->|Hne].
    + rewrite lookup_insert_eq. by eexists.
    + rewrite lookup_insert_ne by done. rewrite lookup_insert_ne in Hk by done.
      by apply H1.
Qed.

Lemma create_user_emoji_keeps_rows_live (GUILDS : list Guild) (LEAVE_FREE : Z)
    (cascade : bool) (user : User) :
  keeps_rows_live (create_user_emoji GUILDS LEAVE_FREE cascade user).
Proof.
  unfold create_user_emoji.
  apply keeps_rows_live_bind; [by apply keeps_rows_live_same|]. intros image.
  apply keeps_rows_live_bind; [apply create_emoji_keeps_rows_live|]. intros emoji.
  apply keeps_rows_live_same. intros w. unfold exec. run.
  by destruct (tbl_UserEmoji w !! user_id user).
Qed.

(** X14.  No method of the cache leaves a row without its emoji.  When every row
    of [Emoji] is that of an emoji the platform has, this is still so after
    [delete_emoji], [fetch_emoji], [_find_guild], [create_emoji],
    [create_user_emoji] and [fetch_user_emoji], whether they return or
    raise. *)
Theorem X14_rows_stay_live (GUILDS : list Guild) (LEAVE_FREE : Z)
    (NOT_FOUND : discord_Emoji) (cascade : bool) (w : World) :
  rows_live w →
  (∀ eid, rows_live (exec (delete_emoji cascade eid) w))
  ∧ (∀ emoji_id, rows_live (exec (fetch_emoji NOT_FOUND cascade emoji_id) w))
  ∧ rows_live (exec (_find_guild GUILDS LEAVE_FREE cascade) w)
  ∧ (∀ name image, rows_live (exec (create_emoji GUILDS LEAVE_FREE cascade name image) w))
  ∧ (∀ user, rows_live (exec (create_user_emoji GUILDS LEAVE_FREE cascade user) w))
  ∧ (∀ user, rows_live (exec (fetch_user_emoji GUILDS LEAVE_FREE NOT_FOUND cascade user) w)).
Proof.
  intros Hw.
  split; [intros eid; by apply delete_emoji_keeps_rows_live|].
  split; [intros emoji_id; by apply fetch_emoji_keeps_rows_live|].
  split; [by apply find_guild_keeps_rows_live|].
  split; [intros name image; by apply create_emoji_keeps_rows_live|].
  split; [intros user; by apply create_user_emoji_keeps_rows_live|].
  intros [user|]; [|by apply fetch_emoji_keeps_rows_live].
  revert w Hw. change (keeps_rows_live
    (fetch_user_emoji GUILDS LEAVE_FREE NOT_FOUND cascade (Some user))).
  unfold fetch_user_emoji.
  apply keeps_rows_live_bind; [by apply keeps_rows_live_same|]. intros [record|];
    [|apply create_user_emoji_keeps_rows_live].
  intros w Hw.
  pose proof (fetch_emoji_keeps_rows_live NOT_FOUND cascade
                (Some (urec_emoji_id record)) w Hw) as H1.
  unfold exec in *. cbv [try_except_RuntimeError].
  destruct (fetch_emoji NOT_FOUND cascade (Some (urec_emoji_id record)) w)
    as [w1 [a|e]]; simpl in *; [done|].
  destruct (is_RuntimeError e); [|done].
  apply (keeps_rows_live_bind (UserEmoji_delete_record record)
           (λ _, create_user_emoji GUILDS LEAVE_FREE cascade user)); [| |done].
  - by apply keeps_rows_live_same.
  - intros _. apply create_user_emoji_keeps_rows_live.
Qed.

Lemma rows_live_dom (w : World) :
  dom (tbl_Emoji w) ⊆ dom (discord_emojis w) → rows_live w.
Proof.
  intros H eid Hrow. apply elem_of_dom. apply H. by apply elem_of_dom.
Qed.

Lemma X14_rows_stay_live_witness :
  rows_live w_full
  ∧ rows_live (exec (_find_guild [guild_A] 2 true) w_full)
  ∧ rows_live (exec (fetch_user_emoji [guild_A] 2 not_found true (Some alice)) w_full).
Proof.
  assert (H : rows_live w_full).
  { apply rows_live_dom.
    apply (bool_decide_unpack _ (dec := decide_rel (⊆) _ _)). vm_compute. exact I. }
  destruct (X14_rows_stay_live [guild_A] 2 not_found true w_full H)
    as (_ & _ & Hfind & _ & _ & Hfetch).
  split; [exact H|]. split; [exact Hfind|exact (Hfetch (Some alice))].
Defined.

(** ** The name of a user's emoji *)

Lemma is_name_char_spec (c : N) :
  is_name_char c = true
  ↔ (65 ≤ c ≤ 90 ∨ 97 ≤ c ≤ 122 ∨ 48 ≤ c ≤ 57 ∨ c = 95)%N.
Proof.
  unfold is_name_char.
  rewrite !orb_true_iff, !andb_true_iff, !N.leb_le, N.eqb_eq. lia.
Qed.

Lemma keep_name_chars_filter (s : list N) :
  keep_name_chars s = filter (λ c, is_name_char c = true) s.
Proof.
  induction s as [|c s IH]; [done|]. simpl. rewrite IH.
  destruct (is_name_char c) eqn:E.
  - by rewrite filter_cons_True.
  - rewrite filter_cons_False; [done|]. by rewrite E.
Qed.

Lemma text_of_length (s : list N) : String.length (text_of s) = length s.
Proof.
  unfold text_of. induction s as [|c s IH]; [done|]. rewrite fmap_cons.
  cbn [String.string_of_list_ascii String.length length]. by rewrite IH.
Qed.

Lemma string_length_append (s1 s2 : string) :
  String.length (s1 +:+ s2) = (String.length s1 + String.length s2)%nat.
Proof. induction s1 as [|a s1 IH]; simpl; [done|]. by rewrite IH. Qed.

(** Code points below 256 are those of their text. *)
Lemma codepoints_text_of (s : list N) :
  (∀ c, c ∈ s → (c < 256)%N) → codepoints (text_of s) = s.
Proof.
  unfold codepoints, text_of. rewrite String.list_ascii_of_string_of_list_ascii.
  induction s as [|c s IH]; intros H; [done|].
  rewrite !fmap_cons. rewrite IH by (intros c' Hc'; apply H; by right).
  f_equal. apply Ascii.N_ascii_embedding. apply H. left.
Qed.

(** X9.  The name that [create_user_emoji] gives is the text of [kept]
    followed by the discriminator of the user, where [kept] is what is left
    of the first 28 code points of the user's name once those that are not
    a letter from A to Z or from a to z, a digit or an underscore are
    taken out: the code points kept are in the order of the name, there are
    at most 28 of them, and the name given is at most 28 characters longer
    than the discriminator.  A name of at most 28 code points, all of them
    such letters, digits or underscores, is kept whole. *)
Theorem X9_user_emoji_name_shape (user : User) :
  let kept := filter (λ c, is_name_char c = true) (take 28 (user_name user)) in
  user_emoji_name user = (text_of kept +:+ user_discriminator user)%string
  ∧ codepoints (text_of kept) = kept
  ∧ (∀ c, c ∈ kept
          ↔ c ∈ take 28 (user_name user)
            ∧ (65 ≤ c ≤ 90 ∨ 97 ≤ c ≤ 122 ∨ 48 ≤ c ≤ 57 ∨ c = 95)%N)
  ∧ kept `sublist_of` user_name user
  ∧ (length kept ≤ 28)%nat
  ∧ (String.length (user_emoji_name user)
     ≤ 28 + String.length (user_discriminator user))%nat
  ∧ ((length (user_name user) ≤ 28)%nat →
     (∀ c, c ∈ user_name user → (65 ≤ c ≤ 90 ∨ 97 ≤ c ≤ 122 ∨ 48 ≤ c ≤ 57 ∨ c = 95)%N) →
     kept = user_name user).
Proof.
  intros kept.
  assert (Hname : user_emoji_name user = (text_of kept +:+ user_discriminator user)%string).
  { unfold user_emoji_name. by rewrite keep_name_chars_filter. }
  assert (Hin : ∀ c, c ∈ kept
                     ↔ c ∈ take 28 (user_name user)
                       ∧ (65 ≤ c ≤ 90 ∨ 97 ≤ c ≤ 122 ∨ 48 ≤ c ≤ 57 ∨ c = 95)%N).
  { intros c. unfold kept. rewrite list_elem_of_filter, is_name_char_spec. tauto. }
  assert (Hlen : (length kept ≤ 28)%nat).
  { unfold kept. etrans; [apply length_filter|]. rewrite length_take. lia. }
  split; [done|]. split.
  { apply codepoints_text_of. intros c Hc. apply Hin in Hc as [_ Hc]. lia. }
  split; [done|]. split.
  { unfold kept. etrans; [apply sublist_filter|apply sublist_take]. }
  split; [done|]. split.
  { rewrite Hname, string_length_append, text_of_length. lia. }
  intros Hshort Hall. unfold kept. rewrite take_ge by done.
  revert Hall. generalize (user_name user). intros s Hall.
  induction s as [|c s IH]; [done|].
  rewrite filter_cons_True.
  - f_equal. apply IH. intros c' Hc'. apply Hall. by right.
  - apply is_name_char_spec, Hall. left.
Qed.

Example user_emoji_name_bob : user_emoji_name bob = "Bob_the2ndesquireofsome4821".
Proof. reflexivity. Qed.

(** The 28 code points taken of the name of [renee] end with its letter a:
    the 27 accented letters go and the a stays.  Had the name been cut after
    28 bytes of its text in UTF-8, where an accented letter takes two, the a
    would have been cut off. *)
Example user_emoji_name_renee : user_emoji_name renee = "a0007".
Proof. reflexivity. Qed.

Lemma X9_user_emoji_name_shape_witness :
  let carol := {| user_id := 3; user_name := codepoints "carol_99";
                  user_discriminator := "0042" |} in
  (length (user_name carol) ≤ 28)%nat
  ∧ user_emoji_name carol = "carol_990042".
Proof.
  intros carol.
  assert (H1 : (length (user_name carol) ≤ 28)%nat) by (vm_compute; lia).
  assert (H2 : ∀ c, c ∈ user_name carol
                    → (65 ≤ c ≤ 90 ∨ 97 ≤ c ≤ 122 ∨ 48 ≤ c ≤ 57 ∨ c = 95)%N).
  { intros c Hc. apply is_name_char_spec.
    apply (Forall_forall (λ c, is_name_char c = true) (user_name carol)); [|done].
    repeat constructor. }
  destruct (X9_user_emoji_name_shape carol) as (Hname & _ & _ & _ & _ & _ & Hwhole).
  split; [exact H1|]. rewrite Hname, (Hwhole H1 H2). reflexivity.
Defined.

(** * The layout in columns of [ditto/utils/strings.py] *)

Lemma sum_replicate (k : nat) (x : Z) :
  foldr Z.add 0 (replicate k x) = Z.of_nat k * x.
Proof. induction k as [|k IH]; simpl replicate; simpl foldr; [lia|]. rewrite IH. lia. Qed.

Lemma foldr_add_app (l1 l2 : list Z) :
  foldr Z.add 0 (l1 ++ l2) = foldr Z.add 0 l1 + foldr Z.add 0 l2.
Proof. induction l1 as [|a l1 IH]; simpl; [done|]. rewrite IH. lia. Qed.

(** X15.  [_items_in_col] shares the items out evenly.  For a positive number of
    columns it returns one count per column, which add up to the number of
    items; each is the quotient of the items by the columns or one more, and
    the larger counts come first. *)
Theorem X15_items_in_col_shares (n_items cols : Z) :
  0 < cols →
  ∃ in_col,
    _items_in_col n_items cols = inr in_col
    ∧ length in_col = Z.to_nat cols
    ∧ foldr Z.add 0 in_col = n_items
    ∧ (∀ x, x ∈ in_col → x = Z.div n_items cols ∨ x = Z.div n_items cols + 1)
    ∧ (∀ i j x y, (i ≤ j)%nat → in_col !! i = Some x → in_col !! j = Some y → y ≤ x).
Proof.
  intros Hpos. unfold _items_in_col. rewrite decide_False by lia.
  pose proof (Z.mod_pos_bound n_items cols Hpos) as Hr.
  pose proof (Z.div_mod n_items cols ltac:(lia)) as Hdm.
  eexists. split; [reflexivity|]. split; [|split; [|split]].
  - rewrite length_app, !length_replicate. lia.
  - rewrite foldr_add_app, !sum_replicate. rewrite !Z2Nat.id by lia. lia.
  - intros x Hx. apply elem_of_app in Hx as [Hx|Hx];
      apply elem_of_replicate in Hx as [-> _]; [by right|by left].
  - intros i j x y Hij Hx Hy.
    assert (Hxv : x = Z.div n_items cols ∨ x = Z.div n_items cols + 1).
    { apply list_elem_of_lookup_2 in Hx. apply elem_of_app in Hx as [Hx|Hx];
        apply elem_of_replicate in Hx as [-> _]; [by right|by left]. }
    destruct (decide (j < Z.to_nat (Z.modulo n_items cols))%nat) as [Hj|Hj].
    + rewrite lookup_app_l in Hx by (rewrite length_replicate; lia).
      rewrite lookup_app_l in Hy by (rewrite length_replicate; lia).
      apply lookup_replicate in Hx as [-> _]. apply lookup_replicate in Hy as [-> _]. lia.
    + rewrite lookup_app_r in Hy by (rewrite length_replicate; lia).
      apply lookup_replicate in Hy as [-> _]. lia.
Qed.

Lemma X15_items_in_col_shares_witness :
  0 < 3
  ∧ ∃ in_col, _items_in_col 7 3 = inr in_col
              ∧ length in_col = 3%nat
              ∧ foldr Z.add 0 in_col = 7.
Proof.
  assert (H : 0 < 3) by lia.
  split; [exact H|].
  destruct (X15_items_in_col_shares 7 3 H) as (in_col & Heq & Hlen & Hsum & _).
  exists in_col. split; [exact Heq|]. split; [exact Hlen|exact Hsum].
Defined.

Lemma getitem_in_range {T} (items : list T) (i : Z) :
  0 ≤ i < Z.of_nat (length items) →
  ∃ item, getitem items i = Some item ∧ item ∈ items.
Proof.
  intros Hi. unfold getitem. rewrite decide_True by lia.
  destruct (lookup_lt_is_Some_2 items (Z.to_nat i)) as [item Hitem]; [lia|].
  exists item. split; [done|]. by eapply list_elem_of_lookup_2.
Qed.

Lemma _transpose_loop_ok {T} (items : list T) (per_col : list Z) (todo j : nat) (i : Z) :
  per_col ≠ [] →
  0 ≤ i < Z.of_nat (length items) →
  ∃ result,
    _transpose_loop items per_col todo j i = inr result
    ∧ length result = todo
    ∧ (∀ x, x ∈ result → x ∈ items)
    ∧ (todo ≠ 0%nat → head result = getitem items i).
Proof.
  intros Hne. revert j i. induction todo as [|todo IH]; intros j i Hi.
  - exists []. repeat split; try done. intros x Hx. inversion Hx.
  - cbn [_transpose_loop].
    assert (Hj : (j `mod` length per_col < length per_col)%nat).
    { apply Nat.mod_upper_bound. by destruct per_col. }
    destruct (lookup_lt_is_Some_2 per_col _ Hj) as [ts Hts]. rewrite Hts.
    destruct (getitem_in_range items i Hi) as (item & Hitem & Hin). rewrite Hitem.
    destruct (IH (S j) (Z.modulo (i + ts) (Z.of_nat (length items))))
      as (result & Hres & Hlen & Hall & _).
    { apply Z.mod_pos_bound. lia. }
    rewrite Hres. exists (item :: result). split; [done|]. split; [simpl; lia|].
    split; [|done]. intros x Hx. apply elem_of_cons in Hx as [->|Hx]; auto.
Qed.

Lemma list_init_last {A} (l : list A) :
  (2 ≤ length l)%nat → ∃ init last, l = init ++ [last] ∧ init ≠ [].
Proof.
  destruct l as [|a l] using rev_ind; [simpl; lia|].
  rewrite length_app. simpl. intros H. exists l, a. split; [done|].
  intros ->. simpl in H. lia.
Qed.

Lemma items_in_col_length (n_items cols : Z) :
  0 < cols →
  ∃ in_col, _items_in_col n_items cols = inr in_col ∧ length in_col = Z.to_nat cols.
Proof.
  intros Hpos. unfold _items_in_col. rewrite decide_False by lia.
  pose proof (Z.mod_pos_bound n_items cols Hpos) as Hr.
  eexists. split; [reflexivity|]. rewrite length_app, !length_replicate. lia.
Qed.

(** X16.  [_transpose] raises for fewer than two columns, whatever the items: the
    division by zero columns, the index error of [per_col[0]] for one column,
    where [per_col] is empty, and the error of the unpacking for a negative
    number of columns, where [_items_in_col] returns the empty tuple. *)
Theorem X16_transpose_needs_two_columns {T} (items : list T) :
  _transpose items 0 = inl ZeroDivisionError
  ∧ _transpose items 1 = inl IndexError
  ∧ ∀ columns, columns < 0 → _transpose items columns = inl ValueError_unpack.
Proof.
  split; [done|]. split.
  - unfold _transpose, _items_in_col. rewrite decide_False by lia.
    rewrite Z.mod_1_r, Z.div_1_r. done.
  - intros columns Hneg. unfold _transpose, _items_in_col.
    rewrite decide_False by lia.
    pose proof (Z.mod_neg_bound (Z.of_nat (length items)) columns Hneg) as Hr.
    rewrite !Z2Nat.nonpos by lia. done.
Qed.

Lemma X16_transpose_needs_two_columns_witness :
  -2 < 0 ∧ _transpose ["a"; "b"; "c"]%string (-2) = inl ValueError_unpack.
Proof.
  assert (H : -2 < 0) by lia.
  split; [exact H|].
  destruct (X16_transpose_needs_two_columns ["a"; "b"; "c"]%string) as (_ & _ & Hneg).
  exact (Hneg (-2) H).
Defined.

(** X17.  For two columns or more, [_transpose] returns as many items as it was
    given, each of them one of the items given, and the first of them is
    the first item given. *)
Theorem X17_transpose_result {T} (items : list T) (columns : Z) :
  2 ≤ columns →
  ∃ result,
    _transpose items columns = inr result
    ∧ length result = length items
    ∧ (∀ x, x ∈ result → x ∈ items)
    ∧ head result = head items.
Proof.
  intros Hc. unfold _transpose.
  destruct (items_in_col_length (Z.of_nat (length items)) columns ltac:(lia))
    as (in_col & -> & Hlen).
  destruct (list_init_last in_col ltac:(lia)) as (per_col & last & -> & Hne).
  rewrite reverse_snoc, reverse_involutive.
  destruct per_col as [|first per_col]; [done|].
  destruct items as [|item items].
  - exists []. repeat split; try done.
  - destruct (_transpose_loop_ok (item :: items) ((first :: per_col) ++ [first])
                (length (item :: items)) 0 0) as (result & Hres & Hl & Hall & Hhead).
    { done. }
    { simpl. lia. }
    exists result. split; [done|]. split; [done|]. split; [done|].
    by rewrite Hhead.
Qed.

Lemma X17_transpose_result_witness :
  2 ≤ 2
  ∧ ∃ result, _transpose ["a"; "b"; "c"; "d"; "e"]%string 2 = inr result
              ∧ length result = 5%nat
              ∧ head result = Some "a"%string.
Proof.
  assert (H : 2 ≤ 2) by lia.
  split; [exact H|].
  destruct (X17_transpose_result ["a"; "b"; "c"; "d"; "e"]%string 2 H)
    as (result & Heq & Hlen & _ & Hhead).
  exists result. split; [exact Heq|]. split; [exact Hlen|exact Hhead].
Defined.

(** ** The transposition *)

Lemma split_place (n c k : Z) :
  2 ≤ c → 0 ≤ k < n →
  let q := Z.div n c in let r := Z.modulo n c in
  let row := Z.div k c in let col := Z.modulo k c in
  n = c * q + r ∧ 0 ≤ r < c ∧ 0 ≤ q ∧ k = c * row + col ∧ 0 ≤ col < c ∧ 0 ≤ row
  ∧ row ≤ q ∧ (row = q → col < r).
Proof.
  intros Hc Hk q r row col.
  pose proof (Z.div_mod n c ltac:(lia)) as Hn.
  pose proof (Z.mod_pos_bound n c ltac:(lia)) as Hr.
  pose proof (Z.div_mod k c ltac:(lia)) as Hk'.
  pose proof (Z.mod_pos_bound k c ltac:(lia)) as Hcol.
  assert (0 ≤ q) by (apply Z.div_pos; lia).
  assert (0 ≤ row) by (apply Z.div_pos; lia).
  fold q r in Hn, Hr. fold row col in Hk', Hcol.
  assert (row ≤ q) by nia.
  repeat split; lia.
Qed.

Lemma cell_range (n c k : Z) :
  2 ≤ c → 0 ≤ k < n → 0 ≤ cell n c k < n.
Proof.
  intros Hc Hk. destruct (split_place n c k Hc Hk) as (Hn & Hr & Hq & Hk' & Hcol & Hrow & Hle & Hlast).
  unfold cell, column_start.
  set (q := Z.div n c) in *. set (r := Z.modulo n c) in *.
  set (row := Z.div k c) in *. set (col := Z.modulo k c) in *.
  split; [nia|].
  destruct (decide (col < r)).
  - rewrite Z.min_l by lia. nia.
  - rewrite Z.min_r by lia. assert (row < q) by lia. nia.
Qed.

Lemma cell_inj (n c k1 k2 : Z) :
  2 ≤ c → 0 ≤ k1 < n → 0 ≤ k2 < n → cell n c k1 = cell n c k2 → k1 = k2.
Proof.
  intros Hc H1 H2.
  destruct (split_place n c k1 Hc H1) as (Hn & Hr & Hq & Hk1 & Hcol1 & Hrow1 & Hle1 & Hlast1).
  destruct (split_place n c k2 Hc H2) as (_ & _ & _ & Hk2 & Hcol2 & Hrow2 & Hle2 & Hlast2).
  unfold cell, column_start.
  set (q := Z.div n c) in *. set (r := Z.modulo n c) in *.
  set (row1 := Z.div k1 c) in *. set (col1 := Z.modulo k1 c) in *.
  set (row2 := Z.div k2 c) in *. set (col2 := Z.modulo k2 c) in *.
  intros Heq.
  assert (col1 = col2); [|nia].
  destruct (Z.lt_trichotomy col1 col2) as [Hlt|[Heq'|Hgt]]; [exfalso|done|exfalso].
  - (* cell k1 < start (col1+1) ≤ start col2 ≤ cell k2 *)
    assert (col1 * q + Z.min col1 r + row1 < (col1 + 1) * q + Z.min (col1 + 1) r).
    { destruct (decide (col1 < r)); [rewrite !Z.min_l by lia; nia|].
      rewrite !Z.min_r by lia. assert (row1 < q) by lia. nia. }
    assert ((col1 + 1) * q + Z.min (col1 + 1) r ≤ col2 * q + Z.min col2 r) by nia.
    lia.
  - assert (col2 * q + Z.min col2 r + row2 < (col2 + 1) * q + Z.min (col2 + 1) r).
    { destruct (decide (col2 < r)); [rewrite !Z.min_l by lia; nia|].
      rewrite !Z.min_r by lia. assert (row2 < q) by lia. nia. }
    assert ((col2 + 1) * q + Z.min (col2 + 1) r ≤ col1 * q + Z.min col1 r) by nia.
    lia.
Qed.

Lemma cell_step (n c k : Z) :
  2 ≤ c → 0 ≤ k → k + 1 < n →
  Z.modulo n c ≠ 0 ∨ n ≤ c →
  Z.modulo (cell n c k + to_skip n c (Z.modulo k c)) n = cell n c (k + 1).
Proof.
  intros Hc Hk0 Hk1 Hmult.
  destruct (split_place n c k Hc ltac:(lia)) as (Hn & Hr & Hq & Hk & Hcol & Hrow & Hle & Hlast).
  pose proof (cell_range n c (k + 1) Hc ltac:(lia)) as Hrange.
  revert Hrange. unfold cell, column_start, to_skip, column_size.
  set (q := Z.div n c) in *. set (r := Z.modulo n c) in *.
  set (row := Z.div k c) in *. set (col := Z.modulo k c) in *.
  destruct (decide (col < c - 1)) as [Hin|Hedge].
  - assert (Hcol' : Z.modulo (k + 1) c = col + 1).
    { symmetry. apply (Z.mod_unique_pos _ _ row); lia. }
    assert (Hrow' : Z.div (k + 1) c = row).
    { symmetry. apply (Z.div_unique_pos _ _ _ (col + 1)); lia. }
    rewrite Hcol', Hrow'. intros Hrange.
    assert (Heq : col * q + Z.min col r + row + (q + (if decide (col < r) then 1 else 0))
                  = (col + 1) * q + Z.min (col + 1) r + row).
    { destruct (decide (col < r)); [rewrite !Z.min_l by lia|rewrite !Z.min_r by lia]; lia. }
    rewrite Heq. apply Z.mod_small. lia.
  - assert (Hcol' : Z.modulo (k + 1) c = 0).
    { symmetry. apply (Z.mod_unique_pos _ _ (row + 1)); lia. }
    assert (Hrow' : Z.div (k + 1) c = row + 1).
    { symmetry. apply (Z.div_unique_pos _ _ _ 0); lia. }
    rewrite Hcol', Hrow'. rewrite (Z.min_l 0 r) by lia. intros Hrange.
    assert (0 < r) by (destruct Hmult; [lia|nia]).
    rewrite decide_True by lia. rewrite (Z.min_r col r) by lia.
    symmetry. apply (Z.mod_unique_pos _ _ 1); [lia|nia].
Qed.

Lemma in_col_lookup (n c j : Z) :
  2 ≤ c → 0 ≤ j < c →
  (replicate (Z.to_nat (Z.modulo n c)) (Z.div n c + 1)
   ++ replicate (Z.to_nat (c - Z.modulo n c)) (Z.div n c)) !! Z.to_nat j
  = Some (column_size n c j).
Proof.
  intros Hc Hj. pose proof (Z.mod_pos_bound n c ltac:(lia)) as Hr.
  unfold column_size. destruct (decide (j < Z.modulo n c)) as [Hlt|Hge].
  - rewrite lookup_app_l by (rewrite length_replicate; lia).
    rewrite lookup_replicate_2 by lia. done.
  - rewrite lookup_app_r by (rewrite length_replicate; lia).
    rewrite lookup_replicate_2 by (rewrite length_replicate; lia).
    by rewrite Z.add_0_r.
Qed.

Lemma per_col_lookup (n c j : Z) (first last : Z) (per_col : list Z) :
  2 ≤ c → 0 ≤ j < c →
  replicate (Z.to_nat (Z.modulo n c)) (Z.div n c + 1)
  ++ replicate (Z.to_nat (c - Z.modulo n c)) (Z.div n c)
  = (first :: per_col) ++ [last] →
  length ((first :: per_col) ++ [first]) = Z.to_nat c
  ∧ ((first :: per_col) ++ [first]) !! Z.to_nat j = Some (to_skip n c j).
Proof.
  intros Hc Hj Heq.
  pose proof (Z.mod_pos_bound n c ltac:(lia)) as Hr.
  assert (Hlen : length ((first :: per_col) ++ [last]) = Z.to_nat c).
  { rewrite <- Heq, length_app, !length_replicate. lia. }
  rewrite length_app in Hlen. simpl in Hlen.
  split; [rewrite length_app; simpl; lia|].
  assert (Hfirst : first = column_size n c 0).
  { pose proof (in_col_lookup n c 0 Hc ltac:(lia)) as H0. rewrite Heq in H0.
    simpl in H0. by injection H0. }
  unfold to_skip. destruct (decide (j < c - 1)) as [Hin|Hedge].
  - rewrite lookup_app_l by (simpl; lia).
    rewrite <- (in_col_lookup n c j Hc Hj), Heq.
    rewrite lookup_app_l by (simpl; lia). done.
  - rewrite lookup_app_r by (simpl; lia).
    replace (Z.to_nat j - length (first :: per_col))%nat with 0%nat by (simpl; lia).
    simpl. by rewrite Hfirst.
Qed.

Lemma _transpose_loop_cells {T} (items : list T) (per_col : list Z) (c : Z) :
  let n := Z.of_nat (length items) in
  2 ≤ c →
  Z.modulo n c ≠ 0 ∨ n ≤ c →
  length per_col = Z.to_nat c →
  (∀ j, 0 ≤ j < c → per_col !! Z.to_nat j = Some (to_skip n c j)) →
  ∀ todo k i,
    (k + todo = length items)%nat →
    (todo ≠ 0%nat → i = cell n c (Z.of_nat k)) →
    ∃ result,
      _transpose_loop items per_col todo k i = inr result
      ∧ length result = todo
      ∧ ∀ m, (m < todo)%nat →
             result !! m = items !! Z.to_nat (cell n c (Z.of_nat (k + m))).
Proof.
  intros n Hc Hmult Hlen Hskip.
  induction todo as [|todo IH]; intros k i Hk Hi.
  - exists []. repeat split; try done. intros m Hm. lia.
  - cbn [_transpose_loop]. specialize (Hi ltac:(done)). subst i.
    assert (Hmod : (k `mod` length per_col)%nat = Z.to_nat (Z.modulo (Z.of_nat k) c)).
    { rewrite Hlen, Z2Nat.inj_mod by lia. by rewrite Nat2Z.id. }
    pose proof (Z.mod_pos_bound (Z.of_nat k) c ltac:(lia)) as Hcol.
    rewrite Hmod, (Hskip _ Hcol).
    pose proof (cell_range n c (Z.of_nat k) Hc ltac:(lia)) as Hrange.
    unfold getitem. rewrite decide_True by lia.
    destruct (lookup_lt_is_Some_2 items (Z.to_nat (cell n c (Z.of_nat k)))) as [item Hitem];
      [lia|].
    rewrite Hitem.
    destruct (IH (S k) (Z.modulo (cell n c (Z.of_nat k) + to_skip n c (Z.modulo (Z.of_nat k) c)) n))
      as (result & Hres & Hl & Hcells); [lia| |].
    { intros Htodo. rewrite cell_step by lia. f_equal. lia. }
    fold n. rewrite Hres. exists (item :: result).
    split; [done|]. split; [simpl; lia|].
    intros [|m] Hm.
    + simpl. rewrite Nat.add_0_r. done.
    + simpl. rewrite (Hcells m) by lia. do 3 f_equal. lia.
Qed.

(** X18.  For two columns or more, and a number of items that is not a multiple
    of the columns unless it is at most the columns, [_transpose] lays the
    items out in columns: read row by row, place [k] holds the item of row
    [k / columns] in column [k mod columns], the columns being filled one
    after the other with the sizes that [_items_in_col] gives.  The result
    is then a permutation of the items. *)
Theorem X18_transpose_lays_out_columns {T} (items : list T) (columns : Z) :
  let n := Z.of_nat (length items) in
  2 ≤ columns →
  Z.modulo n columns ≠ 0 ∨ n ≤ columns →
  ∃ result,
    _transpose items columns = inr result
    ∧ (∀ k, (k < length items)%nat →
            result !! k = items !! Z.to_nat (cell n columns (Z.of_nat k)))
    ∧ result ≡ₚ items.
Proof.
  intros n Hc Hmult. unfold _transpose, _items_in_col. rewrite decide_False by lia.
  fold n.
  destruct (list_init_last
              (replicate (Z.to_nat (Z.modulo n columns)) (Z.div n columns + 1)
               ++ replicate (Z.to_nat (columns - Z.modulo n columns)) (Z.div n columns)))
    as (per_col & last & Heq & Hne).
  { pose proof (Z.mod_pos_bound n columns ltac:(lia)).
    rewrite length_app, !length_replicate. lia. }
  rewrite Heq, reverse_snoc, reverse_involutive.
  destruct per_col as [|first per_col]; [done|].
  destruct (_transpose_loop_cells items ((first :: per_col) ++ [first]) columns Hc Hmult)
    with (todo := length items) (k := 0%nat) (i := 0) as (result & Hres & Hlen & Hcells).
  - by destruct (per_col_lookup n columns 0 first last per_col Hc ltac:(lia) Heq).
  - intros j Hj. by destruct (per_col_lookup n columns j first last per_col Hc Hj Heq).
  - done.
  - intros Htodo. unfold cell, column_start. simpl.
    rewrite Z.mod_0_l, Z.div_0_l by lia.
    pose proof (Z.mod_pos_bound n columns ltac:(lia)). fold n. lia.
  - exists result. split; [done|]. split; [intros k Hk; by apply Hcells|].
    apply Permutation_inj. split; [done|].
    exists (λ k, if decide (k < length items)%nat
                 then Z.to_nat (cell n columns (Z.of_nat k)) else k).
    split.
    + intros k1 k2.
      destruct (decide (k1 < length items)%nat) as [H1|H1];
        destruct (decide (k2 < length items)%nat) as [H2|H2]; intros Hk; [| | |done].
      * pose proof (cell_range n columns (Z.of_nat k1) Hc ltac:(lia)).
        pose proof (cell_range n columns (Z.of_nat k2) Hc ltac:(lia)).
        apply Nat2Z.inj. apply (cell_inj n columns); [lia..|]. lia.
      * pose proof (cell_range n columns (Z.of_nat k1) Hc ltac:(lia)). lia.
      * pose proof (cell_range n columns (Z.of_nat k2) Hc ltac:(lia)). lia.
    + intros k. destruct (decide (k < length items)%nat) as [Hk|Hk].
      * by apply Hcells.
      * rewrite !lookup_ge_None_2 by lia. done.
Qed.

Lemma X18_transpose_lays_out_columns_witness :
  2 ≤ 3
  ∧ (Z.modulo (Z.of_nat (length [0; 1; 2; 3; 4; 5; 6])) 3 ≠ 0
     ∨ Z.of_nat (length [0; 1; 2; 3; 4; 5; 6]) ≤ 3)
  ∧ ∃ result, _transpose [0; 1; 2; 3; 4; 5; 6] 3 = inr result
              ∧ result ≡ₚ [0; 1; 2; 3; 4; 5; 6].
Proof.
  assert (H1 : 2 ≤ 3) by lia.
  assert (H2 : Z.modulo (Z.of_nat (length [0; 1; 2; 3; 4; 5; 6])) 3 ≠ 0
               ∨ Z.of_nat (length [0; 1; 2; 3; 4; 5; 6]) ≤ 3)
    by (left; vm_compute; discriminate).
  split; [exact H1|]. split; [exact H2|].
  destruct (X18_transpose_lays_out_columns [0; 1; 2; 3; 4; 5; 6] 3 H1 H2)
    as (result & Heq & _ & Hperm).
  exists result. split; [exact Heq|exact Hperm].
Defined.

(** Seven items in three columns of three, two and two items, read row by
    row. *)
Example transpose_seven_in_three :
  _transpose [0; 1; 2; 3; 4; 5; 6] 3 = inr [0; 3; 5; 1; 4; 6; 2].
Proof. reflexivity. Qed.

(** The condition on the number of items is needed: four items in two
    columns come out as the first and the third, twice. *)
Example transpose_four_in_two :
  _transpose [0; 1; 2; 3] 2 = inr [0; 2; 0; 2].
Proof. reflexivity. Qed.

(** * What a fetch and a failed creation leave alone *)

(** X19.  [fetch_emoji] never changes the platform and never touches a row other
    than the one it is asked for, however it ends; it adds no binding, and
    without a cascading delete it changes none. *)
Theorem X19_fetch_emoji_touches_one_row (NOT_FOUND : discord_Emoji) (cascade : bool)
    (emoji_id : option Z) (w : World) :
  let w' := exec (fetch_emoji NOT_FOUND cascade emoji_id) w in
  discord_emojis w' = discord_emojis w
  ∧ (∀ k, emoji_id ≠ Some k → tbl_Emoji w' !! k = tbl_Emoji w !! k)
  ∧ (∀ uid eid, tbl_UserEmoji w' !! uid = Some eid → tbl_UserEmoji w !! uid = Some eid)
  ∧ (cascade = false → tbl_UserEmoji w' = tbl_UserEmoji w).
Proof.
  intros w'. destruct emoji_id as [eid|]; [|done].
  destruct (tbl_Emoji w !! eid) as [row|] eqn:Hrow.
  2:{ subst w'. unfold exec. rewrite fetch_emoji_miss by done. done. }
  destruct (discord_emojis w !! eid) as [info|] eqn:Hlive.
  - destruct (fetch_emoji_live NOT_FOUND cascade eid w row info Hrow Hlive)
      as (_ & Hd & _ & Hk & Hu & _).
    fold w' in Hd, Hk, Hu. rewrite Hu. repeat split; try done.
    intros k Hne. apply Hk. congruence.
  - destruct (fetch_emoji_gone NOT_FOUND cascade eid w row Hrow Hlive)
      as (_ & Hd & Ht & Hu & _).
    fold w' in Hd, Ht, Hu. rewrite Hu, Ht. split; [done|]. split; [|split].
    + intros k Hne. apply lookup_delete_ne. congruence.
    + intros uid e. destruct cascade; [|done].
      intros H. by apply lookup_drop_bindings_to in H as [H _].
    + by intros ->.
Qed.

Lemma X19_fetch_emoji_touches_one_row_witness :
  tbl_UserEmoji (exec (fetch_emoji not_found false (Some 10)) w_desynced)
  = tbl_UserEmoji w_desynced
  ∧ tbl_Emoji (exec (fetch_emoji not_found false (Some 10)) w_desynced) !! 11
    = tbl_Emoji w_desynced !! 11.
Proof.
  destruct (X19_fetch_emoji_touches_one_row not_found false (Some 10) w_desynced)
    as (_ & Hrows & _ & Hsame).
  split; [exact (Hsame eq_refl)|]. apply Hrows. discriminate.
Defined.

(** X20.  When no guild of the pool has more than [LEAVE_FREE] free slots and
    [Emoji] has no row to evict, [create_user_emoji] raises the error of
    the empty and full cache.  The avatar has been downloaded by then, but
    no emoji is created, no row inserted and the user is not bound. *)
Theorem X20_create_user_emoji_without_room (GUILDS : list Guild) (LEAVE_FREE : Z)
    (cascade : bool) (user : User) (w : World) :
  pool_exhausted GUILDS LEAVE_FREE w →
  tbl_Emoji w = ∅ →
  let w' := exec (create_user_emoji GUILDS LEAVE_FREE cascade user) w in
  outcome (create_user_emoji GUILDS LEAVE_FREE cascade user) w
  = Raise RuntimeError_empty_and_full
  ∧ discord_emojis w' = discord_emojis w
  ∧ tbl_Emoji w' = ∅
  ∧ tbl_UserEmoji w' = tbl_UserEmoji w
  ∧ trace w' = trace w ++ [EvDownloadAvatar (user_id user); EvEmojiFetchOldest].
Proof.
  intros Hex Hempty w'.
  set (w0 := log (EvDownloadAvatar (user_id user)) w).
  assert (Hfs : free_spaces GUILDS LEAVE_FREE w0 = []).
  { apply free_spaces_nil. by apply (pool_exhausted_ext _ _ w w0). }
  assert (Hold : first_oldest (Emoji_records (tbl_Emoji w0)) = None).
  { simpl. rewrite Hempty. unfold Emoji_records. by rewrite map_to_list_empty. }
  assert (Hrun : _find_guild GUILDS LEAVE_FREE cascade w0
                 = (log EvEmojiFetchOldest w0, Raise RuntimeError_empty_and_full)).
  { unfold _find_guild. by apply find_guild_rec_fail. }
  subst w'. unfold exec, outcome, create_user_emoji, create_emoji. run. fold w0.
  rewrite Hrun. simpl. rewrite <- app_assoc. done.
Qed.

Lemma X20_create_user_emoji_without_room_witness :
  let w := world_of {[ 10 := still 1; 11 := still 1; 12 := still 1 ]} ∅ ∅ in
  pool_exhausted [guild_A] 2 w
  ∧ tbl_Emoji w = ∅
  ∧ outcome (create_user_emoji [guild_A] 2 true alice) w = Raise RuntimeError_empty_and_full
  ∧ tbl_UserEmoji (exec (create_user_emoji [guild_A] 2 true alice) w) = tbl_UserEmoji w.
Proof.
  intros w.
  assert (H1 : pool_exhausted [guild_A] 2 w).
  { apply free_spaces_nil. vm_compute; reflexivity. }
  assert (H2 : tbl_Emoji w = ∅) by reflexivity.
  destruct (X20_create_user_emoji_without_room [guild_A] 2 true alice w H1 H2)
    as (Hout & _ & _ & Hu & _).
  split; [exact H1|]. split; [exact H2|]. split; [exact Hout|exact Hu].
Defined.
